(** * glowl: thin RAII wrappers over OpenGL, as a shallow embedding

    The wrappers of the repository hold a native handle and forward
    configuration structs into driver calls.  Nothing of the driver is part
    of the repository, so the embedding keeps the driver abstract: a
    [Driver] answers every native call from the history of the calls made
    so far, and the wrappers run in a small state-and-exception monad that
    records each native call together with the driver's answer. *)

From Stdlib Require Import ZArith List String Ascii Bool Lia DecimalString.
Import ListNotations.
Open Scope string_scope.
Open Scope list_scope.
Open Scope Z_scope.

(** ** C integer types

    Values are mathematical integers; a conversion between C types of
    different signedness or width is written out where the source has one. *)

Module CTypes.

Definition to_unsigned (bits x : Z) : Z := x mod 2 ^ bits.

Definition to_signed (bits x : Z) : Z :=
  let r := x mod 2 ^ bits in
  if r <? 2 ^ (bits - 1) then r else r - 2 ^ bits.

Definition as_GLuint    : Z -> Z := to_unsigned 32.
Definition as_GLenum    : Z -> Z := to_unsigned 32.
Definition as_unsigned  : Z -> Z := to_unsigned 32.
Definition as_GLint     : Z -> Z := to_signed 32.
Definition as_GLsizei   : Z -> Z := to_signed 32.
Definition as_int       : Z -> Z := to_signed 32.
Definition as_size_t    : Z -> Z := to_unsigned 64.
Definition as_GLuint64  : Z -> Z := to_unsigned 64.

Definition is_unsigned (bits x : Z) : Prop := 0 <= x < 2 ^ bits.
Definition is_signed (bits x : Z) : Prop := - 2 ^ (bits - 1) <= x < 2 ^ (bits - 1).

(** [std::to_string] of an integer. *)
Definition to_string (x : Z) : string := NilZero.string_of_int (Z.to_int x).

End CTypes.
Import CTypes.

(** ** Enumerants of the OpenGL headers

    The headers (glad, glew, gl3w) are not part of the repository; the
    values are those of the Khronos registry. *)

Module GL.

Definition GL_FALSE : Z := 0.
Definition GL_NO_ERROR : Z := 0.
Definition GL_TRIANGLES : Z := 0x0004.

Definition GL_BYTE : Z := 0x1400.
Definition GL_UNSIGNED_BYTE : Z := 0x1401.
Definition GL_SHORT : Z := 0x1402.
Definition GL_UNSIGNED_SHORT : Z := 0x1403.
Definition GL_INT : Z := 0x1404.
Definition GL_UNSIGNED_INT : Z := 0x1405.
Definition GL_FLOAT : Z := 0x1406.
Definition GL_DOUBLE : Z := 0x140A.
Definition GL_HALF_FLOAT : Z := 0x140B.
Definition GL_FIXED : Z := 0x140C.
Definition GL_UNSIGNED_INT_2_10_10_10_REV : Z := 0x8368.
Definition GL_UNSIGNED_INT_10F_11F_11F_REV : Z := 0x8C3B.
Definition GL_INT_2_10_10_10_REV : Z := 0x8D9F.

Definition GL_TEXTURE_2D_ARRAY : Z := 0x8C1A.
Definition GL_SHADER_STORAGE_BUFFER : Z := 0x90D2.
Definition GL_DYNAMIC_DRAW : Z := 0x88E8.

Definition GL_FRAGMENT_SHADER : Z := 0x8B30.
Definition GL_VERTEX_SHADER : Z := 0x8B31.
Definition GL_GEOMETRY_SHADER : Z := 0x8DD9.
Definition GL_TESS_EVALUATION_SHADER : Z := 0x8E87.
Definition GL_TESS_CONTROL_SHADER : Z := 0x8E88.
Definition GL_COMPUTE_SHADER : Z := 0x91B9.
Definition GL_COMPILE_STATUS : Z := 0x8B81.
Definition GL_LINK_STATUS : Z := 0x8B82.
Definition GL_INFO_LOG_LENGTH : Z := 0x8B84.

End GL.
Import GL.

(** A [GLfloat] is never computed with by the wrappers, only copied: it is
    kept as its 32-bit pattern. *)
Definition GLfloat : Type := Z.

(** ** VertexLayout.hpp *)

Module VertexLayout.

Record Attribute : Type := mkAttribute {
  size : Z;               (* GLint *)
  type : Z;               (* GLenum *)
  normalized : Z;         (* GLboolean *)
  offset : Z;             (* GLsizei *)
  shader_input_type : Z   (* GLenum *)
}.

Record t : Type := mkVertexLayout {
  stride : Z;               (* GLsizei *)
  buffer_start_offset : Z;  (* GLintptr *)
  buffer_name : Z;          (* GLuint *)
  attributes : list Attribute
}.

(** [operator==(Attribute const&, Attribute const&)] *)
Definition Attribute_eq (lhs rhs : Attribute) : bool :=
  (normalized lhs =? normalized rhs) && (offset lhs =? offset rhs) &&
  (size lhs =? size rhs) && (type lhs =? type rhs) &&
  (shader_input_type lhs =? shader_input_type rhs).

(** [for (std::size_t i = 0; i < n; ++i) body]; the body may read a vector
    out of range, which has no defined result ([None]). *)
Definition for_index {S : Type} (n : nat) (body : nat -> S -> option S) (s : S) : option S :=
  fold_left (fun acc i => match acc with Some s' => body i s' | None => None end)
            (seq 0 n) (Some s).

(** [operator==(VertexLayout const&, VertexLayout const&)] *)
Definition VertexLayout_eq (lhs rhs : t) : option bool :=
  let rtn := true in
  let rtn := rtn && (stride lhs =? stride rhs) in
  if (List.length (attributes lhs) =? List.length (attributes rhs))%nat then
    for_index (List.length (attributes lhs))
      (fun i rtn =>
         match nth_error (attributes lhs) i, nth_error (attributes rhs) i with
         | Some l, Some r => Some (rtn && Attribute_eq l r)
         | _, _ => None
         end) rtn
  else
    Some false.

(** [computeByteSize]: the switch, case by case in the order of the source. *)
Definition computeByteSize (value_type : Z) : Z :=
  if value_type =? GL_BYTE then 1
  else if value_type =? GL_SHORT then 2
  else if value_type =? GL_INT then 4
  else if value_type =? GL_FIXED then 4
  else if value_type =? GL_FLOAT then 4
  else if value_type =? GL_HALF_FLOAT then 2
  else if value_type =? GL_DOUBLE then 8
  else if value_type =? GL_UNSIGNED_BYTE then 1
  else if value_type =? GL_UNSIGNED_SHORT then 2
  else if value_type =? GL_UNSIGNED_INT then 4
  else if value_type =? GL_INT_2_10_10_10_REV then 4
  else if value_type =? GL_UNSIGNED_INT_2_10_10_10_REV then 4
  else if value_type =? GL_UNSIGNED_INT_10F_11F_11F_REV then 4
  else 0.

(** [computeAttributeByteSize]: the product is taken in [std::size_t], to
    which the [GLint] component count is converted first. *)
Definition computeAttributeByteSize (attrib_desc : Attribute) : Z :=
  as_size_t (computeByteSize (type attrib_desc) * as_size_t (size attrib_desc)).

(** The thirteen enumerants [computeByteSize] has a case for. *)
Definition recognized_types : list Z :=
  [GL_BYTE; GL_UNSIGNED_BYTE; GL_SHORT; GL_UNSIGNED_SHORT; GL_HALF_FLOAT;
   GL_INT; GL_UNSIGNED_INT; GL_FIXED; GL_FLOAT; GL_INT_2_10_10_10_REV;
   GL_UNSIGNED_INT_2_10_10_10_REV; GL_UNSIGNED_INT_10F_11F_11F_REV; GL_DOUBLE].

(** Two attributes agree on every field [operator==] looks at. *)
Definition agree (l r : Attribute) : Prop :=
  size l = size r /\ type l = type r /\ normalized l = normalized r /\
  offset l = offset r /\ shader_input_type l = shader_input_type r.

(** The comparison of the [i]-th attributes, false out of range. *)
Definition eq_at (la ra : list Attribute) (i : nat) : bool :=
  match nth_error la i, nth_error ra i with
  | Some l, Some r => Attribute_eq l r
  | _, _ => false
  end.

(** A layout that differs from [l] in its buffer only. *)
Definition with_buffer (l : t) (name start : Z) : t :=
  mkVertexLayout (stride l) start name (attributes l).

End VertexLayout.

(** ** The native API

    A native call is recorded with its arguments as the wrapper passes them.
    Pointers to client memory ([GLvoid*]) are addresses, [nullptr] being 0;
    a pointer the driver only reads a short array or a string through is
    recorded as the data behind it. *)

Module Native.

Inductive GLCall : Type :=
  (* vertex arrays *)
  | glCreateVertexArrays (n : Z)
  | glDeleteVertexArrays (n array : Z)
  | glBindVertexArray (array : Z)
  | glVertexArrayVertexBuffer (vaobj bindingindex buffer offset stride : Z)
  | glEnableVertexArrayAttrib (vaobj index : Z)
  | glVertexArrayAttribFormat (vaobj attribindex size type normalized relativeoffset : Z)
  | glVertexArrayAttribIFormat (vaobj attribindex size type relativeoffset : Z)
  | glVertexArrayAttribLFormat (vaobj attribindex size type relativeoffset : Z)
  | glVertexArrayAttribBinding (vaobj attribindex bindingindex : Z)
  | glVertexArrayElementBuffer (vaobj buffer : Z)
  | glDrawElementsInstanced (mode count type indices instancecount : Z)
  | glDrawArraysInstanced (mode first count instancecount : Z)
  | glGetError
  (* shaders and programs *)
  | glCreateProgram
  | glDeleteProgram (program : Z)
  | glCreateShader (type : Z)
  | glShaderSource (shader count : Z) (source : string)
  | glCompileShader (shader : Z)
  | glGetShaderiv (shader pname : Z)
  | glGetShaderInfoLog (shader bufSize : Z)
  | glDeleteShader (shader : Z)
  | glAttachShader (program shader : Z)
  | glLinkProgram (program : Z)
  | glGetProgramiv (program pname : Z)
  | glGetProgramInfoLog (program bufSize : Z)
  | glUseProgram (program : Z)
  | glBindAttribLocation (program index : Z) (name : string)
  | glBindFragDataLocation (program color : Z) (name : string)
  | glGetUniformLocation (program : Z) (name : string)
  | glUniform1f (location : Z) (v0 : GLfloat)
  | glUniform2f (location : Z) (v0 v1 : GLfloat)
  | glUniform3f (location : Z) (v0 v1 v2 : GLfloat)
  | glUniform4f (location : Z) (v0 v1 v2 v3 : GLfloat)
  | glUniform1i (location : Z) (v0 : Z)
  | glUniform2i (location : Z) (v0 v1 : Z)
  | glUniform3i (location : Z) (v0 v1 v2 : Z)
  | glUniform4i (location : Z) (v0 v1 v2 v3 : Z)
  | glUniform1ui (location : Z) (v0 : Z)
  | glUniform2ui (location : Z) (v0 v1 : Z)
  | glUniform3ui (location : Z) (v0 v1 v2 : Z)
  | glUniform4ui (location : Z) (v0 v1 v2 v3 : Z)
  | glUniform2fv (location count : Z) (value : list GLfloat)
  | glUniform3fv (location count : Z) (value : list GLfloat)
  | glUniform4fv (location count : Z) (value : list GLfloat)
  | glUniform2iv (location count : Z) (value : list Z)
  | glUniform3iv (location count : Z) (value : list Z)
  | glUniform4iv (location count : Z) (value : list Z)
  | glUniformMatrix2fv (location count transpose : Z) (value : list GLfloat)
  | glUniformMatrix3fv (location count transpose : Z) (value : list GLfloat)
  | glUniformMatrix4fv (location count transpose : Z) (value : list GLfloat)
  (* textures *)
  | glGenTextures (n : Z)
  | glDeleteTextures (n texture : Z)
  | glBindTexture (target texture : Z)
  | glTexParameteri (target pname param : Z)
  | glTexParameterf (target pname : Z) (param : GLfloat)
  | glTexStorage3D (target levels internalformat width height depth : Z)
  | glTexSubImage3D (target level xoffset yoffset zoffset width height depth format type pixels : Z)
  | glGenerateMipmap (target : Z)
  | glGetTextureHandleARB (texture : Z)
  (* buffers *)
  | glGenBuffers (n : Z)
  | glDeleteBuffers (n buffer : Z)
  | glBindBuffer (target buffer : Z)
  | glBufferData (target size data usage : Z)
  | glBindBufferBase (target index buffer : Z).

(** What a call hands back: [value] is the returned integer or, for a call
    with an integer out-parameter ([glCreateVertexArrays(1, &h)],
    [glGetShaderiv(s, p, &v)]), what the pointed-to variable holds after the
    call; [text] is what a call that fills a character buffer wants to
    write. *)
Record GLOut : Type := mkOut { value : Z; text : string }.

(** The driver is any deterministic function of the calls made so far. *)
Definition Driver : Type := list GLCall -> GLCall -> GLOut.

Record World : Type := mkWorld {
  driver : Driver;
  trace : list (GLCall * GLOut);  (* oldest first *)
  cerr : list string              (* lines written to std::cerr *)
}.

Definition calls (w : World) : list GLCall := map fst (trace w).

Inductive exn : Type :=
  | MeshException (what : string)
  | GLSLProgramException (what : string).

Inductive Outcome (A : Type) : Type :=
  | Returned (a : A)
  | Thrown (e : exn).
Arguments Returned {A} a.
Arguments Thrown {A} e.

(** Computations: a world in, an outcome and a world out. *)
Definition M (A : Type) : Type := World -> Outcome A * World.

Definition pure {A : Type} (a : A) : M A := fun w => (Returned a, w).

Definition bind {A B : Type} (m : M A) (k : A -> M B) : M B :=
  fun w =>
    match m w with
    | (Returned a, w') => k a w'
    | (Thrown e, w') => (Thrown e, w')
    end.

Definition throw {A : Type} (e : exn) : M A := fun w => (Thrown e, w).

(** [try { m } catch (...) { handler }] *)
Definition try_catch {A : Type} (m : M A) (handler : exn -> M A) : M A :=
  fun w =>
    match m w with
    | (Returned a, w') => (Returned a, w')
    | (Thrown e, w') => handler e w'
    end.

(** Issue one native call. *)
Definition gl (c : GLCall) : M GLOut :=
  fun w =>
    let o := driver w (calls w) c in
    (Returned o, mkWorld (driver w) (trace w ++ [(c, o)]) (cerr w)).

(** [std::cerr << ... << std::endl] *)
Definition print_cerr (line : string) : M unit :=
  fun w => (Returned tt, mkWorld (driver w) (trace w) (cerr w ++ [line])).

Declare Scope glowl_scope.
Delimit Scope glowl_scope with glowl.
Notation "x <- m ;; k" := (bind m (fun x => k))
  (at level 61, m at next level, right associativity) : glowl_scope.
Notation "m ;;; k" := (bind m (fun _ => k))
  (at level 61, right associativity) : glowl_scope.
Open Scope glowl_scope.

(** [if (c) { m }] for a statement. *)
Definition when (c : bool) (m : M unit) : M unit := if c then m else pure tt.

(** Discard the result of a call used as a statement. *)
Definition call (c : GLCall) : M unit := _ <- gl c ;; pure tt.

(** A range-based [for] over a vector, threading the locals the body
    updates. *)
Fixpoint for_each {A S : Type} (xs : list A) (body : A -> S -> M S) (s : S) : M S :=
  match xs with
  | [] => pure s
  | x :: xs' => s' <- body x s ;; for_each xs' body s'
  end.

(** The calls a computation adds to the trace of [w]. *)
Definition issued {A : Type} (m : M A) (w : World) : list (GLCall * GLOut) :=
  skipn (List.length (trace w)) (trace (snd (m w))).

Definition printed {A : Type} (m : M A) (w : World) : list string :=
  skipn (List.length (cerr w)) (cerr (snd (m w))).

(** The C string a zero-terminated buffer holds. *)
Fixpoint c_str (s : string) : string :=
  match s with
  | EmptyString => EmptyString
  | String c s' => if Ascii.eqb c zero then EmptyString else String c (c_str s')
  end.

(** A zero-filled buffer of [bufSize] characters after the driver has
    written [log] into it, cut to the buffer and terminated, read back
    with [std::string(buffer.data())]. *)
Definition read_info_log (bufSize : Z) (log : string) : string :=
  c_str (substring 0 (Z.to_nat (bufSize - 1)) log).

End Native.
Import Native.

(** ** VertexArrayObject *)

Module VertexArrayObject.
Import VertexLayout.

Record t : Type := mk {
  m_va_handle : Z;                              (* GLuint *)
  m_vertex_descriptor : list VertexLayout.t;
  m_primitive_type : Z;                         (* GLenum *)
  m_draw_items_count : Z;                       (* GLsizei *)
  m_index_type : Z;                             (* GLenum *)
  m_index_buffer_name : Z                       (* GLuint *)
}.

Definition set_va_handle (this : t) (h : Z) : t :=
  mk h (m_vertex_descriptor this) (m_primitive_type this)
     (m_draw_items_count this) (m_index_type this) (m_index_buffer_name this).

Definition invalid_input_type : string :=
  "Mesh::createVertexArray - invalid vertex shader input type given (use float, double or int)".

(** The [switch] on [attribute.shader_input_type]. *)
Definition attribFormat (h global_attrib_idx : Z) (attribute : Attribute) : M unit :=
  let s := shader_input_type attribute in
  if s =? GL_FLOAT then
    call (glVertexArrayAttribFormat h global_attrib_idx (size attribute) (type attribute)
            (normalized attribute) (as_GLuint (offset attribute)))
  else if (s =? GL_INT) || (s =? GL_UNSIGNED_INT) then
    call (glVertexArrayAttribIFormat h global_attrib_idx (size attribute) (type attribute)
            (as_GLuint (offset attribute)))
  else if s =? GL_DOUBLE then
    call (glVertexArrayAttribLFormat h global_attrib_idx (size attribute) (type attribute)
            (as_GLuint (offset attribute)))
  else
    throw (MeshException invalid_input_type).

(** Body of the inner loop; the local it updates is [global_attrib_idx]. *)
Definition attribute_body (h vertex_layout_idx : Z) (attribute : Attribute)
    (global_attrib_idx : Z) : M Z :=
  call (glEnableVertexArrayAttrib h global_attrib_idx) ;;;
  attribFormat h global_attrib_idx attribute ;;;
  call (glVertexArrayAttribBinding h global_attrib_idx (as_GLuint vertex_layout_idx)) ;;;
  pure (as_GLuint (global_attrib_idx + 1)).

(** Body of the outer loop; the locals are
    [(global_attrib_idx, vertex_layout_idx)]. *)
Definition layout_body (h : Z) (descr : VertexLayout.t) (locals : Z * Z) : M (Z * Z) :=
  let '(global_attrib_idx, vertex_layout_idx) := locals in
  call (glVertexArrayVertexBuffer h (as_GLuint vertex_layout_idx) (buffer_name descr)
          (buffer_start_offset descr) (stride descr)) ;;;
  global_attrib_idx <-
    for_each (attributes descr) (attribute_body h vertex_layout_idx) global_attrib_idx ;;
  pure (global_attrib_idx, as_size_t (vertex_layout_idx + 1)).

Definition createVertexArray (this : t) : M t :=
  o <- gl (glCreateVertexArrays 1) ;;
  let this := set_va_handle this (as_GLuint (value o)) in
  _ <- for_each (m_vertex_descriptor this) (layout_body (m_va_handle this)) (0, 0) ;;
  when (negb (m_index_buffer_name this =? 0))
       (call (glVertexArrayElementBuffer (m_va_handle this) (m_index_buffer_name this))) ;;;
  pure this.

Definition checkError (this : t) : M unit :=
  o <- gl glGetError ;;
  let err := as_GLenum (value o) in
  if negb (err =? GL_NO_ERROR) then
    throw (MeshException ("Mesh::Mesh - OpenGL error " ++ to_string err))
  else pure tt.

(** The constructor taking vertex layout descriptors. *)
Definition make (vertex_descriptor : list VertexLayout.t)
    (draw_items_count index_buffer_name index_data_type primitive_type : Z) : M t :=
  let this := mk 0 vertex_descriptor primitive_type draw_items_count
                 index_data_type index_buffer_name in
  this <- createVertexArray this ;;
  checkError this ;;;
  pure this.

Definition bind (this : t) : M unit :=
  call (glBindVertexArray (m_va_handle this)).

Definition draw (this : t) (instance_cnt : Z) : M unit :=
  call (glBindVertexArray (m_va_handle this)) ;;;
  (if negb (m_index_buffer_name this =? 0) && negb (m_draw_items_count this =? 0) then
     call (glDrawElementsInstanced (m_primitive_type this) (m_draw_items_count this)
             (m_index_type this) 0 instance_cnt)
   else
     call (glDrawArraysInstanced (m_primitive_type this) 0 (m_draw_items_count this)
             instance_cnt)) ;;;
  call (glBindVertexArray 0).

Definition getVertexLayouts (this : t) : list VertexLayout.t := m_vertex_descriptor this.
Definition getDrawItemsCount (this : t) : Z := as_GLuint (m_draw_items_count this).
Definition getIndexType (this : t) : Z := m_index_type this.
Definition getPrimitiveType (this : t) : Z := m_primitive_type this.
Definition getHandle (this : t) : Z := m_va_handle this.

End VertexArrayObject.

(** ** glm vectors and matrices, as far as the uniform setters use them *)

Module glm.

Record tvec2 : Type := mk_vec2 { x2 : Z; y2 : Z }.
Record tvec3 : Type := mk_vec3 { x3 : Z; y3 : Z; z3 : Z }.
Record tvec4 : Type := mk_vec4 { x4 : Z; y4 : Z; z4 : Z; w4 : Z }.

(** [vec*] hold [float] components (as bit patterns), [ivec*] hold [int]. *)
Definition vec2 := tvec2.
Definition vec3 := tvec3.
Definition vec4 := tvec4.
Definition ivec2 := tvec2.
Definition ivec3 := tvec3.
Definition ivec4 := tvec4.

(** Matrices are stored by columns. *)
Record mat2 : Type := mk_mat2 { m2c0 : vec2; m2c1 : vec2 }.
Record mat3 : Type := mk_mat3 { m3c0 : vec3; m3c1 : vec3; m3c2 : vec3 }.
Record mat4 : Type := mk_mat4 { m4c0 : vec4; m4c1 : vec4; m4c2 : vec4; m4c3 : vec4 }.

(** [glm::value_ptr]: the components the returned pointer leads to. *)
Definition value_ptr2 (v : tvec2) : list Z := [x2 v; y2 v].
Definition value_ptr3 (v : tvec3) : list Z := [x3 v; y3 v; z3 v].
Definition value_ptr4 (v : tvec4) : list Z := [x4 v; y4 v; z4 v; w4 v].
Definition value_ptr_mat2 (m : mat2) : list Z := value_ptr2 (m2c0 m) ++ value_ptr2 (m2c1 m).
Definition value_ptr_mat3 (m : mat3) : list Z :=
  value_ptr3 (m3c0 m) ++ value_ptr3 (m3c1 m) ++ value_ptr3 (m3c2 m).
Definition value_ptr_mat4 (m : mat4) : list Z :=
  value_ptr4 (m4c0 m) ++ value_ptr4 (m4c1 m) ++ value_ptr4 (m4c2 m) ++ value_ptr4 (m4c3 m).

End glm.

(** ** GLSLProgram *)

Module GLSLProgram.

Inductive ShaderType : Type :=
  | Vertex | TessControl | TessEvaluation | Geometry | Fragment | Compute.

Definition ShaderType_value (s : ShaderType) : Z :=
  match s with
  | Vertex => GL_VERTEX_SHADER
  | TessControl => GL_TESS_CONTROL_SHADER
  | TessEvaluation => GL_TESS_EVALUATION_SHADER
  | Geometry => GL_GEOMETRY_SHADER
  | Fragment => GL_FRAGMENT_SHADER
  | Compute => GL_COMPUTE_SHADER
  end.

Definition ShaderSourceList : Type := list (ShaderType * string).

Record t : Type := mk {
  m_handle : Z;            (* GLuint *)
  m_debug_label : string
}.

(** [source.empty()] *)
Definition empty (source : string) : bool :=
  match source with EmptyString => true | String _ _ => false end.

(** [glShaderSource(shader, 1, &c_source, NULL)] with
    [c_source = source.c_str()]: without a length array the driver reads
    the one string up to its first zero character. *)
Definition compileShaderFromString (this : t) (shaderType : ShaderType) (source : string)
    : M unit :=
  if empty source then throw (GLSLProgramException "No shader source.")
  else
    o <- gl (glCreateShader (ShaderType_value shaderType)) ;;
    let shader := as_GLuint (value o) in
    call (glShaderSource shader 1 (c_str source)) ;;;
    call (glCompileShader shader) ;;;
    o <- gl (glGetShaderiv shader GL_COMPILE_STATUS) ;;
    let compile_status := as_GLint (value o) in
    if compile_status =? GL_FALSE then
      o <- gl (glGetShaderiv shader GL_INFO_LOG_LENGTH) ;;
      let info_log_length := as_GLint (value o) in
      info_log_str <-
        (if 0 <? info_log_length then
           o <- gl (glGetShaderInfoLog shader info_log_length) ;;
           pure (read_info_log info_log_length (text o))
         else pure "") ;;
      call (glDeleteShader shader) ;;;
      throw (GLSLProgramException info_log_str)
    else
      call (glAttachShader (m_handle this) shader) ;;;
      call (glDeleteShader shader).

Definition link (this : t) : M unit :=
  call (glLinkProgram (m_handle this)) ;;;
  o <- gl (glGetProgramiv (m_handle this) GL_LINK_STATUS) ;;
  let link_status := as_GLint (value o) in
  if link_status =? GL_FALSE then
    o <- gl (glGetProgramiv (m_handle this) GL_INFO_LOG_LENGTH) ;;
    let info_log_length := as_GLint (value o) in
    info_log_str <-
      (if 0 <? info_log_length then
         o <- gl (glGetProgramInfoLog (m_handle this) info_log_length) ;;
         pure (read_info_log info_log_length (text o))
       else pure "") ;;
    throw (GLSLProgramException info_log_str)
  else pure tt.

(** The constructor: compile every shader of the list, link, and on any
    exception delete the program and rethrow. *)
Definition make (shaderList : ShaderSourceList) : M t :=
  o <- gl glCreateProgram ;;
  let this := mk (as_GLuint (value o)) "" in
  try_catch
    (for_each shaderList
       (fun shader _ => compileShaderFromString this (fst shader) (snd shader)) tt ;;;
     link this)
    (fun e => call (glDeleteProgram (m_handle this)) ;;; throw e) ;;;
  pure this.

Definition use (this : t) : M unit := call (glUseProgram (m_handle this)).

Definition getHandle (this : t) : Z := m_handle this.

(** [glGetUniformLocation] returns a [GLint]; the method returns it as a
    [GLuint]. *)
Definition getUniformLocation (this : t) (name : string) : M Z :=
  o <- gl (glGetUniformLocation (m_handle this) name) ;;
  pure (as_GLuint (as_GLint (value o))).

(** The [setUniform] overloads, named after the native call each ends in.
    The [GLuint] location is converted back to the [GLint] parameter of the
    native call. *)
Definition setUniform1f (this : t) (name : string) (v0 : GLfloat) : M unit :=
  l <- getUniformLocation this name ;; call (glUniform1f (as_GLint l) v0).
Definition setUniform2f (this : t) (name : string) (v0 v1 : GLfloat) : M unit :=
  l <- getUniformLocation this name ;; call (glUniform2f (as_GLint l) v0 v1).
Definition setUniform3f (this : t) (name : string) (v0 v1 v2 : GLfloat) : M unit :=
  l <- getUniformLocation this name ;; call (glUniform3f (as_GLint l) v0 v1 v2).
Definition setUniform4f (this : t) (name : string) (v0 v1 v2 v3 : GLfloat) : M unit :=
  l <- getUniformLocation this name ;; call (glUniform4f (as_GLint l) v0 v1 v2 v3).
Definition setUniform1i (this : t) (name : string) (v0 : Z) : M unit :=
  l <- getUniformLocation this name ;; call (glUniform1i (as_GLint l) v0).
Definition setUniform2i (this : t) (name : string) (v0 v1 : Z) : M unit :=
  l <- getUniformLocation this name ;; call (glUniform2i (as_GLint l) v0 v1).
Definition setUniform3i (this : t) (name : string) (v0 v1 v2 : Z) : M unit :=
  l <- getUniformLocation this name ;; call (glUniform3i (as_GLint l) v0 v1 v2).
Definition setUniform4i (this : t) (name : string) (v0 v1 v2 v3 : Z) : M unit :=
  l <- getUniformLocation this name ;; call (glUniform4i (as_GLint l) v0 v1 v2 v3).
Definition setUniform1ui (this : t) (name : string) (v0 : Z) : M unit :=
  l <- getUniformLocation this name ;; call (glUniform1ui (as_GLint l) v0).
Definition setUniform2ui (this : t) (name : string) (v0 v1 : Z) : M unit :=
  l <- getUniformLocation this name ;; call (glUniform2ui (as_GLint l) v0 v1).
Definition setUniform3ui (this : t) (name : string) (v0 v1 v2 : Z) : M unit :=
  l <- getUniformLocation this name ;; call (glUniform3ui (as_GLint l) v0 v1 v2).
Definition setUniform4ui (this : t) (name : string) (v0 v1 v2 v3 : Z) : M unit :=
  l <- getUniformLocation this name ;; call (glUniform4ui (as_GLint l) v0 v1 v2 v3).
Definition setUniform2fv (this : t) (name : string) (v : glm.vec2) : M unit :=
  l <- getUniformLocation this name ;; call (glUniform2fv (as_GLint l) 1 (glm.value_ptr2 v)).
Definition setUniform3fv (this : t) (name : string) (v : glm.vec3) : M unit :=
  l <- getUniformLocation this name ;; call (glUniform3fv (as_GLint l) 1 (glm.value_ptr3 v)).
Definition setUniform4fv (this : t) (name : string) (v : glm.vec4) : M unit :=
  l <- getUniformLocation this name ;; call (glUniform4fv (as_GLint l) 1 (glm.value_ptr4 v)).
Definition setUniform2iv (this : t) (name : string) (v : glm.ivec2) : M unit :=
  l <- getUniformLocation this name ;; call (glUniform2iv (as_GLint l) 1 (glm.value_ptr2 v)).
Definition setUniform3iv (this : t) (name : string) (v : glm.ivec3) : M unit :=
  l <- getUniformLocation this name ;; call (glUniform3iv (as_GLint l) 1 (glm.value_ptr3 v)).
Definition setUniform4iv (this : t) (name : string) (v : glm.ivec4) : M unit :=
  l <- getUniformLocation this name ;; call (glUniform4iv (as_GLint l) 1 (glm.value_ptr4 v)).
Definition setUniformMatrix2fv (this : t) (name : string) (m : glm.mat2) : M unit :=
  l <- getUniformLocation this name ;;
  call (glUniformMatrix2fv (as_GLint l) 1 GL_FALSE (glm.value_ptr_mat2 m)).
Definition setUniformMatrix3fv (this : t) (name : string) (m : glm.mat3) : M unit :=
  l <- getUniformLocation this name ;;
  call (glUniformMatrix3fv (as_GLint l) 1 GL_FALSE (glm.value_ptr_mat3 m)).
Definition setUniformMatrix4fv (this : t) (name : string) (m : glm.mat4) : M unit :=
  l <- getUniformLocation this name ;;
  call (glUniformMatrix4fv (as_GLint l) 1 GL_FALSE (glm.value_ptr_mat4 m)).

End GLSLProgram.

(** ** Texture.hpp and Texture2DArray *)

Module Texture.

Record TextureLayout : Type := mkTextureLayout {
  internal_format : Z;   (* GLint *)
  width : Z;             (* int *)
  height : Z;            (* int *)
  depth : Z;             (* int *)
  format : Z;            (* GLenum *)
  type : Z;              (* GLenum *)
  levels : Z;            (* GLsizei *)
  int_parameters : list (Z * Z);
  float_parameters : list (Z * GLfloat)
}.

Definition TextureLayout_wf (l : TextureLayout) : Prop :=
  is_signed 32 (internal_format l) /\ is_signed 32 (width l) /\ is_signed 32 (height l) /\
  is_signed 32 (depth l) /\ is_unsigned 32 (format l) /\ is_unsigned 32 (type l) /\
  is_signed 32 (levels l).

(** The seven-argument constructor leaves both parameter vectors empty. *)
Definition TextureLayout7 (internal_format width height depth format type levels : Z)
    : TextureLayout :=
  mkTextureLayout internal_format width height depth format type levels [] [].

(** Members of the base class [Texture]. *)
Record t : Type := mk {
  m_id : string;
  m_name : Z;             (* GLuint *)
  m_texture_handle : Z;   (* GLuint64 *)
  m_internal_format : Z;  (* GLenum *)
  m_format : Z;           (* GLenum *)
  m_type : Z;             (* GLenum *)
  m_levels : Z            (* GLsizei *)
}.

Definition getInternalFormat (this : t) : Z := m_internal_format this.
Definition getFormat (this : t) : Z := m_format this.
Definition getType (this : t) : Z := m_type this.
Definition getName (this : t) : Z := m_name this.

End Texture.

Module Texture2DArray.
Import Texture.

Record t : Type := mk {
  base : Texture.t;
  m_width : Z;    (* unsigned int *)
  m_height : Z;   (* unsigned int *)
  m_layers : Z    (* unsigned int *)
}.

Section Platform.

(** [static_cast<GLsizei>(floor(log2(0u)))] converts minus infinity to an
    integer, for which C++ defines no result; the value the platform yields
    is a parameter of the model. *)
Variable int_of_minus_infinity : Z.

(** [static_cast<GLsizei>(floor(log2(x)))] for an [unsigned int] x: the
    double-precision logarithm of a 32-bit integer has the integer part of
    the exact one. *)
Definition floor_log2 (x : Z) : Z :=
  if x =? 0 then as_GLsizei int_of_minus_infinity else Z.log2 x.

(** The level count handed to [glTexStorage3D]. *)
Definition storage_levels (layout_levels m_width m_height : Z) : Z :=
  Z.min layout_levels (as_GLsizei (1 + floor_log2 (Z.max m_width m_height))).

Definition creation_error (id : string) (err : Z) : string :=
  "GL error during array texture (id: " ++ id ++ ") creation: " ++ to_string err.

(** The constructor.  The base-class members [m_name] and
    [m_texture_handle] are not initialised by [Texture]'s constructor; the
    body gives them their first value. *)
Definition make (id : string) (layout : TextureLayout) (data : Z) (generateMipmap : bool)
    : M t :=
  let m_internal_format := as_GLenum (internal_format layout) in
  let m_format := format layout in
  let m_type := type layout in
  let m_levels := levels layout in
  let m_width := as_unsigned (width layout) in
  let m_height := as_unsigned (height layout) in
  let m_layers := as_unsigned (depth layout) in
  o <- gl (glGenTextures 1) ;;
  let m_name := as_GLuint (value o) in
  call (glBindTexture GL_TEXTURE_2D_ARRAY m_name) ;;;
  for_each (int_parameters layout)
    (fun pname_pvalue _ =>
       call (glTexParameteri GL_TEXTURE_2D_ARRAY (fst pname_pvalue) (snd pname_pvalue))) tt ;;;
  for_each (float_parameters layout)
    (fun pname_pvalue _ =>
       call (glTexParameterf GL_TEXTURE_2D_ARRAY (fst pname_pvalue) (snd pname_pvalue))) tt ;;;
  let levels := storage_levels (Texture.levels layout) m_width m_height in
  call (glTexStorage3D GL_TEXTURE_2D_ARRAY levels m_internal_format
          (as_GLsizei m_width) (as_GLsizei m_height) (as_GLsizei m_layers)) ;;;
  when (negb (data =? 0))
       (call (glTexSubImage3D GL_TEXTURE_2D_ARRAY 0 0 0 0
                (as_GLsizei m_width) (as_GLsizei m_height) (as_GLsizei m_layers)
                m_format m_type data)) ;;;
  when generateMipmap (call (glGenerateMipmap GL_TEXTURE_2D_ARRAY)) ;;;
  o <- gl (glGetTextureHandleARB m_name) ;;
  let m_texture_handle := as_GLuint64 (value o) in
  call (glBindTexture GL_TEXTURE_2D_ARRAY 0) ;;;
  o <- gl glGetError ;;
  let err := as_GLenum (value o) in
  when (negb (err =? GL_NO_ERROR)) (print_cerr (creation_error id err)) ;;;
  pure (mk (Texture.mk id m_name m_texture_handle m_internal_format m_format m_type m_levels)
           m_width m_height m_layers).

End Platform.

Definition bindTexture (this : t) : M unit :=
  call (glBindTexture GL_TEXTURE_2D_ARRAY (m_name (base this))).

Definition updateMipmaps (this : t) : M unit :=
  call (glBindTexture GL_TEXTURE_2D_ARRAY (m_name (base this))) ;;;
  call (glGenerateMipmap GL_TEXTURE_2D_ARRAY) ;;;
  call (glBindTexture GL_TEXTURE_2D_ARRAY 0).

Definition getTextureLayout (this : t) : TextureLayout :=
  TextureLayout7 (as_GLint (m_internal_format (base this)))
                 (as_int (m_width this)) (as_int (m_height this)) (as_int (m_layers this))
                 (m_format (base this)) (m_type (base this)) (m_levels (base this)).

Definition getWidth (this : t) : Z := m_width this.
Definition getHeigth (this : t) : Z := m_height this.
Definition getLayers (this : t) : Z := m_layers this.

End Texture2DArray.

(** ** ShaderStorageBufferObject

    The class declaration is not among the sources; the members are those
    the constructor initialises, [m_size] at the type [getSize] returns. *)

Module ShaderStorageBufferObject.

Record t : Type := mk {
  m_handle : Z;        (* GLuint *)
  m_size : Z;          (* GLuint *)
  m_written_size : Z
}.

Definition set_size (this : t) (size : Z) : t :=
  mk (m_handle this) size (m_written_size this).

Definition make (size data : Z) : M t :=
  o <- gl (glGenBuffers 1) ;;
  let this := mk (as_GLuint (value o)) size 0 in
  call (glBindBuffer GL_SHADER_STORAGE_BUFFER (m_handle this)) ;;;
  call (glBufferData GL_SHADER_STORAGE_BUFFER size data GL_DYNAMIC_DRAW) ;;;
  call (glBindBuffer GL_SHADER_STORAGE_BUFFER 0) ;;;
  pure this.

Definition reload_error (err : Z) : string :=
  "Error - SSBO - reload: " ++ to_string err.

Definition reload (this : t) (size index data : Z) : M t :=
  let this := set_size this size in
  call (glBindBuffer GL_SHADER_STORAGE_BUFFER (m_handle this)) ;;;
  call (glBufferData GL_SHADER_STORAGE_BUFFER size data GL_DYNAMIC_DRAW) ;;;
  call (glBindBuffer GL_SHADER_STORAGE_BUFFER 0) ;;;
  o <- gl glGetError ;;
  let err := as_GLenum (value o) in
  when (negb (err =? GL_NO_ERROR)) (print_cerr (reload_error err)) ;;;
  pure this.

Definition bind (this : t) : M unit :=
  call (glBindBuffer GL_SHADER_STORAGE_BUFFER (m_handle this)).

(** The overload [bind(GLuint index)]. *)
Definition bind_index (this : t) (index : Z) : M unit :=
  call (glBindBufferBase GL_SHADER_STORAGE_BUFFER index (m_handle this)).

Definition getSize (this : t) : Z := m_size this.

(** A client's sequence of [reload] calls, each with its
    [(size, index, data)]. *)
Definition reload_all (rs : list (Z * Z * Z)) (this : t) : M t :=
  for_each rs (fun r this => reload this (fst (fst r)) (snd (fst r)) (snd r)) this.

End ShaderStorageBufferObject.

(** ** Vocabulary of the statements *)

Module Observe.

(** The world [w] after the native calls [evs] and the printed [lines]. *)
Definition after (w : World) (evs : list (GLCall * GLOut)) (lines : list string) : World :=
  mkWorld (driver w) (trace w ++ evs) (cerr w ++ lines).

(** [m], started in [w], ends with outcome [r] after issuing the native
    calls [evs] and printing [lines], and changes nothing else. *)
Definition runs {A : Type} (m : M A) (w : World) (r : Outcome A)
    (evs : list (GLCall * GLOut)) (lines : list string) : Prop :=
  m w = (r, after w evs lines).

Definition is_error_query (c : GLCall) : bool :=
  match c with glGetError => true | _ => false end.

(** Number of [glGetError] queries among the calls. *)
Definition error_checks (evs : list (GLCall * GLOut)) : nat :=
  List.length (filter is_error_query (map fst evs)).

(** The calls [cs] issued one after the other, each with the answer the
    driver [d] gives after the [history] and the calls before it. *)
Fixpoint answers (d : Driver) (history cs : list GLCall) : list (GLCall * GLOut) :=
  match cs with
  | [] => []
  | c :: rest => (c, d history c) :: answers d (history ++ [c]) rest
  end.

Definition answers_in (w : World) (cs : list GLCall) : list (GLCall * GLOut) :=
  answers (driver w) (calls w) cs.

(** The code the driver would answer an error query with in [w]. *)
Definition error_code (w : World) : Z := as_GLenum (value (driver w (calls w) glGetError)).

(** No call among [evs] queries the error flag. *)
Definition quiet_calls (evs : list (GLCall * GLOut)) : Prop :=
  Forall (fun c => is_error_query c = false) (map fst evs).

(** Some error query was answered with a code other than [GL_NO_ERROR]. *)
Definition error_reported (evs : list (GLCall * GLOut)) : Prop :=
  exists o, In (glGetError, o) evs /\ as_GLenum (value o) <> GL_NO_ERROR.

Definition raises_MeshException {A : Type} (r : Outcome A) : Prop :=
  exists what, r = Thrown (MeshException what).

Definition raises_GLSLProgramException {A : Type} (r : Outcome A) : Prop :=
  exists what, r = Thrown (GLSLProgramException what).

(** A compile-status query that left [GL_FALSE] in [compile_status]. *)
Definition compile_failed (evs : list (GLCall * GLOut)) : Prop :=
  exists shader o,
    In (glGetShaderiv shader GL_COMPILE_STATUS, o) evs /\ as_GLint (value o) = GL_FALSE.

(** A link-status query that left [GL_FALSE] in [link_status]. *)
Definition link_failed (evs : list (GLCall * GLOut)) : Prop :=
  exists program o,
    In (glGetProgramiv program GL_LINK_STATUS, o) evs /\ as_GLint (value o) = GL_FALSE.

Definition some_source_empty (shaderList : GLSLProgram.ShaderSourceList) : Prop :=
  Exists (fun shader => snd shader = "") shaderList.

(** The level arguments of the [glTexStorage3D] calls among [cs]. *)
Definition storage_levels_passed (cs : list GLCall) : list Z :=
  flat_map (fun c => match c with
                     | glTexStorage3D _ levels _ _ _ _ => [levels]
                     | _ => []
                     end) cs.

(** A driver that hands out the name 5 for a new vertex array and answers
    every other call with zero: no error, every status [GL_FALSE]. *)
Definition quiet : Driver :=
  fun _ c => match c with
             | glCreateVertexArrays _ => mkOut 5 ""
             | _ => mkOut 0 ""
             end.

(** A driver on which compiling and linking succeed and error queries
    answer [GL_NO_ERROR]; new objects are named 1. *)
Definition healthy : Driver :=
  fun _ c => match c with
             | glGetError => mkOut 0 ""
             | _ => mkOut 1 ""
             end.

(** A driver whose error flag is always [GL_OUT_OF_MEMORY]. *)
Definition failing : Driver :=
  fun _ c => match c with
             | glGetError => mkOut 0x0505 ""
             | _ => mkOut 1 ""
             end.

Definition start (d : Driver) : World := mkWorld d [] [].

End Observe.

(** ** The call sequence of vertex-array construction, in the words of the
    specification *)

Module ConstructionSequence.
Import VertexLayout.

Definition shader_input_types : list Z := [GL_FLOAT; GL_INT; GL_UNSIGNED_INT; GL_DOUBLE].

Definition valid_input (a : Attribute) : Prop :=
  In (shader_input_type a) shader_input_types.

Definition all_valid (descr : list VertexLayout.t) : Prop :=
  Forall (fun l => Forall valid_input (attributes l)) descr.

Definition some_invalid (descr : list VertexLayout.t) : Prop :=
  Exists (fun l => Exists (fun a => ~ valid_input a) (attributes l)) descr.

Definition attribute_count (descr : list VertexLayout.t) : Z :=
  fold_right (fun l n => Z.of_nat (List.length (attributes l)) + n) 0 descr.

(** The format call selected by the shader input type: float format for
    GL_FLOAT, integer format for GL_INT or GL_UNSIGNED_INT, long format for
    GL_DOUBLE; none is named for any other type. *)
Definition format_call (h idx : Z) (a : Attribute) : list GLCall :=
  let s := shader_input_type a in
  if s =? GL_FLOAT then
    [glVertexArrayAttribFormat h idx (size a) (type a) (normalized a) (as_GLuint (offset a))]
  else if (s =? GL_INT) || (s =? GL_UNSIGNED_INT) then
    [glVertexArrayAttribIFormat h idx (size a) (type a) (as_GLuint (offset a))]
  else if s =? GL_DOUBLE then
    [glVertexArrayAttribLFormat h idx (size a) (type a) (as_GLuint (offset a))]
  else [].

(** Per attribute: enable, format, binding to index [j]; attribute indices
    count up from [idx]. *)
Fixpoint attribute_calls (h j idx : Z) (attrs : list Attribute) : list GLCall :=
  match attrs with
  | [] => []
  | a :: rest =>
      glEnableVertexArrayAttrib h idx :: format_call h idx a ++
      glVertexArrayAttribBinding h idx j :: attribute_calls h j (idx + 1) rest
  end.

(** Per layout [j], in input order: the vertex-buffer bind at binding index
    [j], then the calls of its attributes. *)
Fixpoint layout_calls (h j idx : Z) (descr : list VertexLayout.t) : list GLCall :=
  match descr with
  | [] => []
  | l :: rest =>
      glVertexArrayVertexBuffer h j (buffer_name l) (buffer_start_offset l) (stride l) ::
      attribute_calls h j idx (attributes l) ++
      layout_calls h (j + 1) (idx + Z.of_nat (List.length (attributes l))) rest
  end.

(** The element-buffer bind, present if and only if [index_buffer_name]
    is non-zero. *)
Definition element_buffer_call (h index_buffer_name : Z) : list GLCall :=
  if index_buffer_name =? 0 then []
  else [glVertexArrayElementBuffer h index_buffer_name].

Definition construction_calls (h : Z) (descr : list VertexLayout.t) (index_buffer_name : Z)
    : list GLCall :=
  glCreateVertexArrays 1 :: layout_calls h 0 0 descr ++
  element_buffer_call h index_buffer_name.

(** The name the driver gives the vertex array created in [w]. *)
Definition new_vertex_array (w : World) : Z :=
  as_GLuint (value (driver w (calls w) (glCreateVertexArrays 1))).

(** C1 as the specification words it, for the object under construction. *)
Definition issues_construction_calls (this : VertexArrayObject.t) (w : World) : Prop :=
  map fst (issued (VertexArrayObject.createVertexArray this) w) =
  construction_calls (new_vertex_array w)
    (VertexArrayObject.m_vertex_descriptor this)
    (VertexArrayObject.m_index_buffer_name this).

(** [bad] is the first attribute of the descriptor with a shader input
    type outside the four: it stands in layout [l], after the layouts
    [before] and after the attributes [pre] of [l], all of which have
    valid types. *)
Definition first_invalid (descr before : list VertexLayout.t) (l : VertexLayout.t)
    (pre : list Attribute) (bad : Attribute) : Prop :=
  exists rest post,
    descr = before ++ l :: rest /\ attributes l = pre ++ bad :: post /\
    all_valid before /\ Forall valid_input pre /\ ~ valid_input bad.

(** The sequence cut after the enable call of the first invalid attribute:
    the create call, the calls of the layouts [before], the vertex-buffer
    bind of [l], the calls of the attributes [pre], and the enable call at
    the index of the invalid attribute. *)
Definition truncated_calls (h : Z) (before : list VertexLayout.t) (l : VertexLayout.t)
    (pre : list Attribute) : list GLCall :=
  let j := Z.of_nat (List.length before) in
  glCreateVertexArrays 1 :: layout_calls h 0 0 before ++
  glVertexArrayVertexBuffer h j (buffer_name l) (buffer_start_offset l) (stride l) ::
  attribute_calls h j (attribute_count before) pre ++
  [glEnableVertexArrayAttrib h (attribute_count before + Z.of_nat (List.length pre))].

End ConstructionSequence.

(** ** The same sequence with the indices as the code computes them:
    [global_attrib_idx] is a [GLuint] and [vertex_layout_idx] a
    [std::size_t] cast to [GLuint] at each use. *)

Module IssuedSequence.
Import VertexLayout ConstructionSequence.

Fixpoint next_attrib_idx (idx : Z) (attrs : list Attribute) : Z :=
  match attrs with
  | [] => idx
  | _ :: rest => next_attrib_idx (as_GLuint (idx + 1)) rest
  end.

Fixpoint attribute_calls_u32 (h j idx : Z) (attrs : list Attribute) : list GLCall :=
  match attrs with
  | [] => []
  | a :: rest =>
      glEnableVertexArrayAttrib h idx :: format_call h idx a ++
      glVertexArrayAttribBinding h idx (as_GLuint j) ::
      attribute_calls_u32 h j (as_GLuint (idx + 1)) rest
  end.

Fixpoint layout_calls_u32 (h j idx : Z) (descr : list VertexLayout.t) : list GLCall :=
  match descr with
  | [] => []
  | l :: rest =>
      glVertexArrayVertexBuffer h (as_GLuint j) (buffer_name l) (buffer_start_offset l)
        (stride l) ::
      attribute_calls_u32 h j idx (attributes l) ++
      layout_calls_u32 h (as_size_t (j + 1)) (next_attrib_idx idx (attributes l)) rest
  end.

Fixpoint last_indices (j idx : Z) (descr : list VertexLayout.t) : Z * Z :=
  match descr with
  | [] => (idx, j)
  | l :: rest => last_indices (as_size_t (j + 1)) (next_attrib_idx idx (attributes l)) rest
  end.

(** What [checkError] and the constructor end with for the error code
    [err]. *)
Definition checkError_outcome (err : Z) : Outcome unit :=
  if err =? GL_NO_ERROR then Returned tt
  else Thrown (MeshException ("Mesh::Mesh - OpenGL error " ++ to_string err)).

Definition make_outcome (this : VertexArrayObject.t) (err : Z) : Outcome VertexArrayObject.t :=
  if err =? GL_NO_ERROR then Returned this
  else Thrown (MeshException ("Mesh::Mesh - OpenGL error " ++ to_string err)).

Definition valid_inputb (a : Attribute) : bool :=
  let s := shader_input_type a in
  (s =? GL_FLOAT) || (s =? GL_INT) || (s =? GL_UNSIGNED_INT) || (s =? GL_DOUBLE).

End IssuedSequence.

(** ** The call sequences of texture creation and buffer reload *)

Module TextureSequence.
Import Texture.

(** The name the driver gives the texture generated in [w]. *)
Definition new_texture (w : World) : Z :=
  as_GLuint (value (driver w (calls w) (glGenTextures 1))).

Definition int_parameter_calls (ps : list (Z * Z)) : list GLCall :=
  map (fun p => glTexParameteri GL_TEXTURE_2D_ARRAY (fst p) (snd p)) ps.

Definition float_parameter_calls (ps : list (Z * GLfloat)) : list GLCall :=
  map (fun p => glTexParameterf GL_TEXTURE_2D_ARRAY (fst p) (snd p)) ps.

(** The calls of the constructor before its error query, for the level
    count [lv], the internal format [fmt] and the extents [w], [h], [d]
    handed to the driver. *)
Definition creation_calls (name lv fmt w h d : Z) (layout : TextureLayout) (data : Z)
    (generateMipmap : bool) : list GLCall :=
  [glGenTextures 1; glBindTexture GL_TEXTURE_2D_ARRAY name] ++
  int_parameter_calls (int_parameters layout) ++
  float_parameter_calls (float_parameters layout) ++
  [glTexStorage3D GL_TEXTURE_2D_ARRAY lv fmt w h d] ++
  (if data =? 0 then []
   else [glTexSubImage3D GL_TEXTURE_2D_ARRAY 0 0 0 0 w h d (format layout) (type layout) data]) ++
  (if generateMipmap then [glGenerateMipmap GL_TEXTURE_2D_ARRAY] else []) ++
  [glGetTextureHandleARB name; glBindTexture GL_TEXTURE_2D_ARRAY 0].

(** The same with the arguments as the constructor computes them from its
    members. *)
Definition creation_calls_of_members (p name : Z) (layout : TextureLayout) (data : Z)
    (generateMipmap : bool) : list GLCall :=
  creation_calls name
    (Texture2DArray.storage_levels p (levels layout)
       (as_unsigned (width layout)) (as_unsigned (height layout)))
    (as_GLenum (internal_format layout))
    (as_GLsizei (as_unsigned (width layout)))
    (as_GLsizei (as_unsigned (height layout)))
    (as_GLsizei (as_unsigned (depth layout)))
    layout data generateMipmap.

(** The object the constructor builds for the driver's [name] and
    [handle]. *)
Definition made (id : string) (name handle : Z) (layout : TextureLayout) : Texture2DArray.t :=
  Texture2DArray.mk
    (Texture.mk id name handle (as_GLenum (internal_format layout)) (format layout)
       (type layout) (levels layout))
    (as_unsigned (width layout)) (as_unsigned (height layout)) (as_unsigned (depth layout)).

(** What is printed for the error code [err]. *)
Definition report (line : string) (err : Z) : list string :=
  if err =? GL_NO_ERROR then [] else [line].

(** The level count of a texture whose larger extent is not zero. *)
Definition clamped_levels (layout : TextureLayout) : Z :=
  Z.min (levels layout)
        (1 + Z.log2 (Z.max (as_unsigned (width layout)) (as_unsigned (height layout)))).

(** C6 as the specification words it: the storage call receives the
    layout's [levels]. *)
Definition forwards_levels (p : Z) (id : string) (layout : TextureLayout) (data : Z)
    (generateMipmap : bool) (w : World) : Prop :=
  Observe.storage_levels_passed
    (map fst (issued (Texture2DArray.make p id layout data generateMipmap) w)) =
  [levels layout].

(** The calls of [ShaderStorageBufferObject::reload] before its error
    query. *)
Definition reload_calls (handle size data : Z) : list GLCall :=
  [glBindBuffer GL_SHADER_STORAGE_BUFFER handle;
   glBufferData GL_SHADER_STORAGE_BUFFER size data GL_DYNAMIC_DRAW;
   glBindBuffer GL_SHADER_STORAGE_BUFFER 0].

(** The name the driver gives the buffer generated in [w]. *)
Definition new_buffer (w : World) : Z :=
  as_GLuint (value (driver w (calls w) (glGenBuffers 1))).

(** The sizes a sequence of [reload] arguments asks for. *)
Definition sizes (rs : list (Z * Z * Z)) : list Z := map (fun r => fst (fst r)) rs.

End TextureSequence.

(** ** Error checking, in the words of the specification *)

Module ErrorChecks.
Import Observe.

(** The error code is queried exactly once. *)
Definition checked_once {A : Type} (m : M A) (w : World) : Prop :=
  error_checks (issued m w) = 1%nat.

(** The error query is the last native call, nothing queried the error
    flag before it, and its answer is [code]. *)
Definition checked_last {A : Type} (m : M A) (w : World) (code : Z) : Prop :=
  exists pre o,
    issued m w = pre ++ [(glGetError, o)] /\ quiet_calls pre /\ as_GLenum (value o) = code.

(** C2 as the specification words it for the vertex array: the constructor
    throws a MeshException if and only if the native error query returns a
    non-success code. *)
Definition raises_iff_error_reported (descr : list VertexLayout.t)
    (cnt ibn idt prim : Z) (w : World) : Prop :=
  raises_MeshException (fst (VertexArrayObject.make descr cnt ibn idt prim w)) <->
  error_reported (issued (VertexArrayObject.make descr cnt ibn idt prim) w).

End ErrorChecks.


(** ** Shader program construction *)

Module ProgramSequence.

(** A compile-status query on a shader or a link-status query on a
    program. *)
Definition is_status_query (c : GLCall) : bool :=
  match c with
  | glGetShaderiv _ pname => pname =? GL_COMPILE_STATUS
  | glGetProgramiv _ pname => pname =? GL_LINK_STATUS
  | _ => false
  end.

(** A status query answered with [GL_FALSE]. *)
Definition is_failure (e : GLCall * GLOut) : bool :=
  is_status_query (fst e) && (as_GLint (value (snd e)) =? GL_FALSE).

(** No status query among [evs] failed. *)
Definition clean (evs : list (GLCall * GLOut)) : Prop :=
  Forall (fun e => is_failure e = false) evs.

(** [evs] ends in the failed compilation of [shader]: its compile-status
    query answered [GL_FALSE], then the log queries, then its deletion. *)
Definition compile_abort (evs : list (GLCall * GLOut)) (shader : Z) : Prop :=
  exists pre o mid o',
    evs = pre ++ (glGetShaderiv shader GL_COMPILE_STATUS, o) :: mid ++
                 [(glDeleteShader shader, o')] /\
    as_GLint (value o) = GL_FALSE /\ clean pre /\ clean mid.

(** [evs] ends in a failed link of [program]: its link-status query
    answered [GL_FALSE], then the log queries. *)
Definition link_abort (evs : list (GLCall * GLOut)) (program : Z) : Prop :=
  exists pre o mid,
    evs = pre ++ (glGetProgramiv program GL_LINK_STATUS, o) :: mid /\
    as_GLint (value o) = GL_FALSE /\ clean pre /\ clean mid.

(** The name the driver gives the program created in [w]. *)
Definition new_program (w : World) : Z :=
  as_GLuint (value (driver w (calls w) glCreateProgram)).

(** The loop of the constructor over the shader list. *)
Definition compile_all (this : GLSLProgram.t) (shaderList : GLSLProgram.ShaderSourceList)
    : M unit :=
  for_each shaderList
    (fun shader (_ : unit) =>
       GLSLProgram.compileShaderFromString this (fst shader) (snd shader)) tt.

(** The events of [compileShaderFromString] up to its status query.  The
    shader is the name the create call was answered with, and the source
    goes out as a C string. *)
Definition compile_prefix (type : Z) (source : string) (o1 o2 o3 o4 : GLOut)
    : list (GLCall * GLOut) :=
  let shader := as_GLuint (value o1) in
  [(glCreateShader type, o1); (glShaderSource shader 1 (c_str source), o2);
   (glCompileShader shader, o3); (glGetShaderiv shader GL_COMPILE_STATUS, o4)].

(** Reading an info log: the length query, and the text query only if the
    length it was answered with is positive, with a buffer of exactly that
    length.  The string read back from the buffer is the first argument;
    it is empty when the text was not asked for. *)
Inductive log_events (length_query : GLCall) (text_query : Z -> GLCall)
  : string -> list (GLCall * GLOut) -> Prop :=
  | log_not_read (o : GLOut) :
      as_GLint (value o) <= 0 ->
      log_events length_query text_query "" [(length_query, o)]
  | log_read (o o' : GLOut) :
      0 < as_GLint (value o) ->
      log_events length_query text_query
        (read_info_log (as_GLint (value o)) (text o'))
        [(length_query, o); (text_query (as_GLint (value o)), o')].

(** The three ways [compileShaderFromString] ends, for the program
    [program], each with its events: nothing for an empty source; for a
    status other than [GL_FALSE], attach and delete; for [GL_FALSE], the
    log, the deletion of the shader, and the log as the message. *)
Inductive compile_shape (program type : Z) (source : string)
  : Outcome unit -> list (GLCall * GLOut) -> Prop :=
  | compile_no_source :
      source = "" ->
      compile_shape program type source
        (Thrown (GLSLProgramException "No shader source.")) []
  | compile_attached (o1 o2 o3 o4 o5 o6 : GLOut) :
      source <> "" ->
      as_GLint (value o4) <> GL_FALSE ->
      compile_shape program type source (Returned tt)
        (compile_prefix type source o1 o2 o3 o4 ++
         [(glAttachShader program (as_GLuint (value o1)), o5);
          (glDeleteShader (as_GLuint (value o1)), o6)])
  | compile_rejected (o1 o2 o3 o4 o7 : GLOut) (what : string)
      (log : list (GLCall * GLOut)) :
      source <> "" ->
      as_GLint (value o4) = GL_FALSE ->
      log_events (glGetShaderiv (as_GLuint (value o1)) GL_INFO_LOG_LENGTH)
                 (glGetShaderInfoLog (as_GLuint (value o1))) what log ->
      compile_shape program type source (Thrown (GLSLProgramException what))
        (compile_prefix type source o1 o2 o3 o4 ++ log ++
         [(glDeleteShader (as_GLuint (value o1)), o7)]).

(** The two ways [link] ends. *)
Inductive link_shape (program : Z) : Outcome unit -> list (GLCall * GLOut) -> Prop :=
  | link_done (o1 o2 : GLOut) :
      as_GLint (value o2) <> GL_FALSE ->
      link_shape program (Returned tt)
        [(glLinkProgram program, o1); (glGetProgramiv program GL_LINK_STATUS, o2)]
  | link_rejected (o1 o2 : GLOut) (what : string) (log : list (GLCall * GLOut)) :
      as_GLint (value o2) = GL_FALSE ->
      log_events (glGetProgramiv program GL_INFO_LOG_LENGTH)
                 (glGetProgramInfoLog program) what log ->
      link_shape program (Thrown (GLSLProgramException what))
        ([(glLinkProgram program, o1); (glGetProgramiv program GL_LINK_STATUS, o2)] ++ log).

(** The loop over the shader list: the entries are compiled in order, and
    the loop stops at the first one that throws. *)
Inductive compiled_until (program : Z)
  : GLSLProgram.ShaderSourceList -> Outcome unit -> list (GLCall * GLOut) -> Prop :=
  | compiled_all : compiled_until program [] (Returned tt) []
  | compiled_next entry rest r e1 evs :
      compile_shape program (GLSLProgram.ShaderType_value (fst entry)) (snd entry)
        (Returned tt) e1 ->
      compiled_until program rest r evs ->
      compiled_until program (entry :: rest) r (e1 ++ evs)
  | compiled_stop entry rest e e1 :
      compile_shape program (GLSLProgram.ShaderType_value (fst entry)) (snd entry)
        (Thrown e) e1 ->
      compiled_until program (entry :: rest) (Thrown e) e1.

(** What the constructor does after creating [program]: all shaders
    compile and the program links; or a shader throws, and the program is
    deleted; or the link throws, and the program is deleted. *)
Inductive construction_shape (program : Z) (shaderList : GLSLProgram.ShaderSourceList)
  : Outcome GLSLProgram.t -> list (GLCall * GLOut) -> Prop :=
  | constructed shaders linking :
      compiled_until program shaderList (Returned tt) shaders ->
      link_shape program (Returned tt) linking ->
      construction_shape program shaderList (Returned (GLSLProgram.mk program ""))
        (shaders ++ linking)
  | compile_aborted e shaders o :
      compiled_until program shaderList (Thrown e) shaders ->
      construction_shape program shaderList (Thrown e)
        (shaders ++ [(glDeleteProgram program, o)])
  | link_aborted e shaders linking o :
      compiled_until program shaderList (Returned tt) shaders ->
      link_shape program (Thrown e) linking ->
      construction_shape program shaderList (Thrown e)
        (shaders ++ linking ++ [(glDeleteProgram program, o)]).

(** Every event carries the answer the driver of [w] gives after the
    history of [w] and the calls before it. *)
Definition answered (w : World) (evs : list (GLCall * GLOut)) : Prop :=
  evs = Observe.answers_in w (map fst evs).

(** A driver that accepts every shader and links every program. *)
Definition compiling : Driver :=
  fun history c =>
    match c with
    | glCreateProgram => mkOut 9 ""
    | glCreateShader _ => mkOut (10 + Z.of_nat (List.length history)) ""
    | glGetShaderiv _ _ => mkOut 1 ""
    | glGetProgramiv _ _ => mkOut 1 ""
    | _ => mkOut 0 ""
    end.

(** A driver that rejects every fragment shader with a log of 12 bytes,
    and accepts the others. *)
Definition rejecting_fragment : Driver :=
  fun history c =>
    match c with
    | glCreateProgram => mkOut 9 ""
    | glCreateShader type => mkOut (if type =? GL_FRAGMENT_SHADER then 20 else 10) ""
    | glGetShaderiv shader pname =>
        if pname =? GL_COMPILE_STATUS then mkOut (if shader =? 20 then 0 else 1) ""
        else mkOut 12 ""
    | glGetShaderInfoLog _ _ => mkOut 0 "syntax error"
    | glGetProgramiv _ _ => mkOut 1 ""
    | _ => mkOut 0 ""
    end.

Definition vertex_and_fragment : GLSLProgram.ShaderSourceList :=
  [(GLSLProgram.Vertex, "void main(){}"); (GLSLProgram.Fragment, "void main(){")].

End ProgramSequence.

(** ** Forwarding methods, in the words of the specification *)

Module Forwarding.

(** C5 as the specification words it: the method issues exactly one native
    call. *)
Definition single_forwarding_call {A : Type} (m : M A) (w : World) : Prop :=
  exists c, map fst (issued m w) = [c].

(** The location lookup every [setUniform] overload starts with. *)
Definition lookup (prog : GLSLProgram.t) (name : string) : GLCall :=
  glGetUniformLocation (GLSLProgram.m_handle prog) name.

(** The location the driver resolves [name] to in [w]. *)
Definition uniform_location (prog : GLSLProgram.t) (name : string) (w : World) : Z :=
  as_GLint (value (driver w (calls w) (lookup prog name))).

(** The draw call [draw] chooses. *)
Definition draw_call (vao : VertexArrayObject.t) (instance_cnt : Z) : GLCall :=
  if negb (VertexArrayObject.m_index_buffer_name vao =? 0) &&
     negb (VertexArrayObject.m_draw_items_count vao =? 0)
  then glDrawElementsInstanced (VertexArrayObject.m_primitive_type vao)
         (VertexArrayObject.m_draw_items_count vao) (VertexArrayObject.m_index_type vao)
         0 instance_cnt
  else glDrawArraysInstanced (VertexArrayObject.m_primitive_type vao) 0
         (VertexArrayObject.m_draw_items_count vao) instance_cnt.

End Forwarding.

(** ** Sample inputs *)

Module Samples.
Import VertexLayout Observe.

(** Positions and normals as floats in one buffer, an integer id in a
    second one, a double in a third. *)
Definition three_buffers : list VertexLayout.t :=
  [mkVertexLayout 24 0 3 [mkAttribute 3 GL_FLOAT 0 0 GL_FLOAT;
                          mkAttribute 3 GL_FLOAT 0 12 GL_FLOAT];
   mkVertexLayout 4 0 4 [mkAttribute 1 GL_UNSIGNED_INT 0 0 GL_UNSIGNED_INT];
   mkVertexLayout 8 16 6 [mkAttribute 1 GL_DOUBLE 0 0 GL_DOUBLE]].

(** A colour attribute whose shader input type repeats the data type
    [GL_UNSIGNED_BYTE], followed by a valid attribute. *)
Definition byte_colour : list VertexLayout.t :=
  [mkVertexLayout 16 0 3 [mkAttribute 4 GL_UNSIGNED_BYTE 1 0 GL_UNSIGNED_BYTE;
                          mkAttribute 3 GL_FLOAT 0 4 GL_FLOAT]].

(** Three buffers again, but the second attribute of the second layout
    has the shader input type [GL_UNSIGNED_BYTE]. *)
Definition late_byte_colour : list VertexLayout.t :=
  [mkVertexLayout 24 0 3 [mkAttribute 3 GL_FLOAT 0 0 GL_FLOAT;
                          mkAttribute 3 GL_FLOAT 0 12 GL_FLOAT];
   mkVertexLayout 16 0 4 [mkAttribute 1 GL_UNSIGNED_INT 0 0 GL_UNSIGNED_INT;
                          mkAttribute 4 GL_UNSIGNED_BYTE 1 4 GL_UNSIGNED_BYTE;
                          mkAttribute 2 GL_FLOAT 0 8 GL_FLOAT];
   mkVertexLayout 8 16 6 [mkAttribute 1 GL_DOUBLE 0 0 GL_DOUBLE]].

(** An RGBA8 array texture of 4 by 4 texels in 2 layers for which 10
    mipmap levels are asked. *)
Definition small_array : Texture.TextureLayout :=
  Texture.TextureLayout7 0x8058 4 4 2 0x1908 GL_UNSIGNED_BYTE 10.

(** A 256 by 128 array texture with 3 levels and two parameters. *)
Definition large_array : Texture.TextureLayout :=
  Texture.mkTextureLayout 0x8058 256 128 6 0x1908 GL_UNSIGNED_BYTE 3
    [(0x2801, 0x2601); (0x2800, 0x2601)] [(0x84FE, 0x40800000)].

(** An indexed mesh of 36 indices behind vertex array 5. *)
Definition indexed_mesh : VertexArrayObject.t :=
  VertexArrayObject.mk 5 three_buffers GL_TRIANGLES 36 GL_UNSIGNED_INT 7.

(** The result of converting minus infinity to [int] on x86-64. *)
Definition int_min : Z := - 2 ^ 31.

End Samples.

(** ** Lifetimes: construction by default, destruction, swap and move *)

Module VertexArrayLifetime.
Import VertexArrayObject.

(** [VertexArrayObject()]: handle 0 and the default member initialisers. *)
Definition default : t := mk 0 [] 0 0 0 0.

(** [~VertexArrayObject()] *)
Definition destroy (this : t) : M unit :=
  call (glDeleteVertexArrays 1 (m_va_handle this)).

Definition set_vertex_descriptor (this : t) (d : list VertexLayout.t) : t :=
  mk (m_va_handle this) d (m_primitive_type this)
     (m_draw_items_count this) (m_index_type this) (m_index_buffer_name this).
Definition set_primitive_type (this : t) (x : Z) : t :=
  mk (m_va_handle this) (m_vertex_descriptor this) x
     (m_draw_items_count this) (m_index_type this) (m_index_buffer_name this).
Definition set_draw_items_count (this : t) (x : Z) : t :=
  mk (m_va_handle this) (m_vertex_descriptor this) (m_primitive_type this)
     x (m_index_type this) (m_index_buffer_name this).
Definition set_index_type (this : t) (x : Z) : t :=
  mk (m_va_handle this) (m_vertex_descriptor this) (m_primitive_type this)
     (m_draw_items_count this) x (m_index_buffer_name this).
Definition set_index_buffer_name (this : t) (x : Z) : t :=
  mk (m_va_handle this) (m_vertex_descriptor this) (m_primitive_type this)
     (m_draw_items_count this) (m_index_type this) x.

(** [glowl_swap_member(MEMBER)]: [std::swap(this->MEMBER, other.MEMBER)],
    for a member read by [get] and written by [set]; the pair is
    [(this, other)]. *)
Definition swap_member {X : Type} (get : t -> X) (set : t -> X -> t) (both : t * t) : t * t :=
  let '(this, other) := both in
  (set this (get other), set other (get this)).

(** [swap(VertexArrayObject& other)]: the six members in the order of the
    source. *)
Definition swap (this other : t) : t * t :=
  let both := (this, other) in
  let both := swap_member m_va_handle set_va_handle both in
  let both := swap_member m_vertex_descriptor set_vertex_descriptor both in
  let both := swap_member m_primitive_type set_primitive_type both in
  let both := swap_member m_draw_items_count set_draw_items_count both in
  let both := swap_member m_index_type set_index_type both in
  swap_member m_index_buffer_name set_index_buffer_name both.

(** [VertexArrayObject(VertexArrayObject&& other) { swap(other); }]: the
    new object starts from the default member initialisers; the result is
    the new object and what is left in [other]. *)
Definition move_construct (other : t) : t * t := swap default other.

(** [operator=(VertexArrayObject&& other) { swap(other); return *this; }] *)
Definition move_assign (this other : t) : t * t := swap this other.

(** The calls that delete a vertex array other than 0. *)
Definition is_live_delete (c : GLCall) : bool :=
  match c with
  | glDeleteVertexArrays _ array => negb (array =? 0)
  | _ => false
  end.

(** Construct, and if that returns draw once with [instance_cnt]. *)
Definition make_and_draw (descr : list VertexLayout.t)
    (cnt ibn idt prim instance_cnt : Z) : M unit :=
  this <- make descr cnt ibn idt prim ;;
  draw this instance_cnt.

(** Construct, move into a second object, destroy the moved-from object,
    draw with the second object and destroy it. *)
Definition make_move_draw_destroy (descr : list VertexLayout.t)
    (cnt ibn idt prim instance_cnt : Z) : M unit :=
  first <- make descr cnt ibn idt prim ;;
  let '(second, first) := move_construct first in
  destroy first ;;;
  draw second instance_cnt ;;;
  destroy second.

End VertexArrayLifetime.

Module ProgramLifetime.
Import GLSLProgram.

(** [~GLSLProgram()] *)
Definition destroy (this : t) : M unit := call (glDeleteProgram (m_handle this)).

Definition bindAttribLocation (this : t) (location : Z) (name : string) : M unit :=
  call (glBindAttribLocation (m_handle this) location name).

Definition bindFragDataLocation (this : t) (location : Z) (name : string) : M unit :=
  call (glBindFragDataLocation (m_handle this) location name).

(** What client code can ask of a constructed program: the public methods
    that issue native calls, with their arguments. *)
Inductive Request : Type :=
  | Use
  | BindAttribLocation (location : Z) (name : string)
  | BindFragDataLocation (location : Z) (name : string)
  | GetUniformLocation (name : string)
  | SetUniform1f (name : string) (v0 : GLfloat)
  | SetUniform2f (name : string) (v0 v1 : GLfloat)
  | SetUniform3f (name : string) (v0 v1 v2 : GLfloat)
  | SetUniform4f (name : string) (v0 v1 v2 v3 : GLfloat)
  | SetUniform1i (name : string) (v0 : Z)
  | SetUniform2i (name : string) (v0 v1 : Z)
  | SetUniform3i (name : string) (v0 v1 v2 : Z)
  | SetUniform4i (name : string) (v0 v1 v2 v3 : Z)
  | SetUniform1ui (name : string) (v0 : Z)
  | SetUniform2ui (name : string) (v0 v1 : Z)
  | SetUniform3ui (name : string) (v0 v1 v2 : Z)
  | SetUniform4ui (name : string) (v0 v1 v2 v3 : Z)
  | SetUniformVec2 (name : string) (v : glm.vec2)
  | SetUniformVec3 (name : string) (v : glm.vec3)
  | SetUniformVec4 (name : string) (v : glm.vec4)
  | SetUniformIVec2 (name : string) (v : glm.ivec2)
  | SetUniformIVec3 (name : string) (v : glm.ivec3)
  | SetUniformIVec4 (name : string) (v : glm.ivec4)
  | SetUniformMat2 (name : string) (m : glm.mat2)
  | SetUniformMat3 (name : string) (m : glm.mat3)
  | SetUniformMat4 (name : string) (m : glm.mat4).

Definition serve (this : t) (q : Request) : M unit :=
  match q with
  | Use => use this
  | BindAttribLocation location name => bindAttribLocation this location name
  | BindFragDataLocation location name => bindFragDataLocation this location name
  | GetUniformLocation name => _ <- getUniformLocation this name ;; pure tt
  | SetUniform1f name v0 => setUniform1f this name v0
  | SetUniform2f name v0 v1 => setUniform2f this name v0 v1
  | SetUniform3f name v0 v1 v2 => setUniform3f this name v0 v1 v2
  | SetUniform4f name v0 v1 v2 v3 => setUniform4f this name v0 v1 v2 v3
  | SetUniform1i name v0 => setUniform1i this name v0
  | SetUniform2i name v0 v1 => setUniform2i this name v0 v1
  | SetUniform3i name v0 v1 v2 => setUniform3i this name v0 v1 v2
  | SetUniform4i name v0 v1 v2 v3 => setUniform4i this name v0 v1 v2 v3
  | SetUniform1ui name v0 => setUniform1ui this name v0
  | SetUniform2ui name v0 v1 => setUniform2ui this name v0 v1
  | SetUniform3ui name v0 v1 v2 => setUniform3ui this name v0 v1 v2
  | SetUniform4ui name v0 v1 v2 v3 => setUniform4ui this name v0 v1 v2 v3
  | SetUniformVec2 name v => setUniform2fv this name v
  | SetUniformVec3 name v => setUniform3fv this name v
  | SetUniformVec4 name v => setUniform4fv this name v
  | SetUniformIVec2 name v => setUniform2iv this name v
  | SetUniformIVec3 name v => setUniform3iv this name v
  | SetUniformIVec4 name v => setUniform4iv this name v
  | SetUniformMat2 name m => setUniformMatrix2fv this name m
  | SetUniformMat3 name m => setUniformMatrix3fv this name m
  | SetUniformMat4 name m => setUniformMatrix4fv this name m
  end.

(** A client's sequence of requests to one program. *)
Definition serve_all (this : t) (qs : list Request) : M unit :=
  for_each qs (fun q (_ : unit) => serve this q) tt.

(** A program object in a scope: constructed, used by the client, and
    destroyed when the scope ends; if the constructor throws there is no
    object and no destructor runs. *)
Definition scoped (shaderList : ShaderSourceList) (qs : list Request) : M unit :=
  this <- make shaderList ;;
  serve_all this qs ;;;
  destroy this.

(** The calls a constructed program makes on its own behalf: uploads, and
    calls whose program argument is [h]. *)
Definition of_program (h : Z) (c : GLCall) : bool :=
  match c with
  | glUseProgram p | glBindAttribLocation p _ _ | glBindFragDataLocation p _ _
  | glGetUniformLocation p _ => p =? h
  | glUniform1f _ _ | glUniform2f _ _ _ | glUniform3f _ _ _ _ | glUniform4f _ _ _ _ _
  | glUniform1i _ _ | glUniform2i _ _ _ | glUniform3i _ _ _ _ | glUniform4i _ _ _ _ _
  | glUniform1ui _ _ | glUniform2ui _ _ _ | glUniform3ui _ _ _ _ | glUniform4ui _ _ _ _ _
  | glUniform2fv _ _ _ | glUniform3fv _ _ _ | glUniform4fv _ _ _
  | glUniform2iv _ _ _ | glUniform3iv _ _ _ | glUniform4iv _ _ _
  | glUniformMatrix2fv _ _ _ _ | glUniformMatrix3fv _ _ _ _ | glUniformMatrix4fv _ _ _ _ => true
  | _ => false
  end.

Definition count (p : GLCall -> bool) (cs : list GLCall) : nat :=
  List.length (filter p cs).

Definition is_create_shader (c : GLCall) : bool :=
  match c with glCreateShader _ => true | _ => false end.
Definition is_delete_shader (c : GLCall) : bool :=
  match c with glDeleteShader _ => true | _ => false end.
Definition is_attach_shader (c : GLCall) : bool :=
  match c with glAttachShader _ _ => true | _ => false end.
Definition is_link (c : GLCall) : bool :=
  match c with glLinkProgram _ => true | _ => false end.
Definition is_create_program (c : GLCall) : bool :=
  match c with glCreateProgram => true | _ => false end.
Definition is_delete_program (c : GLCall) : bool :=
  match c with glDeleteProgram _ => true | _ => false end.

End ProgramLifetime.

(** ** The calls of shader compilation and linking *)

Module ProgramCalls.
Import GLSLProgram.

(** How many shaders were created, deleted and attached, and how many
    program creations, links and deletions there were, among [cs]. *)
Record Census : Type := mkCensus {
  created : nat; deleted : nat; attached : nat;
  programs : nat; links : nat; program_deletions : nat
}.

Definition census (cs : list GLCall) : Census :=
  mkCensus (ProgramLifetime.count ProgramLifetime.is_create_shader cs)
           (ProgramLifetime.count ProgramLifetime.is_delete_shader cs)
           (ProgramLifetime.count ProgramLifetime.is_attach_shader cs)
           (ProgramLifetime.count ProgramLifetime.is_create_program cs)
           (ProgramLifetime.count ProgramLifetime.is_link cs)
           (ProgramLifetime.count ProgramLifetime.is_delete_program cs).

Definition plus (a b : Census) : Census :=
  mkCensus (created a + created b) (deleted a + deleted b) (attached a + attached b)
           (programs a + programs b) (links a + links b)
           (program_deletions a + program_deletions b).

(** Every shader the events create, they delete by its name. *)
Definition deletes_created (evs : list (GLCall * GLOut)) : Prop :=
  forall type o,
    In (glCreateShader type, o) evs ->
    In (glDeleteShader (as_GLuint (value o))) (map fst evs).

End ProgramCalls.

(** ** Buffers and textures: destruction and the remaining methods *)

Module BufferLifetime.
Import ShaderStorageBufferObject.

(** [~ShaderStorageBufferObject()] *)
Definition destroy (this : t) : M unit := call (glDeleteBuffers 1 (m_handle this)).

(** A buffer object in a scope: constructed, reloaded any number of
    times, destroyed. *)
Definition scoped (size data : Z) (rs : list (Z * Z * Z)) : M unit :=
  this <- make size data ;;
  this <- reload_all rs this ;;
  destroy this.

(** The calls of the reloads [rs] on the buffer [h]: each uploads and then
    queries the error code. *)
Definition reloads_calls (h : Z) (rs : list (Z * Z * Z)) : list GLCall :=
  flat_map (fun r => TextureSequence.reload_calls h (fst (fst r)) (snd r) ++ [glGetError]) rs.

(** The size arguments of the [glBufferData] calls among [cs]. *)
Definition uploaded_sizes (cs : list GLCall) : list Z :=
  flat_map (fun c => match c with glBufferData _ size _ _ => [size] | _ => [] end) cs.

End BufferLifetime.

Module TextureLifetime.
Import Texture.

(** [TextureLayout()] *)
Definition TextureLayout0 : TextureLayout := mkTextureLayout 0 0 0 0 0 0 0 [] [].

(** [~Texture()], which also ends a [Texture2DArray] *)
Definition destroy (this : Texture2DArray.t) : M unit :=
  call (glDeleteTextures 1 (m_name (Texture2DArray.base this))).

Definition getId (this : Texture.t) : string := m_id this.
Definition getTextureHandle (this : Texture.t) : Z := m_texture_handle this.

(** The texture argument of the last [glBindTexture] on the 2D-array
    target among [cs]: what is left bound there. *)
Definition left_bound (cs : list GLCall) : option Z :=
  fold_left (fun b c => match c with
                        | glBindTexture target texture =>
                            if target =? GL_TEXTURE_2D_ARRAY then Some texture else b
                        | _ => b
                        end) cs None.

(** A texture array in a scope: constructed, its mipmaps updated, then
    destroyed. *)
Definition scoped (p : Z) (id : string) (layout : TextureLayout) (data : Z)
    (generateMipmap : bool) : M unit :=
  this <- Texture2DArray.make p id layout data generateMipmap ;;
  Texture2DArray.updateMipmaps this ;;;
  destroy this.

End TextureLifetime.

(** ** Texture2D (texture2D.h)

    Only the header is among the sources; of the class it declares, the
    member template [texParameteri] has a body.  The base class it names
    ([texture.h]) is not among the sources: the member [m_handle] is taken
    as the texture name it holds. *)

Module Texture2D.

Definition GL_TEXTURE_2D : Z := 0x0DE1.

Record t : Type := mk { m_handle : Z (* the texture name *) }.

(** [texParameteri(const Container& pname_param_pairs)] *)
Definition texParameteri (this : t) (pname_param_pairs : list (Z * Z)) : M unit :=
  call (glBindTexture GL_TEXTURE_2D (m_handle this)) ;;;
  for_each pname_param_pairs
    (fun pname_param (_ : unit) =>
       call (glTexParameteri GL_TEXTURE_2D (fst pname_param) (snd pname_param))) tt ;;;
  call (glBindTexture GL_TEXTURE_2D 0).

Definition parameter_calls (ps : list (Z * Z)) : list GLCall :=
  map (fun p => glTexParameteri GL_TEXTURE_2D (fst p) (snd p)) ps.

Definition is_parameter (c : GLCall) : bool :=
  match c with glTexParameteri _ _ _ => true | _ => false end.

End Texture2D.

(** ** The footprint of vertex-array construction *)

Module ConstructionFootprint.

(** The native calls [createVertexArray] is written with. *)
Definition is_construction_call (c : GLCall) : bool :=
  match c with
  | glCreateVertexArrays _ | glVertexArrayVertexBuffer _ _ _ _ _
  | glEnableVertexArrayAttrib _ _ | glVertexArrayAttribFormat _ _ _ _ _ _
  | glVertexArrayAttribIFormat _ _ _ _ _ | glVertexArrayAttribLFormat _ _ _ _ _
  | glVertexArrayAttribBinding _ _ _ | glVertexArrayElementBuffer _ _ => true
  | _ => false
  end.

(** Events whose calls are all construction calls. *)
Definition footprint (evs : list (GLCall * GLOut)) : Prop :=
  Forall (fun c => is_construction_call c = true) (map fst evs).

Definition is_delete_vertex_array (c : GLCall) : bool :=
  match c with glDeleteVertexArrays _ _ => true | _ => false end.

(** How many calls construction takes for a descriptor with valid shader
    input types. *)
Definition construction_call_count (descr : list VertexLayout.t) (index_buffer_name : Z) : Z :=
  1 + Z.of_nat (List.length descr) + 3 * ConstructionSequence.attribute_count descr +
  (if index_buffer_name =? 0 then 0 else 1).

End ConstructionFootprint.

(** * Properties *)

Section CTypes_facts.

Lemma to_unsigned_range bits x : 0 <= bits -> is_unsigned bits (to_unsigned bits x).
Proof.
  intros Hb. unfold is_unsigned, to_unsigned.
  apply Z.mod_pos_bound. apply Z.pow_pos_nonneg; lia.
Qed.

Lemma to_unsigned_id bits x : is_unsigned bits x -> to_unsigned bits x = x.
Proof. intros H. unfold to_unsigned. apply Z.mod_small. exact H. Qed.

Lemma to_signed_to_unsigned bits x :
  0 < bits -> is_signed bits x -> to_signed bits (to_unsigned bits x) = x.
Proof.
  intros Hb [Hlo Hhi]. unfold to_signed, to_unsigned.
  assert (Hp : 2 ^ bits = 2 * 2 ^ (bits - 1)).
  { replace bits with (Z.succ (bits - 1)) at 1 by lia. apply Z.pow_succ_r. lia. }
  assert (Hq : 0 < 2 ^ (bits - 1)) by (apply Z.pow_pos_nonneg; lia).
  rewrite Z.mod_mod by lia.
  destruct (Z_lt_le_dec x 0) as [Hneg | Hpos].
  - assert (Hm : x mod 2 ^ bits = x + 2 ^ bits).
    { symmetry. apply Z.mod_unique with (q := -1); lia. }
    rewrite Hm. destruct (Z.ltb_spec (x + 2 ^ bits) (2 ^ (bits - 1))); lia.
  - rewrite Z.mod_small by lia.
    destruct (Z.ltb_spec x (2 ^ (bits - 1))); lia.
Qed.

Lemma to_unsigned_to_signed bits x :
  0 < bits -> is_unsigned bits x -> to_unsigned bits (to_signed bits x) = x.
Proof.
  intros Hb [Hlo Hhi]. unfold to_signed, to_unsigned.
  assert (Hq : 0 < 2 ^ bits) by (apply Z.pow_pos_nonneg; lia).
  rewrite (Z.mod_small x) by lia.
  destruct (Z.ltb_spec x (2 ^ (bits - 1))).
  - apply Z.mod_small; lia.
  - symmetry. apply Z.mod_unique with (q := -1); lia.
Qed.

End CTypes_facts.

Module VertexLayoutFacts.
Import VertexLayout.

Lemma Attribute_eq_true lhs rhs :
  Attribute_eq lhs rhs = true <->
  size lhs = size rhs /\ type lhs = type rhs /\ normalized lhs = normalized rhs /\
  offset lhs = offset rhs /\ shader_input_type lhs = shader_input_type rhs.
Proof.
  unfold Attribute_eq. rewrite !andb_true_iff, !Z.eqb_eq. tauto.
Qed.

End VertexLayoutFacts.

Module VertexLayoutProofs.
Import VertexLayout VertexLayoutFacts.

Lemma loop_from (la ra : list Attribute) :
  forall len start rtn,
    (start + len <= List.length la)%nat ->
    (start + len <= List.length ra)%nat ->
    fold_left
      (fun acc i =>
         match acc with
         | Some s' =>
             match nth_error la i, nth_error ra i with
             | Some l, Some r => Some (s' && Attribute_eq l r)
             | _, _ => None
             end
         | None => None
         end) (seq start len) (Some rtn)
    = Some (rtn && forallb (eq_at la ra) (seq start len)).
Proof.
  induction len as [| len IH]; intros start rtn Hl Hr; simpl.
  - now rewrite andb_true_r.
  - destruct (nth_error la start) as [l |] eqn:El.
    2: { apply nth_error_None in El. lia. }
    destruct (nth_error ra start) as [r |] eqn:Er.
    2: { apply nth_error_None in Er. lia. }
    rewrite IH by lia. unfold eq_at at 2. rewrite El, Er.
    now rewrite andb_assoc.
Qed.

Lemma all_eq_at (la ra : list Attribute) :
  List.length la = List.length ra ->
  (forallb (eq_at la ra) (seq 0 (List.length la)) = true <->
   forall i l r, nth_error la i = Some l -> nth_error ra i = Some r -> agree l r).
Proof.
  intros Hlen. rewrite forallb_forall. split.
  - intros H i l r El Er.
    assert (Hi : (i < List.length la)%nat) by (apply nth_error_Some; congruence).
    specialize (H i). unfold eq_at in H. rewrite El, Er in H.
    apply (proj1 (Attribute_eq_true l r)). apply H. apply in_seq. lia.
  - intros H i Hi. apply in_seq in Hi. unfold eq_at.
    destruct (nth_error la i) as [l |] eqn:El.
    2: { apply nth_error_None in El. lia. }
    destruct (nth_error ra i) as [r |] eqn:Er.
    2: { apply nth_error_None in Er. lia. }
    apply (proj2 (Attribute_eq_true l r)). exact (H i l r El Er).
Qed.

Lemma VertexLayout_eq_value (lhs rhs : t) :
  VertexLayout_eq lhs rhs =
  Some ((stride lhs =? stride rhs) &&
        (List.length (attributes lhs) =? List.length (attributes rhs))%nat &&
        forallb (eq_at (attributes lhs) (attributes rhs))
                (seq 0 (List.length (attributes lhs)))).
Proof.
  unfold VertexLayout_eq, for_index.
  destruct (Nat.eqb_spec (List.length (attributes lhs)) (List.length (attributes rhs))) as [E | E].
  - rewrite loop_from by lia. simpl. now rewrite andb_true_r.
  - now rewrite andb_false_r.
Qed.

(** C9: [operator==] on two vertex layouts always yields a result, which is
    true exactly when the strides are equal, the attribute vectors have the
    same length and the attributes agree pairwise on size, type,
    normalized, offset and shader_input_type; replacing buffer_name and
    buffer_start_offset on either side never changes the result. *)
Theorem VertexLayout_eq_spec (lhs rhs : t) :
  exists b : bool,
    VertexLayout_eq lhs rhs = Some b /\
    (b = true <->
       stride lhs = stride rhs /\
       List.length (attributes lhs) = List.length (attributes rhs) /\
       forall i l r,
         nth_error (attributes lhs) i = Some l ->
         nth_error (attributes rhs) i = Some r -> agree l r) /\
    forall name start name' start',
      VertexLayout_eq (with_buffer lhs name start) (with_buffer rhs name' start') = Some b.
Proof.
  eexists. split; [apply VertexLayout_eq_value |]. split.
  - rewrite !andb_true_iff, Z.eqb_eq, Nat.eqb_eq. split.
    + intros [[Hs Hl] Hall]. split; [exact Hs | split; [exact Hl |]].
      apply (proj1 (all_eq_at _ _ Hl)), Hall.
    + intros (Hs & Hl & Hall). split; [split; [exact Hs | exact Hl] |].
      apply (proj2 (all_eq_at _ _ Hl)), Hall.
  - intros. now rewrite VertexLayout_eq_value.
Qed.

(** Two layouts over different buffers at different offsets compare equal. *)
Example VertexLayout_eq_other_buffer :
  VertexLayout_eq
    (mkVertexLayout 12 0 3 [mkAttribute 3 GL_FLOAT 0 0 GL_FLOAT])
    (mkVertexLayout 12 64 9 [mkAttribute 3 GL_FLOAT 0 0 GL_FLOAT]) = Some true.
Proof. reflexivity. Qed.

Lemma computeByteSize_unrecognized (v : Z) :
  ~ In v recognized_types -> computeByteSize v = 0.
Proof.
  intros H. unfold computeByteSize.
  repeat match goal with
         | |- context [?a =? ?b] =>
             destruct (Z.eqb_spec a b) as [-> | _];
             [exfalso; apply H; unfold recognized_types; simpl; tauto |]
         end.
  reflexivity.
Qed.

Lemma computeByteSize_range (v : Z) : 0 <= computeByteSize v <= 8.
Proof.
  unfold computeByteSize.
  repeat match goal with
         | |- context [?a =? ?b] => destruct (a =? b)
         end; lia.
Qed.

(** C8: the byte-size table of [computeByteSize], its zero default, and
    [computeAttributeByteSize] as the product of the type's byte size and
    the component count (a [std::size_t] product: it is the mathematical
    product reduced modulo 2^64, and the mathematical product itself for a
    non-negative count), zero for an unrecognized type. *)
Theorem computeByteSize_spec (v : Z) (a : Attribute) :
  (computeByteSize GL_BYTE = 1 /\ computeByteSize GL_UNSIGNED_BYTE = 1) /\
  (computeByteSize GL_SHORT = 2 /\ computeByteSize GL_UNSIGNED_SHORT = 2 /\
   computeByteSize GL_HALF_FLOAT = 2) /\
  (computeByteSize GL_INT = 4 /\ computeByteSize GL_UNSIGNED_INT = 4 /\
   computeByteSize GL_FIXED = 4 /\ computeByteSize GL_FLOAT = 4 /\
   computeByteSize GL_INT_2_10_10_10_REV = 4 /\
   computeByteSize GL_UNSIGNED_INT_2_10_10_10_REV = 4 /\
   computeByteSize GL_UNSIGNED_INT_10F_11F_11F_REV = 4) /\
  computeByteSize GL_DOUBLE = 8 /\
  (~ In v recognized_types -> computeByteSize v = 0) /\
  computeAttributeByteSize a = (computeByteSize (type a) * size a) mod 2 ^ 64 /\
  (0 <= size a < 2 ^ 31 ->
   computeAttributeByteSize a = computeByteSize (type a) * size a) /\
  (~ In (type a) recognized_types -> computeAttributeByteSize a = 0).
Proof.
  assert (Hmod : computeAttributeByteSize a = (computeByteSize (type a) * size a) mod 2 ^ 64).
  { unfold computeAttributeByteSize, as_size_t, to_unsigned.
    now rewrite Z.mul_mod_idemp_r by lia. }
  repeat split; try reflexivity.
  - apply computeByteSize_unrecognized.
  - exact Hmod.
  - intros Hs. rewrite Hmod. apply Z.mod_small.
    pose proof (computeByteSize_range (type a)). nia.
  - intros Hu. rewrite Hmod, (computeByteSize_unrecognized _ Hu). reflexivity.
Qed.

Lemma computeByteSize_spec_witness :
  computeAttributeByteSize (mkAttribute 3 GL_FLOAT 0 0 GL_FLOAT) = 12 /\
  computeAttributeByteSize (mkAttribute 3 0 0 0 GL_FLOAT) = 0 /\
  computeByteSize 7 = 0.
Proof.
  pose proof (computeByteSize_spec 7 (mkAttribute 3 GL_FLOAT 0 0 GL_FLOAT))
    as (_ & _ & _ & _ & Hv & _ & Hp & _).
  pose proof (computeByteSize_spec 7 (mkAttribute 3 0 0 0 GL_FLOAT))
    as (_ & _ & _ & _ & _ & _ & _ & Hu).
  split; [| split].
  - rewrite Hp; [reflexivity | simpl; lia].
  - apply Hu. unfold recognized_types, In. simpl.
    intros H. repeat (destruct H as [H | H]; [discriminate H |]). exact H.
  - apply Hv. unfold recognized_types, In.
    intros H. repeat (destruct H as [H | H]; [discriminate H |]). exact H.
Defined.

End VertexLayoutProofs.

Module RunFacts.
Import Observe.

Lemma after_nil w : after w [] [] = w.
Proof. destruct w. unfold after. simpl. now rewrite !app_nil_r. Qed.

Lemma after_after w e1 l1 e2 l2 :
  after (after w e1 l1) e2 l2 = after w (e1 ++ e2) (l1 ++ l2).
Proof. unfold after. simpl. now rewrite !app_assoc. Qed.

Lemma calls_after w evs lines : calls (after w evs lines) = calls w ++ map fst evs.
Proof. unfold calls, after. simpl. apply map_app. Qed.

Lemma runs_pure {A} (a : A) w : runs (pure a) w (Returned a) [] [].
Proof. unfold runs, pure. now rewrite after_nil. Qed.

Lemma runs_throw {A} e w : runs (@throw A e) w (Thrown e) [] [].
Proof. unfold runs, throw. now rewrite after_nil. Qed.

Lemma runs_gl c w :
  runs (gl c) w (Returned (driver w (calls w) c)) [(c, driver w (calls w) c)] [].
Proof. unfold runs, gl, after. now rewrite app_nil_r. Qed.

Lemma runs_print line w : runs (print_cerr line) w (Returned tt) [] [line].
Proof. unfold runs, print_cerr, after. now rewrite app_nil_r. Qed.

Lemma runs_bind {A B} (m : M A) (k : A -> M B) w a r e1 l1 e2 l2 :
  runs m w (Returned a) e1 l1 ->
  runs (k a) (after w e1 l1) r e2 l2 ->
  runs (bind m k) w r (e1 ++ e2) (l1 ++ l2).
Proof.
  unfold runs, bind. intros -> ->. now rewrite after_after.
Qed.

Lemma runs_bind_thrown {A B} (m : M A) (k : A -> M B) w e e1 l1 :
  runs m w (Thrown e) e1 l1 -> runs (bind m k) w (Thrown e) e1 l1.
Proof. unfold runs, bind. now intros ->. Qed.

Lemma runs_call c w : runs (call c) w (Returned tt) [(c, driver w (calls w) c)] [].
Proof.
  unfold call. apply (runs_bind _ _ _ _ _ _ _ _ _ (runs_gl c w)). apply runs_pure.
Qed.

Lemma runs_catch_returned {A} (m : M A) h w a evs lines :
  runs m w (Returned a) evs lines -> runs (try_catch m h) w (Returned a) evs lines.
Proof. unfold runs, try_catch. now intros ->. Qed.

Lemma runs_catch_thrown {A} (m : M A) h w e r e1 l1 e2 l2 :
  runs m w (Thrown e) e1 l1 ->
  runs (h e) (after w e1 l1) r e2 l2 ->
  runs (try_catch m h) w r (e1 ++ e2) (l1 ++ l2).
Proof. unfold runs, try_catch. intros -> ->. now rewrite after_after. Qed.

Lemma skipn_own_length {A} (l x : list A) : skipn (List.length l) (l ++ x) = x.
Proof. induction l; simpl; auto. Qed.

Lemma runs_outcome {A} (m : M A) w r evs lines :
  runs m w r evs lines -> fst (m w) = r.
Proof. unfold runs. now intros ->. Qed.

Lemma runs_issued {A} (m : M A) w r evs lines :
  runs m w r evs lines -> issued m w = evs.
Proof. unfold runs, issued. intros ->. simpl. apply skipn_own_length. Qed.

Lemma runs_printed {A} (m : M A) w r evs lines :
  runs m w r evs lines -> printed m w = lines.
Proof. unfold runs, printed. intros ->. simpl. apply skipn_own_length. Qed.

(** A sequence step whose continuation is still to be run. *)
Lemma runs_seq {A B} (m : M A) (k : A -> M B) w a r e1 l1 e2 l2 evs lines :
  runs m w (Returned a) e1 l1 ->
  runs (k a) (after w e1 l1) r e2 l2 ->
  evs = e1 ++ e2 -> lines = l1 ++ l2 ->
  runs (bind m k) w r evs lines.
Proof. intros H1 H2 -> ->. eapply runs_bind; eassumption. Qed.

End RunFacts.

Module VertexArrayFacts.
Import VertexLayout Observe RunFacts ConstructionSequence IssuedSequence.
Import VertexArrayObject.

Lemma valid_inputb_spec (a : Attribute) : valid_inputb a = true <-> valid_input a.
Proof.
  unfold valid_inputb, valid_input, shader_input_types. simpl.
  rewrite !orb_true_iff, !Z.eqb_eq. intuition congruence.
Qed.

Lemma valid_input_dec (a : Attribute) : {valid_input a} + {~ valid_input a}.
Proof.
  destruct (valid_inputb a) eqn:E.
  - left. now apply valid_inputb_spec.
  - right. intros H. apply valid_inputb_spec in H. congruence.
Qed.

Lemma attribFormat_valid h idx a :
  valid_input a ->
  exists c, format_call h idx a = [c] /\
            forall w, runs (attribFormat h idx a) w (Returned tt)
                           [(c, driver w (calls w) c)] [].
Proof.
  intros Hv. apply valid_inputb_spec in Hv.
  unfold valid_inputb in Hv. unfold attribFormat, format_call.
  destruct (shader_input_type a =? GL_FLOAT).
  { eexists. split; [reflexivity | intros; apply runs_call]. }
  destruct (shader_input_type a =? GL_INT).
  { eexists. split; [reflexivity | intros; apply runs_call]. }
  destruct (shader_input_type a =? GL_UNSIGNED_INT).
  { eexists. split; [reflexivity | intros; apply runs_call]. }
  destruct (shader_input_type a =? GL_DOUBLE).
  { eexists. split; [reflexivity | intros; apply runs_call]. }
  discriminate Hv.
Qed.

Lemma attribFormat_invalid h idx a w :
  ~ valid_input a ->
  runs (attribFormat h idx a) w (Thrown (MeshException invalid_input_type)) [] [].
Proof.
  intros Hv. assert (E : valid_inputb a = false).
  { destruct (valid_inputb a) eqn:E; auto. now apply valid_inputb_spec in E. }
  unfold valid_inputb in E. unfold attribFormat.
  destruct (shader_input_type a =? GL_FLOAT); [discriminate E |].
  destruct (shader_input_type a =? GL_INT); [discriminate E |].
  destruct (shader_input_type a =? GL_UNSIGNED_INT); [discriminate E |].
  destruct (shader_input_type a =? GL_DOUBLE); [discriminate E |].
  apply runs_throw.
Qed.

Lemma attribute_body_valid h j a idx w :
  valid_input a ->
  exists evs,
    runs (attribute_body h j a idx) w (Returned (as_GLuint (idx + 1))) evs [] /\
    map fst evs = glEnableVertexArrayAttrib h idx :: format_call h idx a ++
                  [glVertexArrayAttribBinding h idx (as_GLuint j)].
Proof.
  intros Hv. destruct (attribFormat_valid h idx a Hv) as (c & Hc & Hr).
  eexists. split.
  - unfold attribute_body.
    eapply runs_seq; [apply runs_call | | reflexivity | reflexivity].
    eapply runs_seq; [apply Hr | | reflexivity | reflexivity].
    eapply runs_seq; [apply runs_call | apply runs_pure | reflexivity | reflexivity].
  - rewrite Hc. reflexivity.
Qed.

Lemma attribute_body_invalid h j a idx w :
  ~ valid_input a ->
  runs (attribute_body h j a idx) w (Thrown (MeshException invalid_input_type))
       [(glEnableVertexArrayAttrib h idx,
         driver w (calls w) (glEnableVertexArrayAttrib h idx))] [].
Proof.
  intros Hv. unfold attribute_body.
  eapply runs_seq; [apply runs_call | | symmetry; apply app_nil_r | reflexivity].
  apply runs_bind_thrown. now apply attribFormat_invalid.
Qed.

(** The inner loop over valid attributes. *)
Lemma attribute_loop_valid h j attrs :
  Forall valid_input attrs ->
  forall idx w,
  exists evs,
    runs (for_each attrs (attribute_body h j) idx) w
         (Returned (next_attrib_idx idx attrs)) evs [] /\
    map fst evs = attribute_calls_u32 h j idx attrs.
Proof.
  induction 1 as [| a rest Ha _ IH]; intros idx w; simpl.
  - exists []. split; [apply runs_pure | reflexivity].
  - destruct (attribute_body_valid h j a idx w Ha) as (e1 & R1 & C1).
    destruct (IH (as_GLuint (idx + 1)) (after w e1 [])) as (e2 & R2 & C2).
    exists (e1 ++ e2). split.
    + eapply runs_seq; [exact R1 | exact R2 | reflexivity | reflexivity].
    + rewrite map_app, C1, C2. simpl. now rewrite <- app_assoc.
Qed.

Lemma format_call_quiet h idx a :
  Forall (fun c => is_error_query c = false) (format_call h idx a).
Proof.
  unfold format_call.
  repeat match goal with |- context [if ?b then _ else _] => destruct b end;
    repeat constructor.
Qed.

Lemma attribute_calls_quiet h j attrs :
  forall idx, Forall (fun c => is_error_query c = false) (attribute_calls_u32 h j idx attrs).
Proof.
  induction attrs as [| a rest IH]; intros idx; simpl.
  - constructor.
  - constructor; [reflexivity |]. apply Forall_app. split.
    + apply format_call_quiet.
    + constructor; [reflexivity | apply IH].
Qed.

Lemma layout_calls_quiet h descr :
  forall j idx, Forall (fun c => is_error_query c = false) (layout_calls_u32 h j idx descr).
Proof.
  induction descr as [| l rest IH]; intros j idx; simpl.
  - constructor.
  - constructor; [reflexivity |]. apply Forall_app. split.
    + apply attribute_calls_quiet.
    + apply IH.
Qed.

(** The inner loop stops at the first attribute of an invalid type. *)
Lemma attribute_loop_invalid h j attrs :
  Exists (fun a => ~ valid_input a) attrs ->
  forall idx w,
  exists evs,
    runs (for_each attrs (attribute_body h j) idx) w
         (Thrown (MeshException invalid_input_type)) evs [] /\
    quiet_calls evs.
Proof.
  induction attrs as [| a rest IH]; intros Hex idx w.
  - inversion Hex.
  - simpl. destruct (valid_input_dec a) as [Ha | Ha].
    + assert (Hrest : Exists (fun a => ~ valid_input a) rest).
      { inversion Hex; subst; [contradiction | assumption]. }
      destruct (attribute_body_valid h j a idx w Ha) as (e1 & R1 & C1).
      destruct (IH Hrest (as_GLuint (idx + 1)) (after w e1 [])) as (e2 & R2 & Q2).
      exists (e1 ++ e2). split.
      * eapply runs_seq; [exact R1 | exact R2 | reflexivity | reflexivity].
      * unfold quiet_calls in *. rewrite map_app, C1. apply Forall_app. split; [| exact Q2].
        constructor; [reflexivity |]. apply Forall_app. split.
        -- apply format_call_quiet.
        -- repeat constructor.
    + eexists. split.
      * apply runs_bind_thrown. now apply attribute_body_invalid.
      * repeat constructor.
Qed.

Lemma layout_body_valid h l gidx lidx w :
  Forall valid_input (attributes l) ->
  exists evs,
    runs (layout_body h l (gidx, lidx)) w
         (Returned (next_attrib_idx gidx (attributes l), as_size_t (lidx + 1))) evs [] /\
    map fst evs =
      glVertexArrayVertexBuffer h (as_GLuint lidx) (buffer_name l) (buffer_start_offset l)
        (stride l) :: attribute_calls_u32 h lidx gidx (attributes l).
Proof.
  intros Hv. unfold layout_body.
  destruct (attribute_loop_valid h lidx (attributes l) Hv gidx
              (after w [(glVertexArrayVertexBuffer h (as_GLuint lidx) (buffer_name l)
                           (buffer_start_offset l) (stride l),
                         driver w (calls w)
                           (glVertexArrayVertexBuffer h (as_GLuint lidx) (buffer_name l)
                              (buffer_start_offset l) (stride l)))] []))
    as (e2 & R2 & C2).
  eexists. split.
  - eapply runs_seq; [apply runs_call | | reflexivity | reflexivity].
    eapply runs_seq; [exact R2 | apply runs_pure | reflexivity | reflexivity].
  - simpl. rewrite app_nil_r. now rewrite C2.
Qed.

Lemma layout_body_invalid h l gidx lidx w :
  Exists (fun a => ~ valid_input a) (attributes l) ->
  exists evs,
    runs (layout_body h l (gidx, lidx)) w
         (Thrown (MeshException invalid_input_type)) evs [] /\
    quiet_calls evs.
Proof.
  intros Hv. unfold layout_body.
  destruct (attribute_loop_invalid h lidx (attributes l) Hv gidx
              (after w [(glVertexArrayVertexBuffer h (as_GLuint lidx) (buffer_name l)
                           (buffer_start_offset l) (stride l),
                         driver w (calls w)
                           (glVertexArrayVertexBuffer h (as_GLuint lidx) (buffer_name l)
                              (buffer_start_offset l) (stride l)))] []))
    as (e2 & R2 & Q2).
  eexists. split.
  - eapply runs_seq; [apply runs_call | | reflexivity | reflexivity].
    apply runs_bind_thrown. exact R2.
  - unfold quiet_calls in *. simpl. constructor; [reflexivity | exact Q2].
Qed.

(** The outer loop over layouts whose attributes are all valid. *)
Lemma layout_loop_valid h descr :
  all_valid descr ->
  forall gidx lidx w,
  exists evs,
    runs (for_each descr (layout_body h) (gidx, lidx)) w
         (Returned (last_indices lidx gidx descr)) evs [] /\
    map fst evs = layout_calls_u32 h lidx gidx descr.
Proof.
  induction 1 as [| l rest Hl _ IH]; intros gidx lidx w; simpl.
  - exists []. split; [apply runs_pure | reflexivity].
  - destruct (layout_body_valid h l gidx lidx w Hl) as (e1 & R1 & C1).
    destruct (IH (next_attrib_idx gidx (attributes l)) (as_size_t (lidx + 1)) (after w e1 []))
      as (e2 & R2 & C2).
    exists (e1 ++ e2). split.
    + eapply runs_seq; [exact R1 | exact R2 | reflexivity | reflexivity].
    + rewrite map_app, C1, C2. reflexivity.
Qed.

Lemma all_valid_dec (l : VertexLayout.t) :
  {Forall valid_input (attributes l)} + {Exists (fun a => ~ valid_input a) (attributes l)}.
Proof.
  induction (attributes l) as [| a rest IH].
  - left. constructor.
  - destruct (valid_input_dec a) as [Ha | Ha].
    + destruct IH as [IH | IH]; [left; now constructor | right; now apply Exists_cons_tl].
    + right. now apply Exists_cons_hd.
Qed.

(** The outer loop stops in the first layout with an invalid attribute. *)
Lemma layout_loop_invalid h descr :
  some_invalid descr ->
  forall gidx lidx w,
  exists evs,
    runs (for_each descr (layout_body h) (gidx, lidx)) w
         (Thrown (MeshException invalid_input_type)) evs [] /\
    quiet_calls evs.
Proof.
  induction descr as [| l rest IH]; intros Hex gidx lidx w.
  - inversion Hex.
  - simpl. destruct (all_valid_dec l) as [Hl | Hl].
    + assert (Hrest : some_invalid rest).
      { inversion Hex as [? ? Hbad | ]; subst; [| assumption].
        exfalso. apply Exists_exists in Hbad. destruct Hbad as (a & Hin & Hna).
        rewrite Forall_forall in Hl. auto. }
      destruct (layout_body_valid h l gidx lidx w Hl) as (e1 & R1 & C1).
      destruct (IH Hrest (next_attrib_idx gidx (attributes l)) (as_size_t (lidx + 1))
                  (after w e1 [])) as (e2 & R2 & Q2).
      exists (e1 ++ e2). split.
      * eapply runs_seq; [exact R1 | exact R2 | reflexivity | reflexivity].
      * unfold quiet_calls in *. rewrite map_app, C1. apply Forall_app. split; [| exact Q2].
        constructor; [reflexivity | apply attribute_calls_quiet].
    + destruct (layout_body_invalid h l gidx lidx w Hl) as (e1 & R1 & Q1).
      exists e1. split; [| exact Q1]. apply runs_bind_thrown. exact R1.
Qed.

End VertexArrayFacts.

Module VertexArrayRuns.
Import VertexLayout Observe RunFacts ConstructionSequence IssuedSequence VertexArrayFacts.
Import VertexArrayObject.

Lemma element_buffer_runs h ibn w :
  exists evs,
    runs (when (negb (ibn =? 0)) (call (glVertexArrayElementBuffer h ibn))) w
         (Returned tt) evs [] /\
    map fst evs = element_buffer_call h ibn.
Proof.
  unfold element_buffer_call. destruct (ibn =? 0); simpl.
  - exists []. split; [apply runs_pure | reflexivity].
  - eexists. split; [apply runs_call | reflexivity].
Qed.

Lemma createVertexArray_valid this w :
  all_valid (m_vertex_descriptor this) ->
  exists evs,
    runs (createVertexArray this) w
         (Returned (set_va_handle this (new_vertex_array w))) evs [] /\
    map fst evs =
      glCreateVertexArrays 1 ::
      layout_calls_u32 (new_vertex_array w) 0 0 (m_vertex_descriptor this) ++
      element_buffer_call (new_vertex_array w) (m_index_buffer_name this).
Proof.
  intros Hv. unfold createVertexArray. fold (new_vertex_array w).
  set (h := new_vertex_array w).
  set (w1 := after w [(glCreateVertexArrays 1, driver w (calls w) (glCreateVertexArrays 1))] []).
  destruct (layout_loop_valid h _ Hv 0 0 w1) as (e2 & R2 & C2).
  destruct (element_buffer_runs h (m_index_buffer_name this) (after w1 e2 []))
    as (e3 & R3 & C3).
  eexists. split.
  - eapply runs_seq; [apply runs_gl | | reflexivity | reflexivity].
    eapply runs_seq; [exact R2 | | reflexivity | reflexivity].
    eapply runs_seq; [exact R3 | apply runs_pure | reflexivity | reflexivity].
  - simpl. rewrite map_app, map_app, C2, C3. simpl. now rewrite app_nil_r.
Qed.

Lemma createVertexArray_invalid this w :
  some_invalid (m_vertex_descriptor this) ->
  exists evs,
    runs (createVertexArray this) w (Thrown (MeshException invalid_input_type)) evs [] /\
    quiet_calls evs.
Proof.
  intros Hv. unfold createVertexArray. fold (new_vertex_array w).
  set (h := new_vertex_array w).
  set (w1 := after w [(glCreateVertexArrays 1, driver w (calls w) (glCreateVertexArrays 1))] []).
  destruct (layout_loop_invalid h _ Hv 0 0 w1) as (e2 & R2 & Q2).
  eexists. split.
  - eapply runs_seq; [apply runs_gl | | reflexivity | reflexivity].
    apply runs_bind_thrown. exact R2.
  - unfold quiet_calls in *. simpl. constructor; [reflexivity | exact Q2].
Qed.

Lemma checkError_runs this w :
  runs (checkError this) w (checkError_outcome (error_code w))
       [(glGetError, driver w (calls w) glGetError)] [].
Proof.
  unfold checkError, checkError_outcome, error_code.
  eapply runs_seq; [apply runs_gl | | symmetry; apply app_nil_r | reflexivity].
  destruct (as_GLenum (value (driver w (calls w) glGetError)) =? GL_NO_ERROR); simpl.
  - apply runs_pure.
  - apply runs_throw.
Qed.

Lemma make_valid descr cnt ibn idt prim w :
  all_valid descr ->
  exists pre,
    map fst pre =
      glCreateVertexArrays 1 :: layout_calls_u32 (new_vertex_array w) 0 0 descr ++
      element_buffer_call (new_vertex_array w) ibn /\
    runs (make descr cnt ibn idt prim) w
         (make_outcome (mk (new_vertex_array w) descr prim cnt idt ibn)
                       (error_code (after w pre [])))
         (pre ++ [(glGetError,
                   driver w (calls (after w pre [])) glGetError)]) [].
Proof.
  intros Hv. unfold make.
  destruct (createVertexArray_valid (mk 0 descr prim cnt idt ibn) w Hv) as (pre & R1 & C1).
  exists pre. split; [exact C1 |].
  eapply runs_seq; [exact R1 | | reflexivity | reflexivity].
  pose proof (checkError_runs
                (set_va_handle (mk 0 descr prim cnt idt ibn) (new_vertex_array w))
                (after w pre [])) as R2.
  unfold make_outcome. unfold checkError_outcome in R2.
  destruct (error_code (after w pre []) =? GL_NO_ERROR).
  - eapply runs_seq; [exact R2 | apply runs_pure | symmetry; apply app_nil_r | reflexivity].
  - apply runs_bind_thrown. exact R2.
Qed.

Lemma make_invalid descr cnt ibn idt prim w :
  some_invalid descr ->
  exists evs,
    runs (make descr cnt ibn idt prim) w (Thrown (MeshException invalid_input_type)) evs [] /\
    quiet_calls evs.
Proof.
  intros Hv. unfold make.
  destruct (createVertexArray_invalid (mk 0 descr prim cnt idt ibn) w Hv) as (evs & R1 & Q1).
  exists evs. split; [| exact Q1]. apply runs_bind_thrown. exact R1.
Qed.

Lemma valid_or_invalid (descr : list VertexLayout.t) : all_valid descr \/ some_invalid descr.
Proof.
  induction descr as [| l rest IH].
  - left. constructor.
  - destruct (all_valid_dec l) as [Hl | Hl].
    + destruct IH as [IH | IH]; [left; now constructor | right; now apply Exists_cons_tl].
    + right. now apply Exists_cons_hd.
Qed.

Lemma error_message_differs err :
  MeshException ("Mesh::Mesh - OpenGL error " ++ to_string err)
  <> MeshException invalid_input_type.
Proof. unfold invalid_input_type. simpl. intros H. discriminate H. Qed.

(** Indices that do not wrap. *)
Lemma as_GLuint_small x : 0 <= x < 2 ^ 32 -> as_GLuint x = x.
Proof. intros H. apply to_unsigned_id. exact H. Qed.

Lemma as_size_t_small x : 0 <= x < 2 ^ 32 -> as_size_t x = x.
Proof. intros H. apply to_unsigned_id. unfold is_unsigned. lia. Qed.

Lemma attribute_calls_no_wrap h j attrs :
  0 <= j < 2 ^ 32 ->
  forall idx,
    0 <= idx -> idx + Z.of_nat (List.length attrs) < 2 ^ 32 ->
    attribute_calls_u32 h j idx attrs = attribute_calls h j idx attrs /\
    next_attrib_idx idx attrs = idx + Z.of_nat (List.length attrs).
Proof.
  intros Hj. induction attrs as [| a rest IH]; intros idx H0 Hb.
  - simpl. split; [reflexivity | lia].
  - cbn [attribute_calls_u32 attribute_calls next_attrib_idx List.length] in *.
    rewrite Nat2Z.inj_succ in Hb.
    rewrite (as_GLuint_small j Hj), (as_GLuint_small (idx + 1)) by lia.
    destruct (IH (idx + 1)) as [E1 E2]; [lia | lia |].
    rewrite E1, E2. split; [reflexivity | lia].
Qed.

Lemma attribute_count_nonneg descr : 0 <= attribute_count descr.
Proof. induction descr; simpl; lia. Qed.

Lemma layout_calls_no_wrap h descr :
  forall j idx,
    0 <= j -> j + Z.of_nat (List.length descr) < 2 ^ 32 ->
    0 <= idx -> idx + attribute_count descr < 2 ^ 32 ->
    layout_calls_u32 h j idx descr = layout_calls h j idx descr.
Proof.
  induction descr as [| l rest IH]; intros j idx Hj Hjb Hi Hib.
  - reflexivity.
  - change (attribute_count (l :: rest))
      with (Z.of_nat (List.length (attributes l)) + attribute_count rest) in Hib.
    cbn [layout_calls_u32 layout_calls List.length] in *.
    rewrite Nat2Z.inj_succ in Hjb.
    pose proof (attribute_count_nonneg rest) as Hc.
    destruct (attribute_calls_no_wrap h j (attributes l)) with (idx := idx) as [E1 E2];
      [lia | lia | lia |].
    rewrite E1, E2, (as_GLuint_small j), (as_size_t_small (j + 1)) by lia.
    rewrite IH by lia. reflexivity.
Qed.

(** The loops up to the first attribute of an invalid type. *)
Lemma attribute_loop_stops h j pre bad post :
  Forall valid_input pre -> ~ valid_input bad ->
  forall idx w,
  exists evs,
    runs (for_each (pre ++ bad :: post) (attribute_body h j) idx) w
         (Thrown (MeshException invalid_input_type)) evs [] /\
    map fst evs = attribute_calls_u32 h j idx pre ++
                  [glEnableVertexArrayAttrib h (next_attrib_idx idx pre)].
Proof.
  intros Hpre Hbad. induction Hpre as [| a pre Ha _ IH]; intros idx w; cbn [app for_each].
  - eexists. split.
    + apply runs_bind_thrown. now apply attribute_body_invalid.
    + reflexivity.
  - destruct (attribute_body_valid h j a idx w Ha) as (e1 & R1 & C1).
    destruct (IH (as_GLuint (idx + 1)) (after w e1 [])) as (e2 & R2 & C2).
    exists (e1 ++ e2). split.
    + eapply runs_seq; [exact R1 | exact R2 | reflexivity | reflexivity].
    + rewrite map_app, C1, C2. cbn [attribute_calls_u32 next_attrib_idx app].
      rewrite <- !app_assoc. reflexivity.
Qed.

Lemma layout_loop_stops h before l rest pre bad post :
  all_valid before -> attributes l = pre ++ bad :: post ->
  Forall valid_input pre -> ~ valid_input bad ->
  forall gidx lidx w,
  exists evs,
    runs (for_each (before ++ l :: rest) (layout_body h) (gidx, lidx)) w
         (Thrown (MeshException invalid_input_type)) evs [] /\
    map fst evs =
      layout_calls_u32 h lidx gidx before ++
      glVertexArrayVertexBuffer h (as_GLuint (snd (last_indices lidx gidx before)))
        (buffer_name l) (buffer_start_offset l) (stride l) ::
      attribute_calls_u32 h (snd (last_indices lidx gidx before))
        (fst (last_indices lidx gidx before)) pre ++
      [glEnableVertexArrayAttrib h
         (next_attrib_idx (fst (last_indices lidx gidx before)) pre)].
Proof.
  intros Hbefore Hl Hpre Hbad.
  induction Hbefore as [| l0 before Hl0 _ IH]; intros gidx lidx w; cbn [app for_each].
  - cbn [last_indices fst snd layout_calls_u32 app].
    set (c := glVertexArrayVertexBuffer h (as_GLuint lidx) (buffer_name l)
                (buffer_start_offset l) (stride l)).
    destruct (attribute_loop_stops h lidx pre bad post Hpre Hbad gidx
                (after w [(c, driver w (calls w) c)] [])) as (e2 & R2 & C2).
    eexists. split.
    + apply runs_bind_thrown. unfold layout_body. rewrite Hl.
      eapply runs_seq; [apply runs_call | | reflexivity | reflexivity].
      apply runs_bind_thrown. exact R2.
    + cbn [map fst app]. now rewrite C2.
  - destruct (layout_body_valid h l0 gidx lidx w Hl0) as (e1 & R1 & C1).
    destruct (IH (next_attrib_idx gidx (attributes l0)) (as_size_t (lidx + 1))
                (after w e1 [])) as (e2 & R2 & C2).
    exists (e1 ++ e2). split.
    + eapply runs_seq; [exact R1 | exact R2 | reflexivity | reflexivity].
    + rewrite map_app, C1, C2. cbn [layout_calls_u32 last_indices app].
      rewrite <- !app_assoc. reflexivity.
Qed.

Lemma attribute_count_app a b :
  attribute_count (a ++ b) = attribute_count a + attribute_count b.
Proof.
  induction a as [| l a IH]; [reflexivity |].
  change (attribute_count ((l :: a) ++ b))
    with (Z.of_nat (List.length (attributes l)) + attribute_count (a ++ b)).
  change (attribute_count (l :: a))
    with (Z.of_nat (List.length (attributes l)) + attribute_count a).
  lia.
Qed.

Lemma last_indices_no_wrap descr :
  forall j idx,
    0 <= j -> j + Z.of_nat (List.length descr) < 2 ^ 32 ->
    0 <= idx -> idx + attribute_count descr < 2 ^ 32 ->
    last_indices j idx descr = (idx + attribute_count descr, j + Z.of_nat (List.length descr)).
Proof.
  induction descr as [| l rest IH]; intros j idx Hj Hjb Hi Hib.
  - cbn. f_equal; lia.
  - change (attribute_count (l :: rest))
      with (Z.of_nat (List.length (attributes l)) + attribute_count rest) in *.
    cbn [last_indices List.length] in *. rewrite Nat2Z.inj_succ in *.
    pose proof (attribute_count_nonneg rest) as Hc.
    destruct (attribute_calls_no_wrap 0 j (attributes l)) with (idx := idx) as [_ E2];
      [lia | lia | lia |].
    rewrite E2, (as_size_t_small (j + 1)) by lia.
    rewrite IH by lia. f_equal; lia.
Qed.

(** Every descriptor with an invalid attribute has a first one. *)
Lemma first_invalid_attribute attrs :
  Exists (fun a => ~ valid_input a) attrs ->
  exists pre bad post,
    attrs = pre ++ bad :: post /\ Forall valid_input pre /\ ~ valid_input bad.
Proof.
  induction attrs as [| a rest IH]; intros Hex; [inversion Hex |].
  destruct (valid_input_dec a) as [Ha | Ha].
  - assert (Hrest : Exists (fun a => ~ valid_input a) rest).
    { inversion Hex; subst; [contradiction | assumption]. }
    destruct (IH Hrest) as (pre & bad & post & -> & Hpre & Hbad).
    exists (a :: pre), bad, post. split; [reflexivity |]. split; [now constructor | exact Hbad].
  - exists [], a, rest. split; [reflexivity |]. split; [constructor | exact Ha].
Qed.

Lemma first_invalid_exists descr :
  some_invalid descr -> exists before l pre bad, first_invalid descr before l pre bad.
Proof.
  induction descr as [| l0 rest IH]; intros Hex; [inversion Hex |].
  destruct (all_valid_dec l0) as [Hl | Hl].
  - assert (Hrest : some_invalid rest).
    { inversion Hex as [? ? Hbad | ]; subst; [| assumption].
      exfalso. apply Exists_exists in Hbad. destruct Hbad as (a & Hin & Hna).
      rewrite Forall_forall in Hl. auto. }
    destruct (IH Hrest) as (before & l & pre & bad & after' & post & -> & Hl' & Hb & Hp & Hbad).
    exists (l0 :: before), l, pre, bad, after', post.
    split; [reflexivity |]. split; [exact Hl' |]. split; [now constructor |]. now split.
  - destruct (first_invalid_attribute _ Hl) as (pre & bad & post & E & Hpre & Hbad).
    exists [], l0, pre, bad, rest, post.
    split; [reflexivity |]. split; [exact E |]. split; [constructor |]. now split.
Qed.

(** [createVertexArray] at the first invalid attribute, without wrapping
    indices. *)
Lemma createVertexArray_stops this w before l pre bad :
  first_invalid (m_vertex_descriptor this) before l pre bad ->
  Z.of_nat (List.length (m_vertex_descriptor this)) < 2 ^ 32 ->
  attribute_count (m_vertex_descriptor this) < 2 ^ 32 ->
  exists evs,
    runs (createVertexArray this) w (Thrown (MeshException invalid_input_type)) evs [] /\
    map fst evs = truncated_calls (new_vertex_array w) before l pre.
Proof.
  intros (rest & post & Hd & Hl & Hb & Hp & Hbad) Hlen Hcnt.
  unfold createVertexArray. fold (new_vertex_array w).
  set (h := new_vertex_array w).
  set (w1 := after w [(glCreateVertexArrays 1, driver w (calls w) (glCreateVertexArrays 1))] []).
  cbn [m_vertex_descriptor set_va_handle m_va_handle]. rewrite Hd in *.
  destruct (layout_loop_stops h before l rest pre bad post Hb Hl Hp Hbad 0 0 w1)
    as (e2 & R2 & C2).
  rewrite attribute_count_app in Hcnt.
  change (attribute_count (l :: rest))
    with (Z.of_nat (List.length (attributes l)) + attribute_count rest) in Hcnt.
  rewrite Hl in Hcnt. rewrite !length_app in Hlen, Hcnt. cbn [List.length] in Hlen, Hcnt.
  pose proof (attribute_count_nonneg before) as Hc1.
  pose proof (attribute_count_nonneg rest) as Hc2.
  eexists. split.
  - eapply runs_seq; [apply runs_gl | | reflexivity | reflexivity].
    apply runs_bind_thrown. exact R2.
  - cbn [map fst app]. rewrite C2. unfold truncated_calls.
    rewrite last_indices_no_wrap by lia. cbn [fst snd].
    rewrite layout_calls_no_wrap by lia.
    destruct (attribute_calls_no_wrap h (0 + Z.of_nat (List.length before)) pre)
      with (idx := 0 + attribute_count before) as [E1 E2]; [lia | lia | lia |].
    rewrite E1, E2, as_GLuint_small by lia.
    rewrite !Z.add_0_l. reflexivity.
Qed.

End VertexArrayRuns.

Module VertexArrayClaims.
Import VertexLayout Observe RunFacts ConstructionSequence IssuedSequence.
Import VertexArrayFacts VertexArrayRuns Samples.
Import VertexArrayObject.

(** C1, as the code has it, for a descriptor with fewer than 2^32 layouts
    and attributes, so that no GLuint index wraps.  If all attributes have
    one of the shader input types GL_FLOAT, GL_INT, GL_UNSIGNED_INT,
    GL_DOUBLE, [createVertexArray] issues exactly the sequence of the
    specification: the create call, per layout the vertex-buffer bind at
    its index followed per attribute by enable, the format call of its
    input type and the attribute binding, with attribute indices counted
    across layouts, and last the element-buffer bind exactly when
    index_buffer_name is non-zero; the constructor adds one glGetError.
    If some attribute has another shader input type, there is a first
    such attribute, and the sequence is the same up to the enable call of
    that attribute and stops there: no format call, no attribute binding,
    no element-buffer bind and no glGetError follow. *)
Theorem createVertexArray_construction_calls
    (descr : list VertexLayout.t) (cnt ibn idt prim : Z) (w : World) :
  Z.of_nat (List.length descr) < 2 ^ 32 ->
  attribute_count descr < 2 ^ 32 ->
  (all_valid descr ->
   issues_construction_calls (mk 0 descr prim cnt idt ibn) w /\
   map fst (issued (make descr cnt ibn idt prim) w) =
     construction_calls (new_vertex_array w) descr ibn ++ [glGetError]) /\
  (some_invalid descr ->
   exists before l pre bad, first_invalid descr before l pre bad) /\
  (forall before l pre bad,
     first_invalid descr before l pre bad ->
     map fst (issued (createVertexArray (mk 0 descr prim cnt idt ibn)) w) =
       truncated_calls (new_vertex_array w) before l pre /\
     map fst (issued (make descr cnt ibn idt prim) w) =
       truncated_calls (new_vertex_array w) before l pre).
Proof.
  intros Hl Ha. split; [| split].
  - intros Hv.
    assert (E : layout_calls_u32 (new_vertex_array w) 0 0 descr =
                layout_calls (new_vertex_array w) 0 0 descr).
    { apply layout_calls_no_wrap; lia. }
    split.
    + unfold issues_construction_calls.
      destruct (createVertexArray_valid (mk 0 descr prim cnt idt ibn) w Hv) as (evs & R & C).
      rewrite (runs_issued _ _ _ _ _ R), C. simpl. now rewrite E.
    + destruct (make_valid descr cnt ibn idt prim w Hv) as (pre & C & R).
      rewrite (runs_issued _ _ _ _ _ R), map_app, C. simpl. now rewrite E.
  - apply first_invalid_exists.
  - intros before l pre bad Hf.
    destruct (createVertexArray_stops (mk 0 descr prim cnt idt ibn) w before l pre bad
                Hf Hl Ha) as (evs & R & C).
    split.
    + now rewrite (runs_issued _ _ _ _ _ R).
    + assert (R' : runs (make descr cnt ibn idt prim) w
                     (Thrown (MeshException invalid_input_type)) evs []).
      { unfold make. apply runs_bind_thrown. exact R. }
      now rewrite (runs_issued _ _ _ _ _ R').
Qed.

Lemma createVertexArray_construction_calls_witness :
  map fst (issued (make three_buffers 36 7 GL_UNSIGNED_INT GL_TRIANGLES) (start quiet)) =
  [glCreateVertexArrays 1;
   glVertexArrayVertexBuffer 5 0 3 0 24;
   glEnableVertexArrayAttrib 5 0; glVertexArrayAttribFormat 5 0 3 GL_FLOAT 0 0;
   glVertexArrayAttribBinding 5 0 0;
   glEnableVertexArrayAttrib 5 1; glVertexArrayAttribFormat 5 1 3 GL_FLOAT 0 12;
   glVertexArrayAttribBinding 5 1 0;
   glVertexArrayVertexBuffer 5 1 4 0 4;
   glEnableVertexArrayAttrib 5 2; glVertexArrayAttribIFormat 5 2 1 GL_UNSIGNED_INT 0;
   glVertexArrayAttribBinding 5 2 1;
   glVertexArrayVertexBuffer 5 2 6 16 8;
   glEnableVertexArrayAttrib 5 3; glVertexArrayAttribLFormat 5 3 1 GL_DOUBLE 0;
   glVertexArrayAttribBinding 5 3 2;
   glVertexArrayElementBuffer 5 7;
   glGetError] /\
  map fst (issued (make late_byte_colour 36 7 GL_UNSIGNED_INT GL_TRIANGLES) (start quiet)) =
  [glCreateVertexArrays 1;
   glVertexArrayVertexBuffer 5 0 3 0 24;
   glEnableVertexArrayAttrib 5 0; glVertexArrayAttribFormat 5 0 3 GL_FLOAT 0 0;
   glVertexArrayAttribBinding 5 0 0;
   glEnableVertexArrayAttrib 5 1; glVertexArrayAttribFormat 5 1 3 GL_FLOAT 0 12;
   glVertexArrayAttribBinding 5 1 0;
   glVertexArrayVertexBuffer 5 1 4 0 16;
   glEnableVertexArrayAttrib 5 2; glVertexArrayAttribIFormat 5 2 1 GL_UNSIGNED_INT 0;
   glVertexArrayAttribBinding 5 2 1;
   glEnableVertexArrayAttrib 5 3].
Proof.
  split.
  - refine (proj2 (proj1 (createVertexArray_construction_calls three_buffers 36 7
                            GL_UNSIGNED_INT GL_TRIANGLES (start quiet) _ _) _)).
    + reflexivity.
    + reflexivity.
    + unfold all_valid, three_buffers, valid_input, shader_input_types.
      repeat constructor; simpl; tauto.
  - refine (proj2 (proj2 (proj2 (createVertexArray_construction_calls late_byte_colour 36 7
                                   GL_UNSIGNED_INT GL_TRIANGLES (start quiet) _ _))
                     [mkVertexLayout 24 0 3
                        [mkAttribute 3 GL_FLOAT 0 0 GL_FLOAT;
                         mkAttribute 3 GL_FLOAT 0 12 GL_FLOAT]]
                     (mkVertexLayout 16 0 4
                        [mkAttribute 1 GL_UNSIGNED_INT 0 0 GL_UNSIGNED_INT;
                         mkAttribute 4 GL_UNSIGNED_BYTE 1 4 GL_UNSIGNED_BYTE;
                         mkAttribute 2 GL_FLOAT 0 8 GL_FLOAT])
                     [mkAttribute 1 GL_UNSIGNED_INT 0 0 GL_UNSIGNED_INT]
                     (mkAttribute 4 GL_UNSIGNED_BYTE 1 4 GL_UNSIGNED_BYTE) _)).
    + reflexivity.
    + reflexivity.
    + exists [mkVertexLayout 8 16 6 [mkAttribute 1 GL_DOUBLE 0 0 GL_DOUBLE]],
             [mkAttribute 2 GL_FLOAT 0 8 GL_FLOAT].
      split; [reflexivity |]. split; [reflexivity |].
      unfold all_valid, valid_input, shader_input_types.
      split; [repeat constructor; simpl; tauto |].
      split; [repeat constructor; simpl; tauto |].
      simpl. intros H. repeat (destruct H as [H | H]; [discriminate H |]). exact H.
Defined.

(** C1 as stated fails on a descriptor with an attribute of another shader
    input type: construction stops after that attribute's enable call, and
    the element buffer is not bound although index_buffer_name is 7. *)
Lemma createVertexArray_stops_at_invalid_type :
  ~ issues_construction_calls (mk 0 byte_colour GL_TRIANGLES 36 GL_UNSIGNED_INT 7)
      (start quiet).
Proof. unfold issues_construction_calls. vm_compute. discriminate. Qed.

Example invalid_type_truncated_calls :
  map fst (issued (createVertexArray (mk 0 byte_colour GL_TRIANGLES 36 GL_UNSIGNED_INT 7))
             (start quiet)) =
  [glCreateVertexArrays 1; glVertexArrayVertexBuffer 5 0 3 0 16;
   glEnableVertexArrayAttrib 5 0].
Proof. reflexivity. Qed.

(** C3: construction raises the MeshException naming the invalid vertex
    shader input type exactly when some attribute of the descriptor has a
    shader input type other than GL_FLOAT, GL_INT, GL_UNSIGNED_INT and
    GL_DOUBLE; when all attributes have one of the four,
    [createVertexArray] returns. *)
Theorem invalid_shader_input_type_raises
    (descr : list VertexLayout.t) (cnt ibn idt prim : Z) (w : World) :
  (some_invalid descr <->
   fst (make descr cnt ibn idt prim w) = Thrown (MeshException invalid_input_type)) /\
  (all_valid descr ->
   fst (createVertexArray (mk 0 descr prim cnt idt ibn) w) =
     Returned (mk (new_vertex_array w) descr prim cnt idt ibn)).
Proof.
  split; [split |].
  - intros Hi. destruct (make_invalid descr cnt ibn idt prim w Hi) as (evs & R & _).
    exact (runs_outcome _ _ _ _ _ R).
  - intros Ht. destruct (valid_or_invalid descr) as [Hv | Hi]; [| exact Hi].
    exfalso. destruct (make_valid descr cnt ibn idt prim w Hv) as (pre & _ & R).
    rewrite (runs_outcome _ _ _ _ _ R) in Ht. unfold make_outcome in Ht.
    destruct (_ =? GL_NO_ERROR) in Ht; [discriminate Ht |].
    injection Ht as Ht. revert Ht. simpl. discriminate.
  - intros Hv.
    destruct (createVertexArray_valid (mk 0 descr prim cnt idt ibn) w Hv) as (evs & R & _).
    exact (runs_outcome _ _ _ _ _ R).
Qed.

Lemma invalid_shader_input_type_raises_witness :
  fst (make byte_colour 36 7 GL_UNSIGNED_INT GL_TRIANGLES (start quiet)) =
    Thrown (MeshException invalid_input_type) /\
  fst (createVertexArray (mk 0 three_buffers GL_TRIANGLES 36 GL_UNSIGNED_INT 7)
         (start quiet)) =
    Returned (mk 5 three_buffers GL_TRIANGLES 36 GL_UNSIGNED_INT 7).
Proof.
  split.
  - apply (proj1 (invalid_shader_input_type_raises byte_colour 36 7 GL_UNSIGNED_INT
                    GL_TRIANGLES (start quiet))).
    apply Exists_cons_hd. apply Exists_cons_hd.
    unfold valid_input, shader_input_types. simpl.
    intros H. repeat (destruct H as [H | H]; [discriminate H |]). exact H.
  - apply (proj2 (invalid_shader_input_type_raises three_buffers 36 7 GL_UNSIGNED_INT
                    GL_TRIANGLES (start quiet))).
    unfold all_valid, three_buffers, valid_input, shader_input_types.
    repeat constructor; simpl; tauto.
Defined.

End VertexArrayClaims.

Module AnswerFacts.
Import Observe RunFacts.

Lemma answers_calls d cs : forall history, map fst (answers d history cs) = cs.
Proof. induction cs as [| c rest IH]; intros history; simpl; [| rewrite IH]; reflexivity. Qed.

Lemma answers_app d cs1 cs2 :
  forall history,
    answers d history (cs1 ++ cs2) =
    answers d history cs1 ++ answers d (history ++ cs1) cs2.
Proof.
  induction cs1 as [| c rest IH]; intros history; simpl.
  - now rewrite app_nil_r.
  - now rewrite IH, <- app_assoc.
Qed.

Lemma answers_in_calls w cs : map fst (answers_in w cs) = cs.
Proof. apply answers_calls. Qed.

Lemma answers_in_app w cs1 cs2 l1 :
  answers_in w (cs1 ++ cs2) =
  answers_in w cs1 ++ answers_in (after w (answers_in w cs1) l1) cs2.
Proof.
  unfold answers_in. rewrite answers_app, calls_after, answers_calls. reflexivity.
Qed.

Lemma runs_gl_in c w :
  runs (gl c) w (Returned (driver w (calls w) c)) (answers_in w [c]) [].
Proof. apply runs_gl. Qed.

Lemma runs_call_in c w : runs (call c) w (Returned tt) (answers_in w [c]) [].
Proof. apply runs_call. Qed.

Lemma runs_pure_in {A} (a : A) w : runs (pure a) w (Returned a) (answers_in w []) [].
Proof. apply runs_pure. Qed.

Lemma runs_throw_in {A} e w : runs (@throw A e) w (Thrown e) (answers_in w []) [].
Proof. apply runs_throw. Qed.

Lemma runs_print_in line w : runs (print_cerr line) w (Returned tt) (answers_in w []) [line].
Proof. apply runs_print. Qed.

(** Sequencing, when both parts only record the driver's answers. *)
Lemma runs_then {A B} (m : M A) (k : A -> M B) w a r cs1 cs2 l1 l2 :
  runs m w (Returned a) (answers_in w cs1) l1 ->
  runs (k a) (after w (answers_in w cs1) l1)
       r (answers_in (after w (answers_in w cs1) l1) cs2) l2 ->
  runs (bind m k) w r (answers_in w (cs1 ++ cs2)) (l1 ++ l2).
Proof.
  intros H1 H2. rewrite (answers_in_app w cs1 cs2 l1). eapply runs_bind; eassumption.
Qed.

Lemma runs_stop {A B} (m : M A) (k : A -> M B) w e cs l :
  runs m w (Thrown e) (answers_in w cs) l ->
  runs (bind m k) w (Thrown e) (answers_in w cs) l.
Proof. apply runs_bind_thrown. Qed.

Lemma runs_as {A} (m : M A) w r cs cs' l l' :
  runs m w r (answers_in w cs') l' -> cs = cs' -> l = l' ->
  runs m w r (answers_in w cs) l.
Proof. now intros H -> ->. Qed.

(** A loop whose body is one native call per element. *)
Lemma for_each_call {A} (f : A -> GLCall) (xs : list A) :
  forall w,
    runs (for_each xs (fun x (_ : unit) => call (f x)) tt) w (Returned tt)
         (answers_in w (map f xs)) [].
Proof.
  induction xs as [| x rest IH]; intros w; simpl.
  - apply runs_pure_in.
  - apply (runs_then _ _ w tt (Returned tt) [f x] (map f rest) [] []).
    + apply runs_call_in.
    + apply IH.
Qed.

Lemma when_call (c : bool) (g : GLCall) w :
  runs (when c (call g)) w (Returned tt) (answers_in w (if c then [g] else [])) [].
Proof. destruct c; simpl; [apply runs_call_in | apply runs_pure_in]. Qed.

Lemma when_print (c : bool) (line : string) w :
  runs (when c (print_cerr line)) w (Returned tt) (answers_in w [])
       (if c then [line] else []).
Proof. destruct c; simpl; [apply runs_print_in | apply runs_pure_in]. Qed.

Lemma after_answers w cs1 cs2 l1 l2 :
  after (after w (answers_in w cs1) l1) (answers_in (after w (answers_in w cs1) l1) cs2) l2 =
  after w (answers_in w (cs1 ++ cs2)) (l1 ++ l2).
Proof. now rewrite after_after, <- answers_in_app. Qed.

Lemma error_code_after w cs l :
  error_code (after w (answers_in w cs) l) =
  as_GLenum (value (driver w (calls w ++ cs) glGetError)).
Proof. unfold error_code. now rewrite calls_after, answers_in_calls. Qed.

Lemma last_answer w cs c :
  answers_in w (cs ++ [c]) =
  answers_in w cs ++ [(c, driver w (calls (after w (answers_in w cs) [])) c)].
Proof. rewrite (answers_in_app w cs [c] []). reflexivity. Qed.

End AnswerFacts.

Module TextureFacts.
Import Texture Observe RunFacts AnswerFacts TextureSequence.

Lemma to_signed_id bits x : 0 < bits -> is_signed bits x -> to_signed bits x = x.
Proof.
  intros Hb Hs. rewrite <- (to_signed_to_unsigned bits x Hb Hs) at 2.
  unfold to_signed, to_unsigned. rewrite Z.mod_mod; [reflexivity |].
  apply Z.pow_nonzero; lia.
Qed.

Lemma as_unsigned_nonzero x : is_signed 32 x -> x <> 0 -> 0 < as_unsigned x.
Proof.
  intros [Hlo Hhi] Hx. unfold as_unsigned, to_unsigned.
  change (2 ^ (32 - 1)) with 2147483648 in *. change (2 ^ 32) with 4294967296.
  destruct (Z_lt_le_dec x 0).
  - replace (x mod 4294967296) with (x + 4294967296); [lia |].
    apply Z.mod_unique with (q := -1); lia.
  - rewrite Z.mod_small; lia.
Qed.

Lemma as_unsigned_range x : 0 <= as_unsigned x < 2 ^ 32.
Proof. apply (to_unsigned_range 32 x). lia. Qed.

Lemma extent_roundtrip x : is_signed 32 x -> as_GLsizei (as_unsigned x) = x.
Proof. apply to_signed_to_unsigned. lia. Qed.

(** With a non-zero extent the level count does not depend on the
    platform's conversion of minus infinity. *)
Lemma storage_levels_clamped p (layout : TextureLayout) :
  TextureLayout_wf layout ->
  width layout <> 0 \/ height layout <> 0 ->
  Texture2DArray.storage_levels p (levels layout)
    (as_unsigned (width layout)) (as_unsigned (height layout)) = clamped_levels layout.
Proof.
  intros (_ & Hw & Hh & _) Hnz.
  unfold Texture2DArray.storage_levels, Texture2DArray.floor_log2, clamped_levels.
  pose proof (as_unsigned_range (width layout)) as Rw.
  pose proof (as_unsigned_range (height layout)) as Rh.
  set (m := Z.max (as_unsigned (width layout)) (as_unsigned (height layout))).
  assert (Hm : 0 < m < 2 ^ 32).
  { subst m. destruct Hnz as [Hnz | Hnz].
    - pose proof (as_unsigned_nonzero _ Hw Hnz). lia.
    - pose proof (as_unsigned_nonzero _ Hh Hnz). lia. }
  destruct (Z.eqb_spec m 0) as [E | _]; [lia |].
  assert (Hl : 0 <= Z.log2 m < 32).
  { split; [apply Z.log2_nonneg |]. apply Z.log2_lt_pow2; lia. }
  unfold as_GLsizei. rewrite to_signed_id; [reflexivity | lia |].
  unfold is_signed. change (2 ^ (32 - 1)) with 2147483648. lia.
Qed.

(** The constructor of [Texture2DArray], call by call. *)
Lemma texture_make_runs p id (layout : TextureLayout) data generateMipmap w :
  let pre := answers_in w
               (creation_calls_of_members p (new_texture w) layout data generateMipmap) in
  exists handle,
    runs (Texture2DArray.make p id layout data generateMipmap) w
         (Returned (made id (new_texture w) handle layout))
         (pre ++ [(glGetError, driver w (calls (after w pre [])) glGetError)])
         (report (Texture2DArray.creation_error id (error_code (after w pre [])))
                 (error_code (after w pre []))).
Proof.
  intros pre. subst pre. eexists.
  rewrite <- last_answer.
  unfold Texture2DArray.make. fold (new_texture w).
  eapply runs_as.
  - eapply runs_then; [apply runs_gl_in |].
    eapply runs_then; [apply runs_call_in |].
    eapply runs_then; [apply for_each_call |].
    eapply runs_then; [apply for_each_call |].
    eapply runs_then; [apply runs_call_in |].
    eapply runs_then; [apply when_call |].
    eapply runs_then; [apply when_call |].
    eapply runs_then; [apply runs_gl_in |].
    eapply runs_then; [apply runs_call_in |].
    eapply runs_then; [apply runs_gl_in |].
    eapply runs_then; [apply when_print | apply runs_pure_in].
  - unfold creation_calls_of_members, creation_calls, int_parameter_calls,
      float_parameter_calls.
    rewrite <- !app_assoc. simpl. destruct (data =? 0); reflexivity.
  - rewrite !after_answers, !calls_after, !answers_in_calls, error_code_after.
    unfold report, creation_calls_of_members, creation_calls, int_parameter_calls,
      float_parameter_calls.
    unfold new_texture. rewrite <- ?app_assoc. simpl.
    destruct (data =? 0); simpl;
      match goal with |- context [?e =? GL_NO_ERROR] => destruct (e =? GL_NO_ERROR) end;
      reflexivity.
Qed.

End TextureFacts.

Module BufferFacts.
Import Observe RunFacts AnswerFacts TextureSequence.
Import ShaderStorageBufferObject.

Lemma buffer_make_runs size data w :
  runs (make size data) w (Returned (mk (new_buffer w) size 0))
       (answers_in w (glGenBuffers 1 :: reload_calls (new_buffer w) size data)) [].
Proof.
  unfold make. fold (new_buffer w).
  eapply runs_as.
  - eapply runs_then; [apply runs_gl_in |].
    eapply runs_then; [apply runs_call_in |].
    eapply runs_then; [apply runs_call_in |].
    eapply runs_then; [apply runs_call_in | apply runs_pure_in].
  - reflexivity.
  - reflexivity.
Qed.

Lemma reload_runs this size index data w :
  let pre := answers_in w (reload_calls (m_handle this) size data) in
  runs (reload this size index data) w (Returned (set_size this size))
       (pre ++ [(glGetError, driver w (calls (after w pre [])) glGetError)])
       (report (reload_error (error_code (after w pre []))) (error_code (after w pre []))).
Proof.
  intros pre. subst pre. rewrite <- last_answer. unfold reload.
  eapply runs_as.
  - eapply runs_then; [apply runs_call_in |].
    eapply runs_then; [apply runs_call_in |].
    eapply runs_then; [apply runs_call_in |].
    eapply runs_then; [apply runs_gl_in |].
    eapply runs_then; [apply when_print | apply runs_pure_in].
  - reflexivity.
  - rewrite !after_answers, !calls_after, !answers_in_calls, error_code_after.
    unfold report, reload_calls. simpl.
    match goal with |- context [?e =? GL_NO_ERROR] => destruct (e =? GL_NO_ERROR) end;
      reflexivity.
Qed.

Lemma last_default {A} (l : list A) :
  forall x d d', last (x :: l) d = last (x :: l) d'.
Proof.
  induction l as [| y rest IH]; intros x d d'; [reflexivity |].
  change (last (y :: rest) d = last (y :: rest) d'). apply IH.
Qed.

(** Any sequence of reloads returns, and leaves the last size asked for. *)
Lemma reload_all_runs rs :
  forall this w,
  exists evs lines this',
    runs (reload_all rs this) w (Returned this') evs lines /\
    getSize this' = last (sizes rs) (getSize this) /\
    m_handle this' = m_handle this.
Proof.
  induction rs as [| [[size index] data] rest IH]; intros this w.
  - exists [], [], this. split; [apply runs_pure | split; reflexivity].
  - pose proof (reload_runs this size index data w) as R1. cbv zeta in R1.
    match type of R1 with runs _ _ _ ?e ?l =>
      destruct (IH (set_size this size) (after w e l)) as (e2 & l2 & this' & R2 & S2 & H2)
    end.
    do 3 eexists. split; [| split].
    + unfold reload_all in *. simpl.
      eapply runs_seq; [exact R1 | exact R2 | reflexivity | reflexivity].
    + rewrite S2. unfold sizes. simpl.
      destruct (map (fun r : Z * Z * Z => fst (fst r)) rest); [reflexivity |].
      apply last_default.
    + rewrite H2. reflexivity.
Qed.

End BufferFacts.

Module ErrorCheckFacts.
Import Observe RunFacts AnswerFacts ErrorChecks.

Lemma quiet_answers w cs :
  Forall (fun c => is_error_query c = false) cs -> quiet_calls (answers_in w cs).
Proof. unfold quiet_calls. now rewrite answers_in_calls. Qed.

Lemma quiet_no_check pre : quiet_calls pre -> error_checks pre = 0%nat.
Proof.
  unfold quiet_calls, error_checks. induction (map fst pre) as [| c cs IH]; intros H.
  - reflexivity.
  - inversion H as [| ? ? Hc Hcs]; subst. simpl. rewrite Hc. now apply IH.
Qed.

Lemma quiet_not_in pre o : quiet_calls pre -> ~ In (glGetError, o) pre.
Proof.
  unfold quiet_calls. intros H Hin. rewrite Forall_forall in H.
  specialize (H glGetError (in_map fst _ _ Hin)). discriminate H.
Qed.

(** One query at the end of otherwise quiet calls is the only one. *)
Lemma checked_last_once {A} (m : M A) w code :
  checked_last m w code ->
  checked_once m w /\ (error_reported (issued m w) <-> code <> GL_NO_ERROR).
Proof.
  intros (pre & o & E & Q & C). unfold checked_once. rewrite E. split.
  - unfold error_checks. rewrite map_app, filter_app, length_app.
    fold (error_checks pre). now rewrite (quiet_no_check _ Q).
  - unfold error_reported. split.
    + intros (o' & Hin & Hne). apply in_app_or in Hin. destruct Hin as [Hin | Hin].
      * exfalso. exact (quiet_not_in _ _ Q Hin).
      * destruct Hin as [Hin | []]. injection Hin as <-. now rewrite <- C.
    + intros Hne. exists o. split; [apply in_or_app; right; now left | now rewrite C].
Qed.

Lemma runs_checked_last {A} (m : M A) w r pre o lines :
  runs m w r (pre ++ [(glGetError, o)]) lines -> quiet_calls pre ->
  checked_last m w (as_GLenum (value o)).
Proof.
  intros R Q. exists pre, o. rewrite (runs_issued _ _ _ _ _ R). auto.
Qed.

End ErrorCheckFacts.

Module TextureClaims.
Import Texture Observe RunFacts AnswerFacts TextureSequence TextureFacts Samples.

Lemma int_parameter_calls_no_storage ps :
  storage_levels_passed (int_parameter_calls ps) = [].
Proof. induction ps as [| q rest IH]; [reflexivity | exact IH]. Qed.

Lemma float_parameter_calls_no_storage ps :
  storage_levels_passed (float_parameter_calls ps) = [].
Proof. induction ps as [| q rest IH]; [reflexivity | exact IH]. Qed.

Lemma creation_calls_levels name lv fmt w h d layout data generateMipmap :
  storage_levels_passed
    (creation_calls name lv fmt w h d layout data generateMipmap ++ [glGetError]) = [lv].
Proof.
  unfold creation_calls, storage_levels_passed.
  rewrite !flat_map_app.
  fold (storage_levels_passed (int_parameter_calls (int_parameters layout))).
  fold (storage_levels_passed (float_parameter_calls (float_parameters layout))).
  rewrite int_parameter_calls_no_storage, float_parameter_calls_no_storage.
  destruct (data =? 0), generateMipmap; reflexivity.
Qed.

Lemma make_calls p id (layout : TextureLayout) data generateMipmap w :
  map fst (issued (Texture2DArray.make p id layout data generateMipmap) w) =
  creation_calls_of_members p (new_texture w) layout data generateMipmap ++ [glGetError].
Proof.
  destruct (texture_make_runs p id layout data generateMipmap w) as (handle & R).
  rewrite (runs_issued _ _ _ _ _ R), map_app, answers_in_calls. reflexivity.
Qed.

(** C6, as the code has it: the constructor hands the layout's parameter
    lists, internal format (as a GLenum), extents, format and type to the
    native calls unchanged, but the level count of the storage call is the
    smaller of the layout's levels and 1 + floor(log2(max(width, height)))
    (the extents taken as unsigned); it is the layout's levels only when
    these do not exceed that bound. *)
Theorem make_forwards_layout
    (p : Z) (id : string) (layout : TextureLayout) (data : Z) (generateMipmap : bool)
    (w : World) :
  TextureLayout_wf layout ->
  width layout <> 0 \/ height layout <> 0 ->
  map fst (issued (Texture2DArray.make p id layout data generateMipmap) w) =
    creation_calls (new_texture w) (clamped_levels layout)
      (as_GLenum (internal_format layout)) (width layout) (height layout) (depth layout)
      layout data generateMipmap ++ [glGetError] /\
  storage_levels_passed
    (map fst (issued (Texture2DArray.make p id layout data generateMipmap) w)) =
    [clamped_levels layout] /\
  (levels layout <=
     1 + Z.log2 (Z.max (as_unsigned (width layout)) (as_unsigned (height layout))) ->
   forwards_levels p id layout data generateMipmap w).
Proof.
  intros Hwf Hnz.
  assert (E : map fst (issued (Texture2DArray.make p id layout data generateMipmap) w) =
              creation_calls (new_texture w) (clamped_levels layout)
                (as_GLenum (internal_format layout)) (width layout) (height layout)
                (depth layout) layout data generateMipmap ++ [glGetError]).
  { rewrite make_calls. unfold creation_calls_of_members.
    rewrite (storage_levels_clamped p layout Hwf Hnz).
    destruct Hwf as (_ & Hw & Hh & Hd & _).
    now rewrite !extent_roundtrip by assumption. }
  split; [exact E |]. split.
  - rewrite E. apply creation_calls_levels.
  - intros Hle. unfold forwards_levels. rewrite E, creation_calls_levels.
    unfold clamped_levels. now rewrite Z.min_l.
Qed.

Lemma large_array_wf : TextureLayout_wf large_array.
Proof.
  unfold TextureLayout_wf, is_signed, is_unsigned.
  repeat split; vm_compute; first [reflexivity | discriminate].
Qed.

Lemma make_forwards_layout_witness :
  map fst (issued (Texture2DArray.make int_min "atlas" large_array 4096 true) (start healthy)) =
    [glGenTextures 1; glBindTexture GL_TEXTURE_2D_ARRAY 1;
     glTexParameteri GL_TEXTURE_2D_ARRAY 0x2801 0x2601;
     glTexParameteri GL_TEXTURE_2D_ARRAY 0x2800 0x2601;
     glTexParameterf GL_TEXTURE_2D_ARRAY 0x84FE 0x40800000;
     glTexStorage3D GL_TEXTURE_2D_ARRAY 3 0x8058 256 128 6;
     glTexSubImage3D GL_TEXTURE_2D_ARRAY 0 0 0 0 256 128 6 0x1908 GL_UNSIGNED_BYTE 4096;
     glGenerateMipmap GL_TEXTURE_2D_ARRAY;
     glGetTextureHandleARB 1; glBindTexture GL_TEXTURE_2D_ARRAY 0; glGetError] /\
  forwards_levels int_min "atlas" large_array 4096 true (start healthy).
Proof.
  destruct (make_forwards_layout int_min "atlas" large_array 4096 true (start healthy)
              large_array_wf) as (Hc & _ & Hl).
  - left. simpl. lia.
  - split; [exact Hc |]. apply Hl. vm_compute. discriminate.
Defined.

(** C6 as stated fails: for a 4 by 4 texture asked with 10 levels the
    storage call receives 3 levels. *)
Lemma make_clamps_levels :
  ~ forwards_levels int_min "small" small_array 0 false (start healthy).
Proof. unfold forwards_levels. vm_compute. discriminate. Qed.

Example small_array_levels_passed :
  storage_levels_passed
    (map fst (issued (Texture2DArray.make int_min "small" small_array 0 false)
                (start healthy))) = [3].
Proof. reflexivity. Qed.

End TextureClaims.

Module GetterClaims.
Import Texture Observe RunFacts AnswerFacts TextureSequence TextureFacts Samples.
Import ConstructionSequence IssuedSequence VertexArrayRuns.

(** C7: the vertex array object a constructor call returns gives back, from
    [getVertexLayouts], exactly the vector passed in; the texture array
    built from a layout L gives back, from [getTextureLayout], a layout
    that agrees with L on internal_format, width, height, depth, format,
    type and levels. *)
Theorem getters_return_descriptors
    (descr : list VertexLayout.t) (cnt ibn idt prim : Z) (w : World)
    (p : Z) (id : string) (L : TextureLayout) (data : Z) (generateMipmap : bool)
    (w' : World) :
  TextureLayout_wf L ->
  (forall this,
     fst (VertexArrayObject.make descr cnt ibn idt prim w) = Returned this ->
     VertexArrayObject.getVertexLayouts this = descr) /\
  exists tex,
    fst (Texture2DArray.make p id L data generateMipmap w') = Returned tex /\
    let L' := Texture2DArray.getTextureLayout tex in
    internal_format L' = internal_format L /\ width L' = width L /\
    height L' = height L /\ depth L' = depth L /\ format L' = format L /\
    type L' = type L /\ levels L' = levels L.
Proof.
  intros (Hf & Hw & Hh & Hd & _). split.
  - intros this Hr. destruct (valid_or_invalid descr) as [Hv | Hi].
    + destruct (make_valid descr cnt ibn idt prim w Hv) as (pre & _ & R).
      rewrite (runs_outcome _ _ _ _ _ R) in Hr. unfold make_outcome in Hr.
      destruct (_ =? GL_NO_ERROR) in Hr; [| discriminate Hr].
      injection Hr as <-. reflexivity.
    + destruct (make_invalid descr cnt ibn idt prim w Hi) as (evs & R & _).
      rewrite (runs_outcome _ _ _ _ _ R) in Hr. discriminate Hr.
  - destruct (texture_make_runs p id L data generateMipmap w') as (handle & R).
    eexists. split; [exact (runs_outcome _ _ _ _ _ R) |].
    unfold Texture2DArray.getTextureLayout, made, TextureLayout7. simpl.
    unfold as_GLint, as_GLenum, as_int, as_unsigned.
    rewrite !to_signed_to_unsigned by (assumption || lia).
    repeat split; reflexivity.
Qed.

Lemma getters_return_descriptors_witness :
  VertexArrayObject.getVertexLayouts
    (VertexArrayObject.mk 5 three_buffers GL_TRIANGLES 36 GL_UNSIGNED_INT 7) = three_buffers /\
  exists tex,
    fst (Texture2DArray.make int_min "atlas" large_array 4096 true (start healthy)) =
      Returned tex /\
    levels (Texture2DArray.getTextureLayout tex) = 3 /\
    width (Texture2DArray.getTextureLayout tex) = 256.
Proof.
  destruct (getters_return_descriptors three_buffers 36 7 GL_UNSIGNED_INT GL_TRIANGLES
              (start quiet) int_min "atlas" large_array 4096 true (start healthy)
              TextureClaims.large_array_wf) as (Hv & tex & Ht & HL).
  split.
  - apply Hv. reflexivity.
  - exists tex. split; [exact Ht |]. cbv zeta in HL.
    destruct HL as (_ & Hw & _ & _ & _ & _ & Hl). rewrite Hl, Hw. split; reflexivity.
Defined.

End GetterClaims.

Module ErrorClaims.
Import Texture Observe RunFacts AnswerFacts TextureSequence TextureFacts Samples.
Import ConstructionSequence IssuedSequence VertexArrayFacts VertexArrayRuns.
Import ErrorChecks ErrorCheckFacts.

Lemma parameter_calls_quiet {A} (f : A -> GLCall) (ps : list A) :
  (forall q, is_error_query (f q) = false) ->
  Forall (fun c => is_error_query c = false) (map f ps).
Proof. intros H. apply Forall_forall. intros c Hc. apply in_map_iff in Hc.
  destruct Hc as (q & <- & _). apply H. Qed.

Lemma creation_calls_quiet name lv fmt w h d layout data generateMipmap :
  Forall (fun c => is_error_query c = false)
         (creation_calls name lv fmt w h d layout data generateMipmap).
Proof.
  unfold creation_calls, int_parameter_calls, float_parameter_calls.
  repeat (apply Forall_app; split);
    try (apply parameter_calls_quiet; reflexivity);
    try (destruct (data =? 0)); try (destruct generateMipmap);
    repeat constructor.
Qed.

Lemma construction_quiet h descr ibn :
  Forall (fun c => is_error_query c = false)
         (glCreateVertexArrays 1 :: layout_calls_u32 h 0 0 descr ++ element_buffer_call h ibn).
Proof.
  constructor; [reflexivity |]. apply Forall_app. split.
  - apply layout_calls_quiet.
  - unfold element_buffer_call. destruct (ibn =? 0); repeat constructor.
Qed.

Lemma make_outcome_raises this code :
  raises_MeshException (make_outcome this code) <-> code <> GL_NO_ERROR.
Proof.
  unfold make_outcome, raises_MeshException.
  destruct (Z.eqb_spec code GL_NO_ERROR) as [E | E]; split.
  - intros (what & H). discriminate H.
  - intros H. contradiction.
  - intros _. exact E.
  - intros _. eexists. reflexivity.
Qed.

(** C2, as the code has it.  The vertex-array constructor queries the error
    code exactly once, as its last native call, when every attribute has a
    valid shader input type, and then throws a MeshException if and only
    if the code is not GL_NO_ERROR; with an invalid shader input type it
    throws without querying the error code at all.  The texture-array
    constructor and the buffer's reload query the code exactly once as
    their last native call, print it to the error stream if and only if it
    is not GL_NO_ERROR, and return in either case.  Nothing follows the
    query: no recovery, no retry. *)
Theorem error_code_checked_once
    (descr : list VertexLayout.t) (cnt ibn idt prim : Z)
    (p : Z) (id : string) (layout : TextureLayout) (data : Z) (generateMipmap : bool)
    (this : ShaderStorageBufferObject.t) (size index bdata : Z) (w : World) :
  (all_valid descr ->
   exists code,
     checked_last (VertexArrayObject.make descr cnt ibn idt prim) w code /\
     checked_once (VertexArrayObject.make descr cnt ibn idt prim) w /\
     fst (VertexArrayObject.make descr cnt ibn idt prim w) =
       make_outcome (VertexArrayObject.mk (new_vertex_array w) descr prim cnt idt ibn) code /\
     raises_iff_error_reported descr cnt ibn idt prim w) /\
  (some_invalid descr ->
   raises_MeshException (fst (VertexArrayObject.make descr cnt ibn idt prim w)) /\
   error_checks (issued (VertexArrayObject.make descr cnt ibn idt prim) w) = 0%nat) /\
  (exists code tex,
     checked_last (Texture2DArray.make p id layout data generateMipmap) w code /\
     checked_once (Texture2DArray.make p id layout data generateMipmap) w /\
     fst (Texture2DArray.make p id layout data generateMipmap w) = Returned tex /\
     printed (Texture2DArray.make p id layout data generateMipmap) w =
       report (Texture2DArray.creation_error id code) code) /\
  (exists code,
     checked_last (ShaderStorageBufferObject.reload this size index bdata) w code /\
     checked_once (ShaderStorageBufferObject.reload this size index bdata) w /\
     fst (ShaderStorageBufferObject.reload this size index bdata w) =
       Returned (ShaderStorageBufferObject.set_size this size) /\
     printed (ShaderStorageBufferObject.reload this size index bdata) w =
       report (ShaderStorageBufferObject.reload_error code) code).
Proof.
  split; [| split; [| split]].
  - intros Hv. destruct (make_valid descr cnt ibn idt prim w Hv) as (pre & C & R).
    assert (Q : quiet_calls pre).
    { unfold quiet_calls. rewrite C. apply construction_quiet. }
    pose proof (runs_checked_last _ _ _ _ _ _ R Q) as L.
    destruct (checked_last_once _ _ _ L) as [Once Rep].
    eexists. split; [exact L |]. split; [exact Once |]. split.
    + rewrite (runs_outcome _ _ _ _ _ R). reflexivity.
    + unfold raises_iff_error_reported. rewrite Rep, (runs_outcome _ _ _ _ _ R).
      apply make_outcome_raises.
  - intros Hi. destruct (make_invalid descr cnt ibn idt prim w Hi) as (evs & R & Q). split.
    + rewrite (runs_outcome _ _ _ _ _ R). eexists. reflexivity.
    + rewrite (runs_issued _ _ _ _ _ R). now apply quiet_no_check.
  - destruct (texture_make_runs p id layout data generateMipmap w) as (handle & R).
    cbv zeta in R.
    assert (Q : quiet_calls
                  (answers_in w (creation_calls_of_members p (new_texture w) layout data
                                   generateMipmap))).
    { apply quiet_answers, creation_calls_quiet. }
    pose proof (runs_checked_last _ _ _ _ _ _ R Q) as L.
    destruct (checked_last_once _ _ _ L) as [Once _].
    do 2 eexists. split; [exact L |]. split; [exact Once |]. split.
    + exact (runs_outcome _ _ _ _ _ R).
    + rewrite (runs_printed _ _ _ _ _ R). reflexivity.
  - pose proof (BufferFacts.reload_runs this size index bdata w) as R. cbv zeta in R.
    assert (Q : quiet_calls
                  (answers_in w (reload_calls (ShaderStorageBufferObject.m_handle this)
                                   size bdata))).
    { apply quiet_answers. repeat constructor. }
    pose proof (runs_checked_last _ _ _ _ _ _ R Q) as L.
    destruct (checked_last_once _ _ _ L) as [Once _].
    eexists. split; [exact L |]. split; [exact Once |]. split.
    + exact (runs_outcome _ _ _ _ _ R).
    + rewrite (runs_printed _ _ _ _ _ R). reflexivity.
Qed.

Lemma three_buffers_valid : all_valid three_buffers.
Proof.
  unfold all_valid, three_buffers, valid_input, shader_input_types.
  repeat constructor; simpl; tauto.
Qed.

Lemma byte_colour_invalid : some_invalid byte_colour.
Proof.
  apply Exists_cons_hd. apply Exists_cons_hd.
  unfold valid_input, shader_input_types. simpl.
  intros H. repeat (destruct H as [H | H]; [discriminate H |]). exact H.
Qed.

Lemma error_code_checked_once_witness :
  raises_MeshException
    (fst (VertexArrayObject.make three_buffers 36 7 GL_UNSIGNED_INT GL_TRIANGLES
            (start failing))) /\
  checked_once (VertexArrayObject.make three_buffers 36 7 GL_UNSIGNED_INT GL_TRIANGLES)
               (start failing) /\
  error_checks (issued (VertexArrayObject.make byte_colour 36 7 GL_UNSIGNED_INT GL_TRIANGLES)
                  (start failing)) = 0%nat.
Proof.
  destruct (error_code_checked_once three_buffers 36 7 GL_UNSIGNED_INT GL_TRIANGLES
              int_min "atlas" large_array 4096 true
              (ShaderStorageBufferObject.mk 1 64 0) 128 0 4096 (start failing))
    as (Hv & _ & _ & _).
  destruct (error_code_checked_once byte_colour 36 7 GL_UNSIGNED_INT GL_TRIANGLES
              int_min "atlas" large_array 4096 true
              (ShaderStorageBufferObject.mk 1 64 0) 128 0 4096 (start failing))
    as (_ & Hi & _ & _).
  destruct (Hv three_buffers_valid) as (code & _ & Once & _ & Iff).
  destruct (Hi byte_colour_invalid) as (_ & None).
  split; [| split; [exact Once | exact None]].
  eexists. vm_compute. reflexivity.
Defined.

(** C2 as stated fails for the vertex array: with an attribute of an
    invalid shader input type the constructor throws a MeshException
    although no error query returned a non-success code (none was made). *)
Lemma make_raises_without_error_code :
  ~ raises_iff_error_reported byte_colour 36 7 GL_UNSIGNED_INT GL_TRIANGLES (start quiet).
Proof.
  intros [H _].
  assert (R : raises_MeshException
                (fst (VertexArrayObject.make byte_colour 36 7 GL_UNSIGNED_INT GL_TRIANGLES
                        (start quiet)))).
  { eexists. vm_compute. reflexivity. }
  destruct (H R) as (o & Hin & _). vm_compute in Hin.
  repeat (destruct Hin as [Hin | Hin]; [discriminate Hin |]). exact Hin.
Qed.

(** The error stream of the two printing paths under a driver whose error
    flag is GL_OUT_OF_MEMORY. *)
Example reload_prints_error :
  ShaderStorageBufferObject.reload (ShaderStorageBufferObject.mk 1 64 0) 128 0 4096
    (start failing) =
  (Returned (ShaderStorageBufferObject.mk 1 128 0),
   mkWorld failing
     [(glBindBuffer GL_SHADER_STORAGE_BUFFER 1, mkOut 1 "");
      (glBufferData GL_SHADER_STORAGE_BUFFER 128 4096 GL_DYNAMIC_DRAW, mkOut 1 "");
      (glBindBuffer GL_SHADER_STORAGE_BUFFER 0, mkOut 1 "");
      (glGetError, mkOut 1285 "")]
     ["Error - SSBO - reload: 1285"]).
Proof. reflexivity. Qed.

Example texture_prints_error :
  printed (Texture2DArray.make int_min "atlas" large_array 4096 true) (start failing) =
  ["GL error during array texture (id: atlas) creation: 1285"].
Proof. reflexivity. Qed.

End ErrorClaims.

Module BufferClaims.
Import Observe RunFacts AnswerFacts TextureSequence BufferFacts Samples.
Import ShaderStorageBufferObject.

(** C10: [reload] returns with the size argument stored in the object
    whatever error code the driver reports, and after the constructor and
    any sequence of reloads [getSize] is the size of the last reload, or of
    the constructor if there was none. *)
Theorem getSize_is_last_size
    (this : t) (size index data : Z) (w : World)
    (size0 data0 : Z) (rs : list (Z * Z * Z)) (w' : World) :
  (fst (reload this size index data w) = Returned (set_size this size) /\
   getSize (set_size this size) = size /\
   printed (reload this size index data) w =
     report (reload_error (error_code
                             (after w (answers_in w (reload_calls (m_handle this) size data)) [])))
            (error_code
               (after w (answers_in w (reload_calls (m_handle this) size data)) []))) /\
  exists obj,
    fst (Native.bind (make size0 data0) (reload_all rs) w') = Returned obj /\
    getSize obj = last (sizes rs) size0.
Proof.
  split.
  - pose proof (reload_runs this size index data w) as R. cbv zeta in R.
    split; [exact (runs_outcome _ _ _ _ _ R) |]. split; [reflexivity |].
    exact (runs_printed _ _ _ _ _ R).
  - pose proof (buffer_make_runs size0 data0 w') as R1.
    match type of R1 with runs _ _ (Returned ?o) ?e ?l =>
      destruct (reload_all_runs rs o (after w' e l)) as (e2 & l2 & obj & R2 & S2 & _)
    end.
    exists obj. split; [| exact S2].
    eapply runs_outcome. eapply runs_bind; [exact R1 | exact R2].
Qed.

Example getSize_after_failed_reloads :
  exists obj,
    fst (Native.bind (make 64 0) (reload_all [(128, 0, 4096); (32, 0, 4096)]) (start failing)) =
      Returned obj /\
    getSize obj = 32 /\
    printed (Native.bind (make 64 0) (reload_all [(128, 0, 4096); (32, 0, 4096)])) (start failing) =
      ["Error - SSBO - reload: 1285"; "Error - SSBO - reload: 1285"].
Proof. eexists. repeat split. Qed.

End BufferClaims.

Module ForwardingClaims.
Import Observe RunFacts AnswerFacts Forwarding Samples.
Import GLSLProgram.

Lemma to_signed_range bits x : 0 < bits -> is_signed bits (to_signed bits x).
Proof.
  intros Hb. unfold is_signed, to_signed.
  assert (Hp : 2 ^ bits = 2 * 2 ^ (bits - 1)).
  { replace bits with (Z.succ (bits - 1)) at 1 by lia. apply Z.pow_succ_r. lia. }
  assert (Hq : 0 < 2 ^ (bits - 1)) by (apply Z.pow_pos_nonneg; lia).
  pose proof (Z.mod_pos_bound x (2 ^ bits)) as Hm.
  destruct (Z.ltb_spec (x mod 2 ^ bits) (2 ^ (bits - 1))); lia.
Qed.

(** A location survives the detour through [GLuint]. *)
Lemma location_roundtrip v : as_GLint (as_GLuint (as_GLint v)) = as_GLint v.
Proof.
  apply (to_signed_to_unsigned 32 (as_GLint v)); [lia |].
  apply to_signed_range. lia.
Qed.

Lemma getUniformLocation_runs prog name w :
  runs (getUniformLocation prog name) w
       (Returned (as_GLuint (uniform_location prog name w)))
       (answers_in w [lookup prog name]) [].
Proof.
  unfold getUniformLocation, uniform_location, lookup.
  eapply runs_as.
  - eapply runs_then; [apply runs_gl_in | apply runs_pure_in].
  - reflexivity.
  - reflexivity.
Qed.

(** Every [setUniform] overload: the lookup, then the upload [f] at the
    resolved location. *)
Lemma setUniform_calls (f : Z -> GLCall) prog name w :
  map fst (issued (l <- getUniformLocation prog name ;; call (f (as_GLint l))) w) =
  [lookup prog name; f (uniform_location prog name w)].
Proof.
  assert (R : runs (l <- getUniformLocation prog name ;; call (f (as_GLint l))) w
                   (Returned tt)
                   (answers_in w ([lookup prog name] ++ [f (uniform_location prog name w)]))
                   ([] ++ [])).
  { eapply runs_then; [apply getUniformLocation_runs |].
    unfold uniform_location at 1. rewrite location_roundtrip.
    apply runs_call_in. }
  rewrite (runs_issued _ _ _ _ _ R). apply answers_in_calls.
Qed.

Lemma single_call c w : map fst (issued (call c) w) = [c].
Proof. rewrite (runs_issued _ _ _ _ _ (runs_call_in c w)). apply answers_in_calls. Qed.

Lemma draw_calls vao instance_cnt w :
  map fst (issued (VertexArrayObject.draw vao instance_cnt) w) =
  [glBindVertexArray (VertexArrayObject.m_va_handle vao); draw_call vao instance_cnt;
   glBindVertexArray 0].
Proof.
  assert (R : runs (VertexArrayObject.draw vao instance_cnt) w (Returned tt)
                (answers_in w ([glBindVertexArray (VertexArrayObject.m_va_handle vao)] ++
                               [draw_call vao instance_cnt] ++ [glBindVertexArray 0]))
                ([] ++ [] ++ [])).
  { unfold VertexArrayObject.draw, draw_call.
    eapply runs_then; [apply runs_call_in |].
    eapply runs_then; [| apply runs_call_in].
    destruct (negb (VertexArrayObject.m_index_buffer_name vao =? 0) &&
              negb (VertexArrayObject.m_draw_items_count vao =? 0)); apply runs_call_in. }
  rewrite (runs_issued _ _ _ _ _ R). apply answers_in_calls.
Qed.

(** C5, as the code has it: [use], [bind] and the other binding methods
    issue exactly the one native call on the stored handle; every
    [setUniform] overload issues the location lookup for the given name and
    then exactly the matching upload call at the resolved location with the
    caller's values unchanged (the vector and matrix overloads add the
    count 1 and, for matrices, transpose GL_FALSE); [draw] issues three
    calls: bind, one of the two instanced draw calls, unbind. *)
Theorem forwarding_calls
    (prog : GLSLProgram.t) (vao : VertexArrayObject.t) (tex : Texture2DArray.t)
    (ssbo : ShaderStorageBufferObject.t) (name : string) (v0 v1 v2 v3 : Z)
    (a2 : glm.tvec2) (a3 : glm.tvec3) (a4 : glm.tvec4)
    (m2 : glm.mat2) (m3 : glm.mat3) (m4 : glm.mat4) (index instance_cnt : Z) (w : World) :
  let at_name := lookup prog name in
  let loc := uniform_location prog name w in
  (map fst (issued (use prog) w) = [glUseProgram (m_handle prog)] /\
   map fst (issued (VertexArrayObject.bind vao) w) =
     [glBindVertexArray (VertexArrayObject.m_va_handle vao)] /\
   map fst (issued (Texture2DArray.bindTexture tex) w) =
     [glBindTexture GL_TEXTURE_2D_ARRAY (Texture.m_name (Texture2DArray.base tex))] /\
   map fst (issued (ShaderStorageBufferObject.bind ssbo) w) =
     [glBindBuffer GL_SHADER_STORAGE_BUFFER (ShaderStorageBufferObject.m_handle ssbo)] /\
   map fst (issued (ShaderStorageBufferObject.bind_index ssbo index) w) =
     [glBindBufferBase GL_SHADER_STORAGE_BUFFER index
        (ShaderStorageBufferObject.m_handle ssbo)]) /\
  (map fst (issued (setUniform1f prog name v0) w) = [at_name; glUniform1f loc v0] /\
   map fst (issued (setUniform2f prog name v0 v1) w) = [at_name; glUniform2f loc v0 v1] /\
   map fst (issued (setUniform3f prog name v0 v1 v2) w) =
     [at_name; glUniform3f loc v0 v1 v2] /\
   map fst (issued (setUniform4f prog name v0 v1 v2 v3) w) =
     [at_name; glUniform4f loc v0 v1 v2 v3]) /\
  (map fst (issued (setUniform1i prog name v0) w) = [at_name; glUniform1i loc v0] /\
   map fst (issued (setUniform2i prog name v0 v1) w) = [at_name; glUniform2i loc v0 v1] /\
   map fst (issued (setUniform3i prog name v0 v1 v2) w) =
     [at_name; glUniform3i loc v0 v1 v2] /\
   map fst (issued (setUniform4i prog name v0 v1 v2 v3) w) =
     [at_name; glUniform4i loc v0 v1 v2 v3]) /\
  (map fst (issued (setUniform1ui prog name v0) w) = [at_name; glUniform1ui loc v0] /\
   map fst (issued (setUniform2ui prog name v0 v1) w) = [at_name; glUniform2ui loc v0 v1] /\
   map fst (issued (setUniform3ui prog name v0 v1 v2) w) =
     [at_name; glUniform3ui loc v0 v1 v2] /\
   map fst (issued (setUniform4ui prog name v0 v1 v2 v3) w) =
     [at_name; glUniform4ui loc v0 v1 v2 v3]) /\
  (map fst (issued (setUniform2fv prog name a2) w) =
     [at_name; glUniform2fv loc 1 [glm.x2 a2; glm.y2 a2]] /\
   map fst (issued (setUniform3fv prog name a3) w) =
     [at_name; glUniform3fv loc 1 [glm.x3 a3; glm.y3 a3; glm.z3 a3]] /\
   map fst (issued (setUniform4fv prog name a4) w) =
     [at_name; glUniform4fv loc 1 [glm.x4 a4; glm.y4 a4; glm.z4 a4; glm.w4 a4]] /\
   map fst (issued (setUniform2iv prog name a2) w) =
     [at_name; glUniform2iv loc 1 [glm.x2 a2; glm.y2 a2]] /\
   map fst (issued (setUniform3iv prog name a3) w) =
     [at_name; glUniform3iv loc 1 [glm.x3 a3; glm.y3 a3; glm.z3 a3]] /\
   map fst (issued (setUniform4iv prog name a4) w) =
     [at_name; glUniform4iv loc 1 [glm.x4 a4; glm.y4 a4; glm.z4 a4; glm.w4 a4]]) /\
  (map fst (issued (setUniformMatrix2fv prog name m2) w) =
     [at_name; glUniformMatrix2fv loc 1 GL_FALSE (glm.value_ptr_mat2 m2)] /\
   map fst (issued (setUniformMatrix3fv prog name m3) w) =
     [at_name; glUniformMatrix3fv loc 1 GL_FALSE (glm.value_ptr_mat3 m3)] /\
   map fst (issued (setUniformMatrix4fv prog name m4) w) =
     [at_name; glUniformMatrix4fv loc 1 GL_FALSE (glm.value_ptr_mat4 m4)]) /\
  map fst (issued (VertexArrayObject.draw vao instance_cnt) w) =
    [glBindVertexArray (VertexArrayObject.m_va_handle vao); draw_call vao instance_cnt;
     glBindVertexArray 0].
Proof.
  intros at_name loc. subst at_name loc.
  repeat split; try apply single_call; try apply draw_calls.
  - exact (setUniform_calls (fun l => glUniform1f l v0) prog name w).
  - exact (setUniform_calls (fun l => glUniform2f l v0 v1) prog name w).
  - exact (setUniform_calls (fun l => glUniform3f l v0 v1 v2) prog name w).
  - exact (setUniform_calls (fun l => glUniform4f l v0 v1 v2 v3) prog name w).
  - exact (setUniform_calls (fun l => glUniform1i l v0) prog name w).
  - exact (setUniform_calls (fun l => glUniform2i l v0 v1) prog name w).
  - exact (setUniform_calls (fun l => glUniform3i l v0 v1 v2) prog name w).
  - exact (setUniform_calls (fun l => glUniform4i l v0 v1 v2 v3) prog name w).
  - exact (setUniform_calls (fun l => glUniform1ui l v0) prog name w).
  - exact (setUniform_calls (fun l => glUniform2ui l v0 v1) prog name w).
  - exact (setUniform_calls (fun l => glUniform3ui l v0 v1 v2) prog name w).
  - exact (setUniform_calls (fun l => glUniform4ui l v0 v1 v2 v3) prog name w).
  - exact (setUniform_calls (fun l => glUniform2fv l 1 (glm.value_ptr2 a2)) prog name w).
  - exact (setUniform_calls (fun l => glUniform3fv l 1 (glm.value_ptr3 a3)) prog name w).
  - exact (setUniform_calls (fun l => glUniform4fv l 1 (glm.value_ptr4 a4)) prog name w).
  - exact (setUniform_calls (fun l => glUniform2iv l 1 (glm.value_ptr2 a2)) prog name w).
  - exact (setUniform_calls (fun l => glUniform3iv l 1 (glm.value_ptr3 a3)) prog name w).
  - exact (setUniform_calls (fun l => glUniform4iv l 1 (glm.value_ptr4 a4)) prog name w).
  - exact (setUniform_calls (fun l => glUniformMatrix2fv l 1 GL_FALSE (glm.value_ptr_mat2 m2))
             prog name w).
  - exact (setUniform_calls (fun l => glUniformMatrix3fv l 1 GL_FALSE (glm.value_ptr_mat3 m3))
             prog name w).
  - exact (setUniform_calls (fun l => glUniformMatrix4fv l 1 GL_FALSE (glm.value_ptr_mat4 m4))
             prog name w).
Qed.

(** C5 as stated fails: [draw] is a public method and issues three native
    calls, not one. *)
Lemma draw_is_not_a_single_call :
  ~ single_forwarding_call (VertexArrayObject.draw indexed_mesh 1) (start quiet).
Proof. intros [c H]. vm_compute in H. discriminate H. Qed.

Example draw_indexed_mesh :
  map fst (issued (VertexArrayObject.draw indexed_mesh 1) (start quiet)) =
  [glBindVertexArray 5; glDrawElementsInstanced GL_TRIANGLES 36 GL_UNSIGNED_INT 0 1;
   glBindVertexArray 0].
Proof. reflexivity. Qed.

(** A uniform the driver does not know has location -1; it reaches the
    upload call as -1. *)
Example setUniform_unknown_name :
  map fst (issued (setUniform1f (GLSLProgram.mk 3 "") "mvp" 0x3F800000)
             (start (fun _ _ => mkOut (-1) ""))) =
  [glGetUniformLocation 3 "mvp"; glUniform1f (-1) 0x3F800000].
Proof. reflexivity. Qed.

End ForwardingClaims.

Module ProgramFacts.
Import Observe RunFacts AnswerFacts ProgramSequence.
Import GLSLProgram.

(** Running a computation one native call at a time. *)
Lemma bind_gl {B} c (k : GLOut -> M B) w :
  Native.bind (gl c) k w = k (driver w (calls w) c) (after w (answers_in w [c]) []).
Proof. unfold Native.bind. now rewrite (runs_gl_in c w). Qed.

Lemma bind_call {B} c (k : unit -> M B) w :
  Native.bind (call c) k w = k tt (after w (answers_in w [c]) []).
Proof. unfold Native.bind. now rewrite (runs_call_in c w). Qed.

Lemma call_alone c w : call c w = (Returned tt, after w (answers_in w [c]) []).
Proof. apply runs_call_in. Qed.

Lemma bind_pure {A B} (a : A) (k : A -> M B) w : Native.bind (pure a) k w = k a w.
Proof. reflexivity. Qed.

Lemma bind_throw {A B} e (k : A -> M B) w : Native.bind (throw e) k w = (Thrown e, w).
Proof. reflexivity. Qed.

Lemma bind_assoc {A B C} (m : M A) (f : A -> M B) (g : B -> M C) w :
  Native.bind (Native.bind m f) g w = Native.bind m (fun a => Native.bind (f a) g) w.
Proof. unfold Native.bind. destruct (m w) as [[a | e] w1]; reflexivity. Qed.

Lemma clean_app a b : clean a -> clean b -> clean (a ++ b).
Proof. intros Ha Hb. apply Forall_app. now split. Qed.

Lemma clean_plain d cs :
  Forall (fun c => is_status_query c = false) cs ->
  forall history, clean (answers d history cs).
Proof.
  induction 1 as [| c rest Hc _ IH]; intros history; simpl.
  - constructor.
  - constructor; [| apply IH]. unfold is_failure. simpl. now rewrite Hc.
Qed.

Lemma compile_abort_intro w pre_cs shader mid_cs :
  Forall (fun c => is_status_query c = false) pre_cs ->
  Forall (fun c => is_status_query c = false) mid_cs ->
  as_GLint (value (driver w (calls w ++ pre_cs) (glGetShaderiv shader GL_COMPILE_STATUS)))
    = GL_FALSE ->
  compile_abort
    (answers_in w (pre_cs ++ glGetShaderiv shader GL_COMPILE_STATUS :: mid_cs ++
                   [glDeleteShader shader])) shader.
Proof.
  intros Hpre Hmid Hst. unfold compile_abort, answers_in.
  rewrite answers_app. cbn [answers]. rewrite answers_app. cbn [answers].
  do 4 eexists. split; [reflexivity |]. split; [exact Hst |].
  split; now apply clean_plain.
Qed.

Lemma compile_abort_later evs1 evs2 shader :
  clean evs1 -> compile_abort evs2 shader -> compile_abort (evs1 ++ evs2) shader.
Proof.
  intros H1 (pre & o & mid & o' & E & Hst & Hpre & Hmid).
  exists (evs1 ++ pre), o, mid, o'. rewrite E, <- app_assoc.
  split; [reflexivity |]. split; [exact Hst |]. split; [now apply clean_app | exact Hmid].
Qed.

Lemma compile_cases this ty src w :
  src <> "" ->
  (exists cs,
     runs (compileShaderFromString this ty src) w (Returned tt) (answers_in w cs) [] /\
     clean (answers_in w cs)) \/
  (exists cs what shader,
     runs (compileShaderFromString this ty src) w (Thrown (GLSLProgramException what))
          (answers_in w cs) [] /\
     compile_abort (answers_in w cs) shader).
Proof.
  intros Hsrc. unfold runs, compileShaderFromString.
  destruct src as [| ch src']; [contradiction |]. cbn [empty].
  rewrite bind_gl. cbv zeta.
  set (shader := as_GLuint (value (driver w (calls w) (glCreateShader (ShaderType_value ty))))).
  rewrite !bind_call, bind_gl, !after_answers. cbn [app].
  rewrite calls_after, answers_in_calls. cbn [driver after].
  destruct (as_GLint _ =? GL_FALSE) eqn:E.
  - right. apply Z.eqb_eq in E.
    rewrite bind_gl.
    match goal with |- context [if ?c then _ else _] => destruct c end.
    + rewrite bind_assoc, bind_gl, bind_pure, bind_call. unfold throw.
      rewrite !after_answers. cbn [app]. do 3 eexists. split; [reflexivity |].
      apply (compile_abort_intro w
               [glCreateShader (ShaderType_value ty);
                glShaderSource shader 1 (c_str (String ch src')); glCompileShader shader]
               shader [glGetShaderiv shader GL_INFO_LOG_LENGTH; _]);
        [repeat constructor | repeat constructor | exact E].
    + rewrite bind_pure, bind_call. unfold throw.
      rewrite !after_answers. cbn [app]. do 3 eexists. split; [reflexivity |].
      apply (compile_abort_intro w
               [glCreateShader (ShaderType_value ty);
                glShaderSource shader 1 (c_str (String ch src')); glCompileShader shader]
               shader [glGetShaderiv shader GL_INFO_LOG_LENGTH]);
        [repeat constructor | repeat constructor | exact E].
  - left. rewrite bind_call, call_alone, !after_answers. cbn [app].
    eexists. split; [reflexivity |].
    unfold answers_in. cbn [answers]. rewrite <- !app_assoc. cbn [app].
    repeat constructor; unfold is_failure; cbn [fst snd is_status_query andb];
      try reflexivity.
    rewrite E. apply andb_false_r.
Qed.

Lemma compile_empty this ty w :
  runs (compileShaderFromString this ty "") w
       (Thrown (GLSLProgramException "No shader source.")) [] [].
Proof. apply runs_throw. Qed.

Lemma source_dec (src : string) : {src = ""} + {src <> ""}.
Proof. destruct src; [left; reflexivity | right; discriminate]. Qed.

(** The loop over the shader list: it completes, or stops at an empty
    source, or stops at a shader that does not compile. *)
Lemma compile_all_cases this shaderList :
  forall w,
    (Forall (fun shader => snd shader <> "") shaderList /\
     exists evs, runs (compile_all this shaderList) w (Returned tt) evs [] /\ clean evs) \/
    (some_source_empty shaderList /\
     exists evs,
       runs (compile_all this shaderList) w
            (Thrown (GLSLProgramException "No shader source.")) evs [] /\ clean evs) \/
    (exists evs what shader,
       runs (compile_all this shaderList) w (Thrown (GLSLProgramException what)) evs [] /\
       compile_abort evs shader).
Proof.
  induction shaderList as [| [ty src] rest IH]; intros w.
  - left. split; [constructor |]. exists []. split; [apply runs_pure | constructor].
  - unfold compile_all in *. cbn [for_each fst snd].
    destruct (source_dec src) as [-> | Hsrc].
    { right. left. split; [now apply Exists_cons_hd |].
      exists []. split; [| constructor].
      apply runs_bind_thrown. apply compile_empty. }
    destruct (compile_cases this ty src w Hsrc)
      as [(cs & R1 & C1) | (cs & what & shader & R1 & A1)].
    + destruct (IH (after w (answers_in w cs) []))
        as [(Hne & e2 & R2 & C2) | [(Hem & e2 & R2 & C2) | (e2 & what & shader & R2 & A2)]].
      * left. split; [now constructor |].
        exists (answers_in w cs ++ e2). split; [| now apply clean_app].
        eapply runs_seq; [exact R1 | exact R2 | reflexivity | reflexivity].
      * right. left. split; [now apply Exists_cons_tl |].
        exists (answers_in w cs ++ e2). split; [| now apply clean_app].
        eapply runs_seq; [exact R1 | exact R2 | reflexivity | reflexivity].
      * right. right. exists (answers_in w cs ++ e2), what, shader.
        split; [| now apply compile_abort_later].
        eapply runs_seq; [exact R1 | exact R2 | reflexivity | reflexivity].
    + right. right. exists (answers_in w cs), what, shader. split; [| exact A1].
      apply runs_bind_thrown. exact R1.
Qed.

Lemma link_abort_intro w pre_cs program mid_cs :
  Forall (fun c => is_status_query c = false) pre_cs ->
  Forall (fun c => is_status_query c = false) mid_cs ->
  as_GLint (value (driver w (calls w ++ pre_cs) (glGetProgramiv program GL_LINK_STATUS)))
    = GL_FALSE ->
  link_abort (answers_in w (pre_cs ++ glGetProgramiv program GL_LINK_STATUS :: mid_cs)) program.
Proof.
  intros Hpre Hmid Hst. unfold link_abort, answers_in.
  rewrite answers_app. cbn [answers].
  do 3 eexists. split; [reflexivity |]. split; [exact Hst |].
  split; now apply clean_plain.
Qed.

Lemma link_abort_later evs1 evs2 program :
  clean evs1 -> link_abort evs2 program -> link_abort (evs1 ++ evs2) program.
Proof.
  intros H1 (pre & o & mid & E & Hst & Hpre & Hmid).
  exists (evs1 ++ pre), o, mid. rewrite E, <- app_assoc.
  split; [reflexivity |]. split; [exact Hst |]. split; [now apply clean_app | exact Hmid].
Qed.

Lemma link_cases this w :
  (exists evs, runs (link this) w (Returned tt) evs [] /\ clean evs) \/
  (exists evs what,
     runs (link this) w (Thrown (GLSLProgramException what)) evs [] /\
     link_abort evs (m_handle this)).
Proof.
  unfold runs, link.
  rewrite bind_call, bind_gl, !after_answers. cbn [app].
  rewrite calls_after, answers_in_calls. cbn [driver after].
  destruct (as_GLint _ =? GL_FALSE) eqn:E.
  - right. apply Z.eqb_eq in E.
    rewrite bind_gl.
    match goal with |- context [if ?c then _ else _] => destruct c end.
    + rewrite bind_assoc, bind_gl, bind_pure. unfold throw.
      rewrite !after_answers. cbn [app]. do 2 eexists. split; [reflexivity |].
      apply (link_abort_intro w [glLinkProgram (m_handle this)] (m_handle this)
               [glGetProgramiv (m_handle this) GL_INFO_LOG_LENGTH; _]);
        [repeat constructor | repeat constructor | exact E].
    + rewrite bind_pure. unfold throw.
      rewrite !after_answers. cbn [app]. do 2 eexists. split; [reflexivity |].
      apply (link_abort_intro w [glLinkProgram (m_handle this)] (m_handle this)
               [glGetProgramiv (m_handle this) GL_INFO_LOG_LENGTH]);
        [repeat constructor | repeat constructor | exact E].
  - left. unfold pure. eexists. split; [reflexivity |].
    unfold answers_in. cbn [answers]. rewrite <- ?app_assoc. cbn [app].
    repeat constructor; unfold is_failure; cbn [fst snd is_status_query andb];
      try reflexivity.
    rewrite E. apply andb_false_r.
Qed.

Lemma runs_caught {A} (m : M A) h w e r e1 l1 e2 l2 evs lines :
  runs m w (Thrown e) e1 l1 ->
  runs (h e) (after w e1 l1) r e2 l2 ->
  evs = e1 ++ e2 -> lines = l1 ++ l2 ->
  runs (try_catch m h) w r evs lines.
Proof. intros H1 H2 -> ->. eapply runs_catch_thrown; eassumption. Qed.

(** The handler of the constructor: delete the program, rethrow. *)
Lemma rethrow_runs h e w :
  runs (A := unit) (call (glDeleteProgram h) ;;; throw e) w (Thrown e)
       [(glDeleteProgram h, driver w (calls w) (glDeleteProgram h))] [].
Proof.
  eapply runs_seq; [apply runs_call | apply runs_throw | reflexivity | reflexivity].
Qed.

(** The constructor: it returns after clean compiles and a clean link, or
    throws after deleting the program, for one of three reasons. *)
Lemma make_cases shaderList w :
  (Forall (fun shader => snd shader <> "") shaderList /\
   exists body,
     runs (make shaderList) w (Returned (mk (new_program w) ""))
          ((glCreateProgram, driver w (calls w) glCreateProgram) :: body) [] /\
     clean body) \/
  (exists body what o',
     runs (make shaderList) w (Thrown (GLSLProgramException what))
          ((glCreateProgram, driver w (calls w) glCreateProgram) :: body ++
           [(glDeleteProgram (new_program w), o')]) [] /\
     ((some_source_empty shaderList /\ clean body) \/
      (exists shader, compile_abort body shader) \/
      link_abort body (new_program w))).
Proof.
  unfold make. fold (new_program w).
  set (this := mk (new_program w) "").
  set (first := (glCreateProgram, driver w (calls w) glCreateProgram)).
  change (for_each shaderList
            (fun shader (_ : unit) => compileShaderFromString this (fst shader) (snd shader))
            tt) with (compile_all this shaderList).
  assert (Thrown_case : forall body what,
            runs (compile_all this shaderList ;;; link this) (after w [first] [])
                 (Thrown (GLSLProgramException what)) body [] ->
            exists o',
              runs (o <- gl glCreateProgram ;;
                    try_catch (compile_all this shaderList ;;; link this)
                      (fun e => call (glDeleteProgram (m_handle this)) ;;; throw e) ;;;
                    pure this) w (Thrown (GLSLProgramException what))
                   (first :: body ++ [(glDeleteProgram (new_program w), o')]) []).
  { intros body what R. eexists.
    eapply runs_seq; [apply runs_gl | | reflexivity | reflexivity].
    apply runs_bind_thrown.
    eapply runs_caught; [exact R | apply rethrow_runs | reflexivity | reflexivity]. }
  destruct (compile_all_cases this shaderList (after w [first] []))
    as [(Hne & e1 & R1 & C1) | [(Hem & e1 & R1 & C1) | (e1 & what & shader & R1 & A1)]].
  - destruct (link_cases this (after (after w [first] []) e1 []))
      as [(e2 & R2 & C2) | (e2 & what & R2 & A2)].
    + left. split; [exact Hne |]. exists (e1 ++ e2). split; [| now apply clean_app].
      eapply runs_seq; [apply runs_gl | | reflexivity | reflexivity].
      eapply runs_seq.
      { apply runs_catch_returned.
        eapply runs_seq; [exact R1 | exact R2 | reflexivity | reflexivity]. }
      { apply runs_pure. }
      { symmetry. apply app_nil_r. }
      { reflexivity. }
    + right. destruct (Thrown_case (e1 ++ e2) what) as (o' & R).
      { eapply runs_seq; [exact R1 | exact R2 | reflexivity | reflexivity]. }
      exists (e1 ++ e2), what, o'. split; [exact R |].
      right. right. now apply link_abort_later.
  - right. destruct (Thrown_case e1 "No shader source.") as (o' & R).
    { apply runs_bind_thrown. exact R1. }
    exists e1, "No shader source.", o'. split; [exact R |]. left. now split.
  - right. destruct (Thrown_case e1 what) as (o' & R).
    { apply runs_bind_thrown. exact R1. }
    exists e1, what, o'. split; [exact R |]. right. left. now exists shader.
Qed.

(** The two functions by their events. *)
Lemma compile_events this ty src w :
  exists r cs,
    runs (compileShaderFromString this ty src) w r (answers_in w cs) [] /\
    compile_shape (m_handle this) (ShaderType_value ty) src r (answers_in w cs).
Proof.
  unfold compileShaderFromString.
  destruct src as [| ch src']; cbn [empty].
  { exists (Thrown (GLSLProgramException "No shader source.")), [].
    split; [apply runs_throw_in | now constructor]. }
  assert (Hsrc : String ch src' <> "") by discriminate.
  unfold runs. rewrite bind_gl. cbv zeta.
  set (shader := as_GLuint (value (driver w (calls w) (glCreateShader (ShaderType_value ty))))).
  rewrite !bind_call, bind_gl, !after_answers. cbn [app].
  rewrite calls_after, answers_in_calls. cbn [driver after].
  destruct (as_GLint _ =? GL_FALSE) eqn:E.
  - apply Z.eqb_eq in E. rewrite bind_gl.
    rewrite ?calls_after, ?answers_in_calls, <- ?app_assoc; cbn [driver after app].
    match goal with |- context [if 0 <? ?n then _ else _] =>
      set (len := n); destruct (0 <? len) eqn:El end.
    + rewrite bind_assoc, bind_gl, bind_pure, bind_call. unfold throw.
      rewrite !after_answers. cbn [app].
      rewrite ?calls_after, ?answers_in_calls, <- ?app_assoc; cbn [driver after app].
      do 2 eexists. split; [reflexivity |].
      unfold answers_in. cbn [answers]. rewrite <- !app_assoc. cbn [app].
      refine (compile_rejected _ _ _ _ _ _ _ _ _ [(_, _); (_, _)] Hsrc E
                (log_read _ _ _ _ _)).
      apply Z.ltb_lt. exact El.
    + rewrite bind_pure, bind_call. unfold throw.
      rewrite !after_answers. cbn [app].
      do 2 eexists. split; [reflexivity |].
      unfold answers_in. cbn [answers]. rewrite <- !app_assoc. cbn [app].
      refine (compile_rejected _ _ _ _ _ _ _ _ _ [(_, _)] Hsrc E (log_not_read _ _ _ _)).
      apply Z.ltb_ge. exact El.
  - apply Z.eqb_neq in E. rewrite bind_call, call_alone, !after_answers. cbn [app].
    do 2 eexists. split; [reflexivity |].
    unfold answers_in. cbn [answers]. rewrite <- !app_assoc. cbn [app].
    exact (compile_attached _ _ _ _ _ _ _ _ _ Hsrc E).
Qed.

Lemma link_events this w :
  exists r cs,
    runs (link this) w r (answers_in w cs) [] /\
    link_shape (m_handle this) r (answers_in w cs).
Proof.
  unfold runs, link.
  rewrite bind_call, bind_gl, !after_answers. cbn [app].
  rewrite calls_after, answers_in_calls. cbn [driver after].
  destruct (as_GLint _ =? GL_FALSE) eqn:E.
  - apply Z.eqb_eq in E. rewrite bind_gl.
    rewrite ?calls_after, ?answers_in_calls, <- ?app_assoc; cbn [driver after app].
    match goal with |- context [if 0 <? ?n then _ else _] =>
      set (len := n); destruct (0 <? len) eqn:El end.
    + rewrite bind_assoc, bind_gl, bind_pure. unfold throw.
      rewrite !after_answers. cbn [app].
      rewrite ?calls_after, ?answers_in_calls, <- ?app_assoc; cbn [driver after app].
      do 2 eexists. split; [reflexivity |].
      unfold answers_in. cbn [answers]. rewrite <- !app_assoc. cbn [app].
      refine (link_rejected _ _ _ _ [(_, _); (_, _)] E (log_read _ _ _ _ _)).
      apply Z.ltb_lt. exact El.
    + rewrite bind_pure. unfold throw.
      rewrite !after_answers. cbn [app].
      do 2 eexists. split; [reflexivity |].
      unfold answers_in. cbn [answers]. rewrite <- !app_assoc. cbn [app].
      refine (link_rejected _ _ _ _ [(_, _)] E (log_not_read _ _ _ _)).
      apply Z.ltb_ge. exact El.
  - apply Z.eqb_neq in E. unfold pure. do 2 eexists. split; [reflexivity |].
    unfold answers_in. cbn [answers]. rewrite <- ?app_assoc. cbn [app].
    exact (link_done _ _ _ E).
Qed.

Lemma compile_all_events this shaderList :
  forall w,
  exists r cs,
    runs (compile_all this shaderList) w r (answers_in w cs) [] /\
    compiled_until (m_handle this) shaderList r (answers_in w cs).
Proof.
  induction shaderList as [| entry rest IH]; intros w.
  - exists (Returned tt), []. split; [apply runs_pure_in | constructor].
  - unfold compile_all in *. cbn [for_each].
    destruct (compile_events this (fst entry) (snd entry) w) as (r1 & cs1 & R1 & S1).
    destruct r1 as [[] | e].
    + destruct (IH (after w (answers_in w cs1) [])) as (r2 & cs2 & R2 & S2).
      exists r2, (cs1 ++ cs2). split.
      * eapply runs_as; [eapply runs_then; [exact R1 | exact R2] | reflexivity | reflexivity].
      * rewrite (answers_in_app w cs1 cs2 []). now apply compiled_next.
    + exists (Thrown e), cs1. split; [apply runs_stop; exact R1 | now apply compiled_stop].
Qed.

(** The constructor by its events. *)
Lemma make_events shaderList w :
  exists r body,
    runs (make shaderList) w r (answers_in w (glCreateProgram :: body)) [] /\
    construction_shape (new_program w) shaderList r
      (answers_in (after w (answers_in w [glCreateProgram]) []) body).
Proof.
  unfold make. fold (new_program w). set (this := mk (new_program w) "").
  change (for_each shaderList
            (fun shader (_ : unit) => compileShaderFromString this (fst shader) (snd shader))
            tt) with (compile_all this shaderList).
  set (w1 := after w (answers_in w [glCreateProgram]) []).
  assert (Rethrow : forall e body',
            runs (compile_all this shaderList ;;; link this) w1
                 (Thrown e) (answers_in w1 body') [] ->
            runs (o <- gl glCreateProgram ;;
                  try_catch (compile_all this shaderList ;;; link this)
                    (fun e => call (glDeleteProgram (m_handle this)) ;;; throw e) ;;;
                  pure this) w (Thrown e)
                 (answers_in w (glCreateProgram :: body' ++ [glDeleteProgram (new_program w)]))
                 []).
  { intros e body' R.
    eapply (runs_as _ _ _ _ ([glCreateProgram] ++ body' ++ [glDeleteProgram (new_program w)]));
      [| reflexivity | reflexivity].
    eapply (runs_then _ _ _ _ _ _ _ [] []); [apply runs_gl_in |].
    apply runs_stop.
    rewrite (answers_in_app _ body' [glDeleteProgram (new_program w)] []).
    eapply runs_caught; [exact R | | reflexivity | reflexivity].
    eapply (runs_as _ _ _ _ ([glDeleteProgram (new_program w)] ++ []));
      [| reflexivity | reflexivity].
    eapply (runs_then _ _ _ _ _ _ _ [] []); [apply runs_call_in | apply runs_throw_in]. }
  destruct (compile_all_events this shaderList w1) as (r1 & cs1 & R1 & S1).
  destruct r1 as [[] | e].
  - destruct (link_events this (after w1 (answers_in w1 cs1) [])) as (r2 & cs2 & R2 & S2).
    destruct r2 as [[] | e].
    + exists (Returned this), (cs1 ++ cs2). split.
      * eapply (runs_as _ _ _ _ ([glCreateProgram] ++ (cs1 ++ cs2) ++ []));
          [| now rewrite app_nil_r | reflexivity].
        eapply (runs_then _ _ _ _ _ _ _ [] []); [apply runs_gl_in |].
        eapply (runs_then _ _ _ _ _ _ _ [] []); [| apply runs_pure_in].
        apply runs_catch_returned.
        eapply (runs_then _ _ _ _ _ _ _ [] []); [exact R1 | exact R2].
      * rewrite (answers_in_app w1 cs1 cs2 []). now apply constructed.
    + exists (Thrown e), ((cs1 ++ cs2) ++ [glDeleteProgram (new_program w)]). split.
      * apply Rethrow.
        eapply (runs_then _ _ _ _ _ _ _ [] []); [exact R1 | exact R2].
      * rewrite <- app_assoc, (answers_in_app w1 cs1 _ []), (answers_in_app _ cs2 _ []).
        exact (link_aborted _ _ _ _ _ _ S1 S2).
  - exists (Thrown e), (cs1 ++ [glDeleteProgram (new_program w)]). split.
    + apply Rethrow. apply runs_stop. exact R1.
    + rewrite (answers_in_app w1 cs1 _ []). exact (compile_aborted _ _ _ _ _ S1).
Qed.

End ProgramFacts.

Module ProgramClaims.
Import Observe RunFacts AnswerFacts ProgramSequence ProgramFacts.
Import GLSLProgram.

Lemma clean_no_failure evs e : clean evs -> In e evs -> is_failure e = false.
Proof. intros H. unfold clean in H. rewrite Forall_forall in H. apply H. Qed.

Lemma compile_failure_event shader o :
  as_GLint (value o) = GL_FALSE ->
  is_failure (glGetShaderiv shader GL_COMPILE_STATUS, o) = true.
Proof. intros H. unfold is_failure. simpl. rewrite H. reflexivity. Qed.

Lemma link_failure_event program o :
  as_GLint (value o) = GL_FALSE ->
  is_failure (glGetProgramiv program GL_LINK_STATUS, o) = true.
Proof. intros H. unfold is_failure. simpl. rewrite H. reflexivity. Qed.

Lemma clean_not_failed evs : clean evs -> ~ compile_failed evs /\ ~ link_failed evs.
Proof.
  intros H. split.
  - intros (shader & o & Hin & Hst).
    pose proof (clean_no_failure _ _ H Hin) as Hf.
    rewrite (compile_failure_event _ _ Hst) in Hf. discriminate Hf.
  - intros (program & o & Hin & Hst).
    pose proof (clean_no_failure _ _ H Hin) as Hf.
    rewrite (link_failure_event _ _ Hst) in Hf. discriminate Hf.
Qed.

Lemma clean_ends first body final :
  is_failure first = false -> clean body -> is_failure final = false ->
  clean (first :: body ++ [final]).
Proof.
  intros H1 H2 H3. constructor; [exact H1 |]. apply clean_app; [exact H2 |].
  constructor; [exact H3 | constructor].
Qed.

(** In a run that ends in a failed compilation of [shader], the only
    failed compile-status query is the one on [shader]. *)
Lemma compile_abort_unique first body final shader shader' o :
  is_failure first = false -> is_failure final = false ->
  compile_abort body shader ->
  In (glGetShaderiv shader' GL_COMPILE_STATUS, o) (first :: body ++ [final]) ->
  as_GLint (value o) = GL_FALSE ->
  shader' = shader.
Proof.
  intros H1 H3 (pre & o0 & mid & o' & E & Hst & Hpre & Hmid) Hin Hfail.
  pose proof (compile_failure_event shader' o Hfail) as Hf.
  assert (Hno : forall evs, clean evs ->
                            ~ In (glGetShaderiv shader' GL_COMPILE_STATUS, o) evs).
  { intros evs Hc Hi. rewrite (clean_no_failure _ _ Hc Hi) in Hf. discriminate Hf. }
  destruct Hin as [Hin | Hin]; [rewrite Hin in H1; congruence |].
  apply in_app_or in Hin. destruct Hin as [Hin | [Hin | []]];
    [| rewrite Hin in H3; congruence].
  rewrite E in Hin. apply in_app_or in Hin.
  destruct Hin as [Hin | [Hin | Hin]].
  - exfalso. exact (Hno _ Hpre Hin).
  - injection Hin as Hs _. now symmetry.
  - apply in_app_or in Hin. destruct Hin as [Hin | [Hin | []]].
    + exfalso. exact (Hno _ Hmid Hin).
    + discriminate Hin.
Qed.

Lemma link_abort_no_compile_failure first body final program shader o :
  is_failure first = false -> is_failure final = false ->
  link_abort body program ->
  In (glGetShaderiv shader GL_COMPILE_STATUS, o) (first :: body ++ [final]) ->
  as_GLint (value o) = GL_FALSE -> False.
Proof.
  intros H1 H3 (pre & o0 & mid & E & Hst & Hpre & Hmid) Hin Hfail.
  pose proof (compile_failure_event shader o Hfail) as Hf.
  assert (Hno : forall evs, clean evs ->
                            ~ In (glGetShaderiv shader GL_COMPILE_STATUS, o) evs).
  { intros evs Hc Hi. rewrite (clean_no_failure _ _ Hc Hi) in Hf. discriminate Hf. }
  destruct Hin as [Hin | Hin]; [rewrite Hin in H1; congruence |].
  apply in_app_or in Hin. destruct Hin as [Hin | [Hin | []]];
    [| rewrite Hin in H3; congruence].
  rewrite E in Hin. apply in_app_or in Hin.
  destruct Hin as [Hin | [Hin | Hin]].
  - exact (Hno _ Hpre Hin).
  - discriminate Hin.
  - exact (Hno _ Hmid Hin).
Qed.

(** The constructor by its outcome: when it throws, and what it deletes
    before it does. *)
Lemma make_failure_cases (shaderList : ShaderSourceList) (w : World) :
  let r := fst (make shaderList w) in
  let evs := issued (make shaderList) w in
  (raises_GLSLProgramException r <->
   some_source_empty shaderList \/ compile_failed evs \/ link_failed evs) /\
  (r = Returned (mk (new_program w) "") \/ raises_GLSLProgramException r) /\
  (raises_GLSLProgramException r ->
   exists pre o, evs = pre ++ [(glDeleteProgram (new_program w), o)]) /\
  (forall shader o,
     In (glGetShaderiv shader GL_COMPILE_STATUS, o) evs ->
     as_GLint (value o) = GL_FALSE ->
     exists pre o1 o2,
       evs = pre ++ [(glDeleteShader shader, o1); (glDeleteProgram (new_program w), o2)]).
Proof.
  intros r evs. subst r evs.
  destruct (make_cases shaderList w)
    as [(Hne & body & R & C) | (body & what & o' & R & Why)];
    rewrite (runs_outcome _ _ _ _ _ R), (runs_issued _ _ _ _ _ R).
  - assert (Call : clean ((glCreateProgram, driver w (calls w) glCreateProgram) :: body)).
    { constructor; [reflexivity | exact C]. }
    destruct (clean_not_failed _ Call) as [Nc Nl].
    split; [| split; [| split]].
    + split.
      * intros (what & H). discriminate H.
      * intros [He | [Hc | Hl]]; [| contradiction | contradiction].
        exfalso. unfold some_source_empty in He. apply Exists_exists in He.
        destruct He as (s & Hin & Hs). rewrite Forall_forall in Hne. exact (Hne s Hin Hs).
    + left. reflexivity.
    + intros (what & H). discriminate H.
    + intros shader o Hin Hst. exfalso. apply Nc. now exists shader, o.
  - assert (Raises : raises_GLSLProgramException
                       (Thrown (A := t) (GLSLProgramException what))).
    { now exists what. }
    split; [| split; [| split]].
    + split; [| intros _; exact Raises]. intros _.
      destruct Why as [[He _] | [(shader & pre & o & mid & o1 & E & Hst & _) | A]].
      * now left.
      * right. left. exists shader, o. split; [| exact Hst].
        right. apply in_or_app. left. rewrite E. apply in_or_app. right. now left.
      * right. right. destruct A as (pre & o & mid & E & Hst & _).
        exists (new_program w), o. split; [| exact Hst].
        right. apply in_or_app. left. rewrite E. apply in_or_app. right. now left.
    + right. exact Raises.
    + intros _. exists ((glCreateProgram, driver w (calls w) glCreateProgram) :: body), o'.
      reflexivity.
    + intros shader o Hin Hst.
      destruct Why as [[_ C] | [(shader' & A) | A]].
      * exfalso.
        assert (Call : clean ((glCreateProgram, driver w (calls w) glCreateProgram) ::
                              body ++ [(glDeleteProgram (new_program w), o')])).
        { apply clean_ends; [reflexivity | exact C | reflexivity]. }
        destruct (clean_not_failed _ Call) as [Nc _]. apply Nc. now exists shader, o.
      * assert (shader = shader').
        { eapply compile_abort_unique; [| | exact A | exact Hin | exact Hst]; reflexivity. }
        subst shader'. destruct A as (pre & o0 & mid & o1 & E & _).
        exists ((glCreateProgram, driver w (calls w) glCreateProgram) ::
                pre ++ (glGetShaderiv shader GL_COMPILE_STATUS, o0) :: mid), o1, o'.
        rewrite E. cbn [app]. f_equal. rewrite <- !app_assoc. cbn [app].
        rewrite <- app_assoc. reflexivity.
      * exfalso.
        eapply link_abort_no_compile_failure; [| | exact A | exact Hin | exact Hst];
          reflexivity.
Qed.


(** C4: the constructor creates the program and then compiles the
    shaders of the list in order: each one is created, given its source,
    compiled and asked for its compile status, and then attached and
    deleted.  It stops and throws at the first empty source and at the
    first compile status GL_FALSE; otherwise it links and asks for the
    link status, and throws if that is GL_FALSE.  So it throws a
    GLSLProgramException exactly when some shader source is empty, some
    compile-status query is answered GL_FALSE, or the link-status query is
    answered GL_FALSE, and returns the program otherwise.  When it throws,
    deleting the created program is its last native call, and a shader
    whose compilation failed is deleted right before that, before its
    exception leaves [compileShaderFromString].  Every event carries the
    driver's own answer. *)
Theorem make_raises_iff_failure (shaderList : ShaderSourceList) (w : World) :
  let r := fst (make shaderList w) in
  let evs := issued (make shaderList) w in
  (raises_GLSLProgramException r <->
   some_source_empty shaderList \/ compile_failed evs \/ link_failed evs) /\
  (r = Returned (mk (new_program w) "") \/ raises_GLSLProgramException r) /\
  (raises_GLSLProgramException r ->
   exists pre o, evs = pre ++ [(glDeleteProgram (new_program w), o)]) /\
  (forall shader o,
     In (glGetShaderiv shader GL_COMPILE_STATUS, o) evs ->
     as_GLint (value o) = GL_FALSE ->
     exists pre o1 o2,
       evs = pre ++ [(glDeleteShader shader, o1); (glDeleteProgram (new_program w), o2)]) /\
  (exists body,
     evs = (glCreateProgram, driver w (calls w) glCreateProgram) :: body /\
     construction_shape (new_program w) shaderList r body) /\
  answered w evs.
Proof.
  intros r evs.
  destruct (make_failure_cases shaderList w) as (H1 & H2 & H3 & H4).
  split; [exact H1 |]. split; [exact H2 |]. split; [exact H3 |]. split; [exact H4 |].
  subst r evs.
  destruct (make_events shaderList w) as (r & body & R & S).
  rewrite (runs_outcome _ _ _ _ _ R), (runs_issued _ _ _ _ _ R). split.
  - exists (answers_in (after w (answers_in w [glCreateProgram]) []) body).
    split; [| exact S].
    change (glCreateProgram :: body) with ([glCreateProgram] ++ body).
    rewrite (answers_in_app w [glCreateProgram] body []). reflexivity.
  - unfold answered. now rewrite answers_in_calls.
Qed.

Lemma make_raises_iff_failure_witness :
  raises_GLSLProgramException (fst (make vertex_and_fragment (start rejecting_fragment))) /\
  exists pre o1 o2,
    issued (make vertex_and_fragment) (start rejecting_fragment) =
    pre ++ [(glDeleteShader 20, o1); (glDeleteProgram 9, o2)].
Proof.
  destruct (make_raises_iff_failure vertex_and_fragment (start rejecting_fragment))
    as (Iff & _ & _ & Del & _).
  split.
  - apply Iff. right. left. exists 20, (mkOut 0 ""). split; [| reflexivity].
    vm_compute. do 10 right. left. reflexivity.
  - apply (Del 20 (mkOut 0 "")); [| reflexivity].
    vm_compute. do 10 right. left. reflexivity.
Defined.

Example make_compiles_and_links :
  make vertex_and_fragment (start compiling) =
  (Returned (mk 9 ""),
   after (start compiling)
     (answers_in (start compiling)
        [glCreateProgram;
         glCreateShader GL_VERTEX_SHADER; glShaderSource 11 1 "void main(){}";
         glCompileShader 11; glGetShaderiv 11 GL_COMPILE_STATUS; glAttachShader 9 11;
         glDeleteShader 11;
         glCreateShader GL_FRAGMENT_SHADER; glShaderSource 17 1 "void main(){";
         glCompileShader 17; glGetShaderiv 17 GL_COMPILE_STATUS; glAttachShader 9 17;
         glDeleteShader 17;
         glLinkProgram 9; glGetProgramiv 9 GL_LINK_STATUS]) []).
Proof. reflexivity. Qed.

Example source_goes_out_as_c_string :
  map fst (issued (compileShaderFromString (mk 9 "") Vertex
                     (String "a" (String zero "b"))) (start compiling)) =
  [glCreateShader GL_VERTEX_SHADER; glShaderSource 10 1 "a"; glCompileShader 10;
   glGetShaderiv 10 GL_COMPILE_STATUS; glAttachShader 9 10; glDeleteShader 10].
Proof. reflexivity. Qed.

Example make_rejects_empty_source :
  make [(Vertex, "void main(){}"); (Fragment, "")] (start compiling) =
  (Thrown (GLSLProgramException "No shader source."),
   after (start compiling)
     (answers_in (start compiling)
        [glCreateProgram;
         glCreateShader GL_VERTEX_SHADER; glShaderSource 11 1 "void main(){}";
         glCompileShader 11; glGetShaderiv 11 GL_COMPILE_STATUS; glAttachShader 9 11;
         glDeleteShader 11;
         glDeleteProgram 9]) []).
Proof. reflexivity. Qed.

End ProgramClaims.

Module VertexLayoutMore.
Import VertexLayout VertexLayoutFacts VertexLayoutProofs.

Lemma agree_eq (l r : Attribute) : agree l r <-> l = r.
Proof.
  split.
  - destruct l, r. unfold agree. simpl. intros (-> & -> & -> & -> & ->). reflexivity.
  - intros ->. unfold agree. repeat split.
Qed.

Lemma pairwise_agree_eq (la ra : list Attribute) :
  List.length la = List.length ra ->
  (forall i l r, nth_error la i = Some l -> nth_error ra i = Some r -> agree l r) ->
  la = ra.
Proof.
  intros Hlen H. apply nth_error_ext. intros n.
  destruct (nth_error la n) as [l |] eqn:El.
  - destruct (nth_error ra n) as [r |] eqn:Er.
    + f_equal. apply agree_eq. exact (H n l r El Er).
    + apply nth_error_None in Er.
      assert (n < List.length la)%nat by (apply nth_error_Some; congruence). lia.
  - symmetry. apply nth_error_None. apply nth_error_None in El. lia.
Qed.

(** The result of [operator==] is true exactly on layouts with the same
    stride and the same attribute vector. *)
Lemma VertexLayout_eq_true (lhs rhs : t) :
  VertexLayout_eq lhs rhs = Some true <->
  stride lhs = stride rhs /\ attributes lhs = attributes rhs.
Proof.
  rewrite VertexLayout_eq_value. split.
  - intros H. injection H as H. rewrite !andb_true_iff, Z.eqb_eq, Nat.eqb_eq in H.
    destruct H as [[Hs Hl] Hall]. split; [exact Hs |].
    apply (pairwise_agree_eq _ _ Hl). apply (proj1 (all_eq_at _ _ Hl)), Hall.
  - intros [Hs Ha]. f_equal. rewrite !andb_true_iff, Z.eqb_eq, Nat.eqb_eq.
    assert (Hl : List.length (attributes lhs) = List.length (attributes rhs))
      by now rewrite Ha.
    split; [split; assumption |].
    apply (proj2 (all_eq_at _ _ Hl)). intros i l r El Er.
    rewrite Ha in El. apply agree_eq. congruence.
Qed.

Lemma VertexLayout_eq_bool (lhs rhs : t) :
  exists b, VertexLayout_eq lhs rhs = Some b.
Proof. rewrite VertexLayout_eq_value. eexists. reflexivity. Qed.

(** X1: the two [operator==] overloads are equality tests: on attributes,
    [lhs == rhs] is true exactly when the two attributes are equal; on
    layouts it is reflexive, symmetric and transitive, and true exactly
    when rhs is lhs up to the buffer it names. *)
Theorem operator_eq_is_equivalence :
  (forall a b : Attribute, Attribute_eq a b = true <-> a = b) /\
  (forall l : t, VertexLayout_eq l l = Some true) /\
  (forall l r : t, VertexLayout_eq l r = VertexLayout_eq r l) /\
  (forall a b c : t,
     VertexLayout_eq a b = Some true -> VertexLayout_eq b c = Some true ->
     VertexLayout_eq a c = Some true) /\
  (forall l r : t,
     VertexLayout_eq l r = Some true <->
     r = with_buffer l (buffer_name r) (buffer_start_offset r)).
Proof.
  split; [| split; [| split; [| split]]].
  - intros a b. rewrite Attribute_eq_true. apply agree_eq.
  - intros l. apply VertexLayout_eq_true. split; reflexivity.
  - intros l r.
    destruct (VertexLayout_eq_bool l r) as (b1 & E1).
    destruct (VertexLayout_eq_bool r l) as (b2 & E2).
    rewrite E1, E2. f_equal.
    assert (H : b1 = true <-> b2 = true).
    { split; intros ->.
      - apply VertexLayout_eq_true in E1. destruct E1 as [Hs Ha].
        assert (E : VertexLayout_eq r l = Some true)
          by (apply VertexLayout_eq_true; split; congruence).
        congruence.
      - apply VertexLayout_eq_true in E2. destruct E2 as [Hs Ha].
        assert (E : VertexLayout_eq l r = Some true)
          by (apply VertexLayout_eq_true; split; congruence).
        congruence. }
    destruct b1, b2; intuition congruence.
  - intros a b c Hab Hbc. apply VertexLayout_eq_true in Hab, Hbc.
    apply VertexLayout_eq_true. destruct Hab, Hbc. split; congruence.
  - intros l r. rewrite VertexLayout_eq_true. unfold with_buffer. split.
    + intros [Hs Ha]. destruct r. simpl in *. now subst.
    + intros H. rewrite H. simpl. split; reflexivity.
Qed.

Lemma operator_eq_is_equivalence_witness :
  VertexLayout_eq
    (mkVertexLayout 12 0 3 [mkAttribute 3 GL_FLOAT 0 0 GL_FLOAT])
    (mkVertexLayout 12 8 5 [mkAttribute 3 GL_FLOAT 0 0 GL_FLOAT]) = Some true.
Proof.
  destruct operator_eq_is_equivalence as (_ & Hrefl & _ & Htrans & _).
  apply (Htrans _ (mkVertexLayout 12 64 9 [mkAttribute 3 GL_FLOAT 0 0 GL_FLOAT]));
    reflexivity.
Defined.

Lemma computeByteSize_recognized (v : Z) :
  In v recognized_types -> 1 <= computeByteSize v.
Proof.
  unfold recognized_types. intros H.
  repeat (destruct H as [<- | H]; [vm_compute; discriminate |]). destruct H.
Qed.

Lemma recognized_dec (v : Z) : {In v recognized_types} + {~ In v recognized_types}.
Proof. apply in_dec. apply Z.eq_dec. Qed.

(** X2: [computeByteSize] is one of 0, 1, 2, 4, 8, and 0 exactly on the types
    it has no case for; for a recognized type and a component count from 1
    to 4, [computeAttributeByteSize] is the exact product, between 1 and
    32; for any non-negative count it is 0 exactly when the count is 0 or
    the type is not recognized. *)
Theorem byte_size_bounds (v : Z) (a : Attribute) :
  In (computeByteSize v) [0; 1; 2; 4; 8] /\
  (computeByteSize v = 0 <-> ~ In v recognized_types) /\
  (In (type a) recognized_types -> 1 <= size a <= 4 ->
   computeAttributeByteSize a = computeByteSize (type a) * size a /\
   1 <= computeAttributeByteSize a <= 32) /\
  (0 <= size a < 2 ^ 31 ->
   (computeAttributeByteSize a = 0 <-> size a = 0 \/ ~ In (type a) recognized_types)).
Proof.
  assert (Hexact : 0 <= size a < 2 ^ 31 ->
                   computeAttributeByteSize a = computeByteSize (type a) * size a).
  { intros Hs. unfold computeAttributeByteSize, as_size_t, to_unsigned.
    rewrite Z.mul_mod_idemp_r by lia. apply Z.mod_small.
    pose proof (computeByteSize_range (type a)). nia. }
  split; [| split; [| split]].
  - unfold computeByteSize.
    repeat match goal with |- context [?x =? ?y] => destruct (x =? y) end;
      simpl; tauto.
  - split.
    + intros H0 Hin. pose proof (computeByteSize_recognized v Hin). lia.
    + apply computeByteSize_unrecognized.
  - intros Hin Hs. pose proof (computeByteSize_recognized _ Hin) as H1.
    pose proof (computeByteSize_range (type a)) as H8.
    rewrite Hexact by lia. split; [reflexivity | nia].
  - intros Hs. rewrite (Hexact Hs). split.
    + intros H0. destruct (recognized_dec (type a)) as [Hin | Hout]; [| now right].
      left. pose proof (computeByteSize_recognized _ Hin). nia.
    + intros [-> | Hout]; [lia |].
      now rewrite (computeByteSize_unrecognized _ Hout).
Qed.

Lemma byte_size_bounds_witness :
  computeAttributeByteSize (mkAttribute 4 GL_DOUBLE 0 0 GL_DOUBLE) = 32 /\
  computeAttributeByteSize (mkAttribute 0 GL_FLOAT 0 0 GL_FLOAT) = 0.
Proof.
  split.
  - destruct (byte_size_bounds 0 (mkAttribute 4 GL_DOUBLE 0 0 GL_DOUBLE))
      as (_ & _ & H & _).
    destruct H as [H _]; [unfold recognized_types; simpl; tauto | simpl; lia |].
    rewrite H. reflexivity.
  - destruct (byte_size_bounds 0 (mkAttribute 0 GL_FLOAT 0 0 GL_FLOAT))
      as (_ & _ & _ & H).
    apply H; [simpl; lia | left; reflexivity].
Defined.

End VertexLayoutMore.

Module VertexArrayLifetimeFacts.
Import VertexLayout Observe RunFacts AnswerFacts ConstructionSequence IssuedSequence.
Import VertexArrayFacts VertexArrayRuns Forwarding Samples.
Import VertexArrayObject VertexArrayLifetime.

Lemma draw_runs vao instance_cnt w :
  runs (draw vao instance_cnt) w (Returned tt)
       (answers_in w [glBindVertexArray (m_va_handle vao); draw_call vao instance_cnt;
                      glBindVertexArray 0]) [].
Proof.
  unfold draw, draw_call.
  destruct (negb (m_index_buffer_name vao =? 0) && negb (m_draw_items_count vao =? 0));
    (eapply runs_as;
     [ eapply runs_then; [apply runs_call_in |];
       eapply runs_then; [apply runs_call_in | apply runs_call_in]
     | reflexivity | reflexivity ]).
Qed.

Lemma destroy_runs vao w :
  runs (destroy vao) w (Returned tt) (answers_in w [glDeleteVertexArrays 1 (m_va_handle vao)]) [].
Proof. apply runs_call_in. Qed.

(** The constructor always ends, with the calls it issued recorded. *)
Lemma make_runs_any descr cnt ibn idt prim w :
  exists r evs, runs (make descr cnt ibn idt prim) w r evs [].
Proof.
  destruct (valid_or_invalid descr) as [Hv | Hi].
  - destruct (make_valid descr cnt ibn idt prim w Hv) as (pre & _ & R). eauto.
  - destruct (make_invalid descr cnt ibn idt prim w Hi) as (evs & R & _). eauto.
Qed.

Lemma make_returns_object descr cnt ibn idt prim w this :
  fst (make descr cnt ibn idt prim w) = Returned this ->
  this = mk (new_vertex_array w) descr prim cnt idt ibn.
Proof.
  intros Hr. destruct (valid_or_invalid descr) as [Hv | Hi].
  - destruct (make_valid descr cnt ibn idt prim w Hv) as (pre & _ & R).
    rewrite (runs_outcome _ _ _ _ _ R) in Hr. unfold make_outcome in Hr.
    destruct (_ =? GL_NO_ERROR) in Hr; [| discriminate Hr]. now injection Hr as <-.
  - destruct (make_invalid descr cnt ibn idt prim w Hi) as (evs & R & _).
    rewrite (runs_outcome _ _ _ _ _ R) in Hr. discriminate Hr.
Qed.

Lemma swap_pair (x y : t) : swap x y = (y, x).
Proof. destruct x, y. reflexivity. Qed.

(** X3: [swap] exchanges all six members, so move construction hands the
    whole object over and leaves the default members (handle 0) behind,
    and move assignment exchanges the two objects. *)
Theorem swap_exchanges_all_members (this other : t) :
  swap this other = (other, this) /\
  move_construct other = (other, default) /\
  move_assign this other = (other, this) /\
  (let '(a, b) := swap this other in swap a b) = (this, other).
Proof.
  unfold move_construct, move_assign. rewrite !swap_pair. repeat split.
Qed.

(** X4: when the constructor returns, [draw] follows it with bind, one
    draw call and unbind on the driver's handle; the draw call is
    glDrawArraysInstanced from vertex 0 unless both an index buffer and a
    non-zero item count were given.  When the constructor throws, the
    exception passes on and nothing is bound or drawn. *)
Theorem draw_after_construction
    (descr : list VertexLayout.t) (cnt ibn idt prim instance_cnt : Z) (w : World) :
  (forall this,
     fst (make descr cnt ibn idt prim w) = Returned this ->
     fst (make_and_draw descr cnt ibn idt prim instance_cnt w) = Returned tt /\
     map fst (issued (make_and_draw descr cnt ibn idt prim instance_cnt) w) =
       map fst (issued (make descr cnt ibn idt prim) w) ++
       [glBindVertexArray (new_vertex_array w);
        (if negb (ibn =? 0) && negb (cnt =? 0)
         then glDrawElementsInstanced prim cnt idt 0 instance_cnt
         else glDrawArraysInstanced prim 0 cnt instance_cnt);
        glBindVertexArray 0]) /\
  (forall e,
     fst (make descr cnt ibn idt prim w) = Thrown e ->
     fst (make_and_draw descr cnt ibn idt prim instance_cnt w) = Thrown e /\
     issued (make_and_draw descr cnt ibn idt prim instance_cnt) w =
       issued (make descr cnt ibn idt prim) w).
Proof.
  destruct (make_runs_any descr cnt ibn idt prim w) as (r & evs & R).
  rewrite (runs_outcome _ _ _ _ _ R), (runs_issued _ _ _ _ _ R). split.
  - intros this Hr. subst r.
    pose proof (make_returns_object descr cnt ibn idt prim w this) as Hobj.
    rewrite (runs_outcome _ _ _ _ _ R) in Hobj. specialize (Hobj eq_refl). subst this.
    pose proof (runs_bind _ (fun this => draw this instance_cnt) _ _ _ _ _ _ _ R
                  (draw_runs _ instance_cnt _)) as R2.
    unfold make_and_draw. rewrite (runs_outcome _ _ _ _ _ R2), (runs_issued _ _ _ _ _ R2).
    split; [reflexivity |]. rewrite map_app, answers_in_calls. reflexivity.
  - intros e Hr. subst r.
    pose proof (runs_bind_thrown _ (fun this => draw this instance_cnt) _ _ _ _ R) as R2.
    unfold make_and_draw. rewrite (runs_outcome _ _ _ _ _ R2), (runs_issued _ _ _ _ _ R2).
    split; reflexivity.
Qed.

Lemma draw_after_construction_witness :
  map fst (issued (make_and_draw three_buffers 0 7 GL_UNSIGNED_INT GL_TRIANGLES 1)
             (start quiet)) =
    map fst (issued (make three_buffers 0 7 GL_UNSIGNED_INT GL_TRIANGLES) (start quiet)) ++
    [glBindVertexArray 5; glDrawArraysInstanced GL_TRIANGLES 0 0 1; glBindVertexArray 0] /\
  fst (make_and_draw byte_colour 36 7 GL_UNSIGNED_INT GL_TRIANGLES 1 (start quiet)) =
    Thrown (MeshException invalid_input_type).
Proof.
  split.
  - destruct (draw_after_construction three_buffers 0 7 GL_UNSIGNED_INT GL_TRIANGLES 1
                (start quiet)) as (H & _).
    destruct (H (mk 5 three_buffers GL_TRIANGLES 0 GL_UNSIGNED_INT 7) eq_refl) as (_ & Hc).
    exact Hc.
  - destruct (draw_after_construction byte_colour 36 7 GL_UNSIGNED_INT GL_TRIANGLES 1
                (start quiet)) as (_ & H).
    destruct (H (MeshException invalid_input_type) eq_refl) as (Ht & _). exact Ht.
Defined.

(** X5: an object the constructor returns answers its getters with the
    constructor's arguments and the driver's handle; [getDrawItemsCount]
    hands the signed count out as a GLuint, so it is the count itself only
    when that is not negative. *)
Theorem getters_after_construction
    (descr : list VertexLayout.t) (cnt ibn idt prim : Z) (w : World)
    (this : VertexArrayObject.t) :
  fst (make descr cnt ibn idt prim w) = Returned this ->
  getHandle this = new_vertex_array w /\
  getPrimitiveType this = prim /\
  getIndexType this = idt /\
  getDrawItemsCount this = cnt mod 2 ^ 32 /\
  (0 <= cnt < 2 ^ 31 -> getDrawItemsCount this = cnt) /\
  (- 2 ^ 31 <= cnt < 0 -> getDrawItemsCount this = cnt + 2 ^ 32).
Proof.
  intros Hr. apply make_returns_object in Hr. subst this.
  unfold getHandle, getPrimitiveType, getIndexType, getDrawItemsCount, as_GLuint, to_unsigned.
  simpl. repeat split.
  - intros H. apply Z.mod_small. lia.
  - intros H. symmetry. apply Z.mod_unique with (q := -1); lia.
Qed.

Lemma getters_after_construction_witness :
  getDrawItemsCount (mk 5 three_buffers GL_TRIANGLES (-1) GL_UNSIGNED_INT 7) = 4294967295 /\
  getHandle (mk 5 three_buffers GL_TRIANGLES (-1) GL_UNSIGNED_INT 7) = 5.
Proof.
  destruct (getters_after_construction three_buffers (-1) 7 GL_UNSIGNED_INT GL_TRIANGLES
              (start quiet) (mk 5 three_buffers GL_TRIANGLES (-1) GL_UNSIGNED_INT 7) eq_refl)
    as (Hh & _ & _ & _ & _ & Hn).
  split; [| exact Hh]. rewrite Hn; [reflexivity | simpl; lia].
Defined.

Lemma filter_none {A} (p : A -> bool) (cs : list A) :
  Forall (fun c => p c = false) cs -> filter p cs = [].
Proof.
  induction 1 as [| c cs Hc _ IH]; simpl; [reflexivity |]. now rewrite Hc.
Qed.

Lemma format_call_no_delete h idx a :
  Forall (fun c => is_live_delete c = false) (format_call h idx a).
Proof.
  unfold format_call.
  repeat match goal with |- context [if ?b then _ else _] => destruct b end;
    repeat constructor.
Qed.

Lemma attribute_calls_no_delete h j attrs :
  forall idx, Forall (fun c => is_live_delete c = false) (attribute_calls_u32 h j idx attrs).
Proof.
  induction attrs as [| a rest IH]; intros idx; simpl.
  - constructor.
  - constructor; [reflexivity |]. apply Forall_app. split.
    + apply format_call_no_delete.
    + constructor; [reflexivity | apply IH].
Qed.

Lemma layout_calls_no_delete h descr :
  forall j idx, Forall (fun c => is_live_delete c = false) (layout_calls_u32 h j idx descr).
Proof.
  induction descr as [| l rest IH]; intros j idx; simpl.
  - constructor.
  - constructor; [reflexivity |]. apply Forall_app. split.
    + apply attribute_calls_no_delete.
    + apply IH.
Qed.

(** X6: over a whole life with one move (construct, move, destroy the
    moved-from object, draw, destroy), the moved-from destructor deletes
    only the name 0, and the vertex array the driver created is deleted
    once, as the last call. *)
Theorem moved_vertex_array_deleted_once
    (descr : list VertexLayout.t) (cnt ibn idt prim instance_cnt : Z) (w : World)
    (this : VertexArrayObject.t) :
  fst (make descr cnt ibn idt prim w) = Returned this ->
  fst (make_move_draw_destroy descr cnt ibn idt prim instance_cnt w) = Returned tt /\
  map fst (issued (make_move_draw_destroy descr cnt ibn idt prim instance_cnt) w) =
    map fst (issued (make descr cnt ibn idt prim) w) ++
    [glDeleteVertexArrays 1 0;
     glBindVertexArray (new_vertex_array w); draw_call this instance_cnt;
     glBindVertexArray 0;
     glDeleteVertexArrays 1 (new_vertex_array w)] /\
  List.length (filter is_live_delete
                 (map fst (issued (make_move_draw_destroy descr cnt ibn idt prim instance_cnt)
                             w))) =
    (if new_vertex_array w =? 0 then 0%nat else 1%nat).
Proof.
  intros Hr. pose proof (make_returns_object _ _ _ _ _ _ _ Hr) as Hobj.
  destruct (valid_or_invalid descr) as [Hv | Hi].
  2: { destruct (make_invalid descr cnt ibn idt prim w Hi) as (evs & R & _).
       rewrite (runs_outcome _ _ _ _ _ R) in Hr. discriminate Hr. }
  destruct (make_valid descr cnt ibn idt prim w Hv) as (pre & C & R).
  rewrite (runs_outcome _ _ _ _ _ R) in Hr.
  match type of R with runs _ _ ?r ?e _ => set (evs := e) in *; set (r0 := r) in * end.
  assert (R1 : runs (make descr cnt ibn idt prim) w (Returned this) evs []).
  { rewrite <- Hr. exact R. }
  assert (R2 : runs (make_move_draw_destroy descr cnt ibn idt prim instance_cnt) w
                 (Returned tt)
                 (evs ++ answers_in (after w evs [])
                           ([glDeleteVertexArrays 1 0] ++
                            [glBindVertexArray (new_vertex_array w);
                             draw_call this instance_cnt; glBindVertexArray 0] ++
                            [glDeleteVertexArrays 1 (new_vertex_array w)])) ([] ++ [])).
  { unfold make_move_draw_destroy. eapply runs_bind; [exact R1 |].
    unfold move_construct. rewrite swap_pair.
    assert (Hh : m_va_handle this = new_vertex_array w) by (rewrite Hobj; reflexivity).
    rewrite <- Hh.
    eapply runs_as;
      [ eapply runs_then; [apply (destroy_runs default) |];
        eapply runs_then; [apply draw_runs | apply destroy_runs]
      | reflexivity | reflexivity ]. }
  rewrite (runs_outcome _ _ _ _ _ R2), !(runs_issued _ _ _ _ _ R2), (runs_issued _ _ _ _ _ R1).
  rewrite map_app, answers_in_calls. split; [reflexivity |]. split; [reflexivity |].
  rewrite filter_app, length_app.
  assert (Z0 : filter is_live_delete (map fst evs) = []).
  { apply filter_none. subst evs. rewrite map_app, C. apply Forall_app. split.
    - constructor; [reflexivity |]. apply Forall_app. split.
      + apply layout_calls_no_delete.
      + unfold element_buffer_call. destruct (ibn =? 0); repeat constructor.
    - repeat constructor. }
  rewrite Z0. cbn [app filter is_live_delete Z.eqb negb List.length Nat.add].
  assert (D : is_live_delete (draw_call this instance_cnt) = false).
  { unfold draw_call. destruct (_ && _); reflexivity. }
  rewrite D. destruct (new_vertex_array w =? 0); reflexivity.
Qed.

Lemma moved_vertex_array_deleted_once_witness :
  map fst (issued (make_move_draw_destroy three_buffers 36 7 GL_UNSIGNED_INT GL_TRIANGLES 2)
             (start quiet)) =
  map fst (issued (make three_buffers 36 7 GL_UNSIGNED_INT GL_TRIANGLES) (start quiet)) ++
  [glDeleteVertexArrays 1 0;
   glBindVertexArray 5; glDrawElementsInstanced GL_TRIANGLES 36 GL_UNSIGNED_INT 0 2;
   glBindVertexArray 0;
   glDeleteVertexArrays 1 5].
Proof.
  exact (proj1 (proj2 (moved_vertex_array_deleted_once three_buffers 36 7 GL_UNSIGNED_INT
                         GL_TRIANGLES 2 (start quiet) indexed_mesh eq_refl))).
Defined.

End VertexArrayLifetimeFacts.

Module ProgramLifetimeFacts.
Import Observe RunFacts AnswerFacts ProgramSequence ProgramFacts ProgramCalls.
Import ProgramLifetime Forwarding.
Import GLSLProgram.

Lemma count_app p a b : count p (a ++ b) = (count p a + count p b)%nat.
Proof. unfold count. now rewrite filter_app, length_app. Qed.

Lemma census_app a b : census (a ++ b) = plus (census a) (census b).
Proof. unfold census, plus. cbn. now rewrite !count_app. Qed.

(** What one [compileShaderFromString] adds to the census. *)
Lemma compile_census h ty src r evs :
  compile_shape h ty src r evs ->
  (r = Returned tt /\ census (map fst evs) = mkCensus 1 1 1 0 0 0) \/
  ((exists what, r = Thrown (GLSLProgramException what)) /\
   (census (map fst evs) = mkCensus 0 0 0 0 0 0 \/
    census (map fst evs) = mkCensus 1 1 0 0 0 0)).
Proof.
  intros [Hs | o1 o2 o3 o4 o5 o6 Hs Hst | o1 o2 o3 o4 o7 what log Hs Hst Hlog].
  - right. split; [eexists; reflexivity | left; reflexivity].
  - left. split; reflexivity.
  - right. split; [eexists; reflexivity | right]. destruct Hlog; reflexivity.
Qed.

(** The loop over the shader list: every shader created is deleted, at
    most one was not attached, and nothing touches the program. *)
Lemma compile_all_census this shaderList :
  forall w,
  exists r cs n k,
    runs (compile_all this shaderList) w r (answers_in w cs) [] /\
    census cs = mkCensus n n k 0 0 0 /\
    (k <= n <= List.length shaderList)%nat /\
    ((r = Returned tt /\ n = List.length shaderList /\ k = n) \/
     (exists what, r = Thrown (GLSLProgramException what))).
Proof.
  induction shaderList as [| [ty src] rest IH]; intros w.
  - exists (Returned tt), [], 0%nat, 0%nat. split; [apply runs_pure_in |].
    split; [reflexivity |]. split; [simpl; lia | left; auto].
  - unfold compile_all in *. cbn [for_each fst snd].
    destruct (compile_events this ty src w) as (r1 & cs1 & R1 & S1).
    destruct (compile_census _ _ _ _ _ S1) as [[-> C1] | [(what & ->) C1]];
      rewrite answers_in_calls in C1.
    + destruct (IH (after w (answers_in w cs1) [])) as (r2 & cs2 & n & k & R2 & C2 & B2 & O2).
      exists r2, (cs1 ++ cs2), (S n), (S k). split; [| split; [| split]].
      * eapply runs_as; [eapply runs_then; [exact R1 | exact R2] | reflexivity | reflexivity].
      * rewrite census_app, C1, C2. reflexivity.
      * simpl. lia.
      * destruct O2 as [(-> & -> & ->) | O2]; [left; auto | right; exact O2].
    + destruct C1 as [C1 | C1].
      * exists (Thrown (GLSLProgramException what)), cs1, 0%nat, 0%nat.
        split; [apply runs_stop; exact R1 |]. split; [exact C1 |].
        split; [simpl; lia | right; eauto].
      * exists (Thrown (GLSLProgramException what)), cs1, 1%nat, 0%nat.
        split; [apply runs_stop; exact R1 |]. split; [exact C1 |].
        split; [simpl; lia | right; eauto].
Qed.

Lemma link_census h r evs :
  link_shape h r evs ->
  census (map fst evs) = mkCensus 0 0 0 0 1 0 /\
  (r = Returned tt \/ exists what, r = Thrown (GLSLProgramException what)).
Proof.
  intros [o1 o2 Hst | o1 o2 what log Hst Hlog].
  - split; [reflexivity | now left].
  - split; [| right; eauto]. destruct Hlog; reflexivity.
Qed.

(** The constructor, by its census: it creates one program; it returns
    after creating, attaching and deleting one shader per list entry and
    linking once, without deleting the program; or it throws after deleting
    the program as its last call, with every shader it created deleted. *)
Lemma make_census shaderList w :
  exists r body n k l,
    runs (make shaderList) w r (answers_in w (glCreateProgram :: body)) [] /\
    (k <= n <= List.length shaderList)%nat /\ (l <= 1)%nat /\
    ((r = Returned (mk (new_program w) "") /\
      census body = mkCensus n n k 0 l 0 /\
      n = List.length shaderList /\ k = n /\ l = 1%nat) \/
     (exists what body',
        r = Thrown (GLSLProgramException what) /\
        body = body' ++ [glDeleteProgram (new_program w)] /\
        census body' = mkCensus n n k 0 l 0)).
Proof.
  unfold make. fold (new_program w). set (this := mk (new_program w) "").
  change (for_each shaderList
            (fun shader (_ : unit) => compileShaderFromString this (fst shader) (snd shader))
            tt) with (compile_all this shaderList).
  set (w1 := after w (answers_in w [glCreateProgram]) []).
  assert (Rethrow : forall what body',
            runs (compile_all this shaderList ;;; link this) w1
                 (Thrown (GLSLProgramException what)) (answers_in w1 body') [] ->
            runs (o <- gl glCreateProgram ;;
                  try_catch (compile_all this shaderList ;;; link this)
                    (fun e => call (glDeleteProgram (m_handle this)) ;;; throw e) ;;;
                  pure this) w (Thrown (GLSLProgramException what))
                 (answers_in w (glCreateProgram :: body' ++ [glDeleteProgram (new_program w)]))
                 []).
  { intros what body' R.
    eapply (runs_as _ _ _ _ ([glCreateProgram] ++ body' ++ [glDeleteProgram (new_program w)]));
      [| reflexivity | reflexivity].
    eapply (runs_then _ _ _ _ _ _ _ [] []); [apply runs_gl_in |].
    apply runs_stop.
    rewrite (answers_in_app _ body' [glDeleteProgram (new_program w)] []).
    eapply runs_caught; [exact R | | reflexivity | reflexivity].
    eapply (runs_as _ _ _ _ ([glDeleteProgram (new_program w)] ++ []));
      [| reflexivity | reflexivity].
    eapply (runs_then _ _ _ _ _ _ _ [] []); [apply runs_call_in | apply runs_throw_in]. }
  destruct (compile_all_census this shaderList w1) as (r1 & cs1 & n & k & R1 & C1 & B1 & O1).
  destruct O1 as [(-> & -> & ->) | (what & ->)].
  - destruct (link_events this (after w1 (answers_in w1 cs1) [])) as (r2 & cs2 & R2 & S2).
    destruct (link_census _ _ _ S2) as (C2 & O2). rewrite answers_in_calls in C2.
    destruct O2 as [-> | (what & ->)].
    + exists (Returned this), (cs1 ++ cs2), (List.length shaderList),
        (List.length shaderList), 1%nat.
      split; [| split; [lia | split; [lia |]]].
      * eapply (runs_as _ _ _ _ ([glCreateProgram] ++ (cs1 ++ cs2) ++ []));
          [| now rewrite app_nil_r | reflexivity].
        eapply (runs_then _ _ _ _ _ _ _ [] []); [apply runs_gl_in |].
        eapply (runs_then _ _ _ _ _ _ _ [] []); [| apply runs_pure_in].
        apply runs_catch_returned.
        eapply (runs_then _ _ _ _ _ _ _ [] []); [exact R1 | exact R2].
      * left. split; [reflexivity |]. rewrite census_app, C1, C2. unfold plus. cbn.
        rewrite ?Nat.add_0_r. auto.
    + exists (Thrown (GLSLProgramException what)),
        ((cs1 ++ cs2) ++ [glDeleteProgram (new_program w)]),
        (List.length shaderList), (List.length shaderList), 1%nat.
      split; [| split; [lia | split; [lia |]]].
      * apply Rethrow.
        eapply (runs_then _ _ _ _ _ _ _ [] []); [exact R1 | exact R2].
      * right. exists what, (cs1 ++ cs2). split; [reflexivity |]. split; [reflexivity |].
        rewrite census_app, C1, C2. unfold plus. cbn. now rewrite ?Nat.add_0_r.
  - exists (Thrown (GLSLProgramException what)), (cs1 ++ [glDeleteProgram (new_program w)]),
      n, k, 0%nat.
    split; [| split; [lia | split; [lia |]]].
    + apply Rethrow. apply runs_stop. exact R1.
    + right. exists what, cs1. auto.
Qed.

Lemma serve_runs this q :
  forall w,
  exists cs,
    runs (serve this q) w (Returned tt) (answers_in w cs) [] /\
    Forall (fun c => of_program (m_handle this) c = true) cs /\
    (List.length cs <= 2)%nat.
Proof.
  intros w.
  destruct q; cbn [serve];
    try (eexists; split;
         [ apply runs_call_in
         | split; [repeat constructor; cbn; apply Z.eqb_refl | simpl; lia] ]);
    (eexists; split;
     [ eapply runs_as;
       [ eapply runs_then;
         [ apply ForwardingClaims.getUniformLocation_runs
         | first [apply runs_call_in | apply runs_pure_in] ]
       | reflexivity | reflexivity ]
     | split; [repeat constructor; cbn; apply Z.eqb_refl | simpl; lia] ]).
Qed.

Lemma serve_all_runs this qs :
  forall w,
  exists cs,
    runs (serve_all this qs) w (Returned tt) (answers_in w cs) [] /\
    Forall (fun c => of_program (m_handle this) c = true) cs /\
    (List.length cs <= 2 * List.length qs)%nat.
Proof.
  induction qs as [| q rest IH]; intros w.
  - exists []. split; [apply runs_pure_in | split; [constructor | simpl; lia]].
  - unfold serve_all in *. cbn [for_each].
    destruct (serve_runs this q w) as (cs1 & R1 & F1 & L1).
    destruct (IH (after w (answers_in w cs1) [])) as (cs2 & R2 & F2 & L2).
    exists (cs1 ++ cs2). split; [| split].
    + eapply runs_as; [eapply runs_then; [exact R1 | exact R2] | reflexivity | reflexivity].
    + apply Forall_app. now split.
    + rewrite length_app. simpl List.length. lia.
Qed.

Lemma of_program_census h cs :
  Forall (fun c => of_program h c = true) cs -> census cs = mkCensus 0 0 0 0 0 0.
Proof.
  induction 1 as [| c cs Hc _ IH]; [reflexivity |].
  change (c :: cs) with ([c] ++ cs). rewrite census_app, IH.
  destruct c; try discriminate Hc; reflexivity.
Qed.

(** X7: [compileShaderFromString] and [link] end in one of the listed
    ways, with exactly the events listed with it, each carrying the
    driver's answer.  An empty source throws without a native call.
    Otherwise a shader is created, and the name the driver answered with
    is given the source as a C string, compiled and asked for its compile
    status; a status other than GL_FALSE is followed by attach and delete
    and the function returns; the status GL_FALSE is followed by the log,
    the deletion of the shader and the exception.  [link] links the
    program and asks for the link status, and on GL_FALSE reads the log
    and throws.  The log text is read only when the length the driver
    answered is positive, into a buffer of that length, and what is read
    back is the message of the exception; otherwise the message is
    empty. *)
Theorem compile_and_link_calls (this : t) (ty : ShaderType) (src : string) (w : World) :
  compile_shape (m_handle this) (ShaderType_value ty) src
    (fst (compileShaderFromString this ty src w))
    (issued (compileShaderFromString this ty src) w) /\
  answered w (issued (compileShaderFromString this ty src) w) /\
  link_shape (m_handle this) (fst (link this w)) (issued (link this) w) /\
  answered w (issued (link this) w).
Proof.
  unfold answered.
  destruct (compile_events this ty src w) as (r & cs & R & S).
  destruct (link_events this w) as (r' & cs' & R' & S').
  rewrite (runs_outcome _ _ _ _ _ R), (runs_issued _ _ _ _ _ R).
  rewrite (runs_outcome _ _ _ _ _ R'), (runs_issued _ _ _ _ _ R').
  rewrite !answers_in_calls. repeat split; assumption.
Qed.

Lemma deletes_created_app a b :
  deletes_created a -> deletes_created b -> deletes_created (a ++ b).
Proof.
  intros Ha Hb type o Hin. rewrite map_app. apply in_or_app.
  apply in_app_or in Hin. destruct Hin as [Hin | Hin]; [left | right]; eauto.
Qed.

Lemma deletes_created_plain evs :
  Forall (fun c => is_create_shader c = false) (map fst evs) -> deletes_created evs.
Proof.
  intros H type o Hin. exfalso.
  rewrite Forall_forall in H. specialize (H (glCreateShader type)).
  assert (Hc : In (glCreateShader type) (map fst evs)).
  { change (glCreateShader type) with (fst (glCreateShader type, o)). now apply in_map. }
  specialize (H Hc). discriminate H.
Qed.

Lemma compile_deletes h ty src r evs :
  compile_shape h ty src r evs -> deletes_created evs.
Proof.
  intros [Hs | o1 o2 o3 o4 o5 o6 Hs Hst | o1 o2 o3 o4 o7 what log Hs Hst Hlog] type o Hin.
  - destruct Hin.
  - cbn in Hin.
    repeat (destruct Hin as [Hin | Hin];
            [try discriminate Hin; injection Hin as _ <-; cbn; tauto |]).
    destruct Hin.
  - destruct Hlog; cbn in Hin;
      repeat (destruct Hin as [Hin | Hin];
              [try discriminate Hin; injection Hin as _ <-; cbn; tauto |]);
      destruct Hin.
Qed.

Lemma compiled_deletes h shaderList r evs :
  compiled_until h shaderList r evs -> deletes_created evs.
Proof.
  induction 1 as [| entry rest r e1 evs S1 _ IH | entry rest e e1 S1].
  - intros type o [].
  - apply deletes_created_app; [exact (compile_deletes _ _ _ _ _ S1) | exact IH].
  - exact (compile_deletes _ _ _ _ _ S1).
Qed.

Lemma link_deletes h r evs : link_shape h r evs -> deletes_created evs.
Proof.
  intros [o1 o2 Hst | o1 o2 what log Hst Hlog]; apply deletes_created_plain.
  - repeat constructor.
  - destruct Hlog; repeat constructor.
Qed.

Lemma construction_deletes h shaderList r evs :
  construction_shape h shaderList r evs -> deletes_created evs.
Proof.
  intros [shaders linking S L | e shaders o S | e shaders linking o S L].
  - apply deletes_created_app; [exact (compiled_deletes _ _ _ _ S) | exact (link_deletes _ _ _ L)].
  - apply deletes_created_app; [exact (compiled_deletes _ _ _ _ S) |].
    apply deletes_created_plain. repeat constructor.
  - apply deletes_created_app; [exact (compiled_deletes _ _ _ _ S) |].
    apply deletes_created_app; [exact (link_deletes _ _ _ L) |].
    apply deletes_created_plain. repeat constructor.
Qed.

(** X8: the constructor creates exactly one program, first of all; every
    shader it creates it also deletes, by the name the driver gave it; it
    creates at most one shader per list entry and links at most once.
    When it returns, it has created and attached one shader per entry,
    linked once and not deleted the program; when it throws, it has
    deleted the program exactly once. *)
Theorem constructor_census (shaderList : ShaderSourceList) (w : World) :
  let cs := map fst (issued (make shaderList) w) in
  hd_error cs = Some glCreateProgram /\
  programs (census cs) = 1%nat /\
  deleted (census cs) = created (census cs) /\
  (attached (census cs) <= created (census cs) <= List.length shaderList)%nat /\
  (links (census cs) <= 1)%nat /\
  (forall this,
     fst (make shaderList w) = Returned this ->
     created (census cs) = List.length shaderList /\
     attached (census cs) = List.length shaderList /\
     links (census cs) = 1%nat /\ program_deletions (census cs) = 0%nat) /\
  (forall e,
     fst (make shaderList w) = Thrown e -> program_deletions (census cs) = 1%nat) /\
  deletes_created (issued (make shaderList) w).
Proof.
  intros cs. subst cs.
  assert (D : deletes_created (issued (make shaderList) w)).
  { destruct (make_events shaderList w) as (r & body & R & S).
    rewrite (runs_issued _ _ _ _ _ R).
    change (glCreateProgram :: body) with ([glCreateProgram] ++ body).
    rewrite (answers_in_app w [glCreateProgram] body []).
    apply deletes_created_app; [| exact (construction_deletes _ _ _ _ S)].
    apply deletes_created_plain. repeat constructor. }
  revert D.
  destruct (make_census shaderList w) as (r & body & n & k & l & R & B & L & O).
  rewrite (runs_outcome _ _ _ _ _ R), (runs_issued _ _ _ _ _ R), answers_in_calls.
  change (glCreateProgram :: body) with ([glCreateProgram] ++ body). rewrite census_app.
  intros D.
  destruct O as [(-> & C & -> & -> & ->) | (what & body' & -> & -> & C)].
  - rewrite C. cbn. repeat split; try lia; try exact D; intros; discriminate.
  - rewrite census_app, C. cbn. repeat split; try lia; try exact D; intros; discriminate.
Qed.

(** X9: whatever a client asks of a constructed program, in any order, the
    requests return, and every native call they issue is an upload or names
    the program's own handle: nothing creates, attaches or deletes a
    shader, links, or deletes the program.  A request issues at most two
    calls. *)
Theorem requests_stay_with_program (this : t) (qs : list Request) (w : World) :
  fst (serve_all this qs w) = Returned tt /\
  Forall (fun c => of_program (m_handle this) c = true)
         (map fst (issued (serve_all this qs) w)) /\
  census (map fst (issued (serve_all this qs) w)) = mkCensus 0 0 0 0 0 0 /\
  (List.length (issued (serve_all this qs) w) <= 2 * List.length qs)%nat.
Proof.
  destruct (serve_all_runs this qs w) as (cs & R & F & L).
  rewrite (runs_outcome _ _ _ _ _ R), (runs_issued _ _ _ _ _ R), answers_in_calls.
  split; [reflexivity |]. split; [exact F |]. split; [now apply (of_program_census _ _ F) |].
  rewrite <- (answers_in_calls w cs) in L. now rewrite length_map in L.
Qed.

(** X10: over the life of a program object in a scope (constructed, used by
    any requests, destroyed; or never constructed because the constructor
    threw) exactly one program is created and exactly one deleted, the one
    the driver created, as the last native call; and as many shaders are
    deleted as were created. *)
Theorem program_deleted_exactly_once
    (shaderList : ShaderSourceList) (qs : list Request) (w : World) :
  let cs := map fst (issued (scoped shaderList qs) w) in
  programs (census cs) = 1%nat /\
  program_deletions (census cs) = 1%nat /\
  deleted (census cs) = created (census cs) /\
  (exists before, cs = glCreateProgram :: before ++ [glDeleteProgram (new_program w)]).
Proof.
  intros cs. subst cs.
  destruct (make_census shaderList w) as (r & body & n & k & l & R & B & L & O).
  destruct O as [(-> & C & -> & -> & ->) | (what & body' & -> & -> & C)].
  - destruct (serve_all_runs (mk (new_program w) "") qs
                (after w (answers_in w (glCreateProgram :: body)) []))
      as (cs2 & R2 & F2 & _).
    assert (R3 : runs (scoped shaderList qs) w (Returned tt)
                   (answers_in w ((glCreateProgram :: body) ++ cs2 ++
                                  [glDeleteProgram (new_program w)])) []).
    { unfold scoped.
      eapply runs_as;
        [ eapply runs_then; [exact R |];
          eapply runs_then; [exact R2 | apply runs_call_in]
        | reflexivity | reflexivity ]. }
    rewrite (runs_issued _ _ _ _ _ R3), answers_in_calls.
    change (glCreateProgram :: body) with ([glCreateProgram] ++ body).
    rewrite !census_app, C, (of_program_census _ _ F2). cbn.
    repeat split; try lia.
    exists (body ++ cs2). now rewrite <- !app_assoc.
  - assert (R3 : runs (scoped shaderList qs) w (Thrown (GLSLProgramException what))
                   (answers_in w (glCreateProgram :: body' ++
                                  [glDeleteProgram (new_program w)])) []).
    { unfold scoped. apply runs_stop. exact R. }
    rewrite (runs_issued _ _ _ _ _ R3), answers_in_calls.
    change (glCreateProgram :: body' ++ [glDeleteProgram (new_program w)])
      with ([glCreateProgram] ++ body' ++ [glDeleteProgram (new_program w)]).
    rewrite !census_app, C. cbn. repeat split; try lia.
    exists body'. reflexivity.
Qed.

Lemma constructor_census_witness :
  created (census (map fst (issued (make vertex_and_fragment) (start compiling)))) = 2%nat /\
  program_deletions
    (census (map fst (issued (make vertex_and_fragment) (start rejecting_fragment)))) = 1%nat.
Proof.
  split.
  - destruct (constructor_census vertex_and_fragment (start compiling))
      as (_ & _ & _ & _ & _ & H & _).
    exact (proj1 (H (mk 9 "") eq_refl)).
  - destruct (constructor_census vertex_and_fragment (start rejecting_fragment))
      as (_ & _ & _ & _ & _ & _ & H & _).
    exact (H (GLSLProgramException "syntax erro") eq_refl).
Defined.

Example scoped_program :
  map fst (issued (scoped [(Vertex, "void main(){}")] [Use; SetUniform1i "tex" 0])
             (start compiling)) =
  [glCreateProgram;
   glCreateShader GL_VERTEX_SHADER; glShaderSource 11 1 "void main(){}"; glCompileShader 11;
   glGetShaderiv 11 GL_COMPILE_STATUS; glAttachShader 9 11; glDeleteShader 11;
   glLinkProgram 9; glGetProgramiv 9 GL_LINK_STATUS;
   glUseProgram 9; glGetUniformLocation 9 "tex"; glUniform1i 0 0;
   glDeleteProgram 9].
Proof. reflexivity. Qed.

End ProgramLifetimeFacts.

Module BufferLifetimeFacts.
Import Observe RunFacts AnswerFacts TextureSequence BufferFacts.
Import ShaderStorageBufferObject BufferLifetime.

Lemma reload_runs_calls this size index data w :
  exists evs lines,
    runs (reload this size index data) w (Returned (set_size this size)) evs lines /\
    map fst evs = reload_calls (m_handle this) size data ++ [glGetError].
Proof.
  pose proof (reload_runs this size index data w) as R. cbv zeta in R.
  do 2 eexists. split; [exact R |]. now rewrite map_app, answers_in_calls.
Qed.

(** A sequence of reloads, call by call: always on the same buffer. *)
Lemma reload_all_calls rs :
  forall this w,
  exists evs lines this',
    runs (reload_all rs this) w (Returned this') evs lines /\
    map fst evs = reloads_calls (m_handle this) rs /\
    m_handle this' = m_handle this.
Proof.
  induction rs as [| [[size index] data] rest IH]; intros this w.
  - exists [], [], this. split; [apply runs_pure | split; reflexivity].
  - destruct (reload_runs_calls this size index data w) as (e1 & l1 & R1 & C1).
    destruct (IH (set_size this size) (after w e1 l1)) as (e2 & l2 & this' & R2 & C2 & H2).
    exists (e1 ++ e2), (l1 ++ l2), this'. split; [| split].
    + unfold reload_all in *. cbn [for_each].
      eapply runs_bind; [exact R1 | exact R2].
    + rewrite map_app, C1, C2. unfold reloads_calls. cbn [flat_map fst snd].
      now rewrite <- app_assoc.
    + exact H2.
Qed.

Lemma uploaded_sizes_app a b : uploaded_sizes (a ++ b) = uploaded_sizes a ++ uploaded_sizes b.
Proof. unfold uploaded_sizes. apply flat_map_app. Qed.

Lemma reloads_uploaded_sizes h rs : uploaded_sizes (reloads_calls h rs) = sizes rs.
Proof.
  induction rs as [| [[size index] data] rest IH]; [reflexivity |].
  unfold reloads_calls, sizes in *. cbn [flat_map map fst snd].
  rewrite uploaded_sizes_app, IH. reflexivity.
Qed.

Lemma reloads_error_queries h rs :
  List.length (filter is_error_query (reloads_calls h rs)) = List.length rs.
Proof.
  induction rs as [| [[size index] data] rest IH]; [reflexivity |].
  unfold reloads_calls in *. cbn [flat_map fst snd].
  rewrite filter_app, length_app, IH. reflexivity.
Qed.

(** X11: the life of a buffer object, call by call.  The constructor
    generates one buffer, uploads and unbinds without querying the error
    code; each reload uploads to that same buffer, unbinds and queries the
    error code once; the destructor deletes the buffer last.  The sizes the
    driver is given are the constructor's size followed by the sizes of the
    reloads, and the index argument of reload is never used. *)
Theorem buffer_lifecycle (size0 data0 : Z) (rs : list (Z * Z * Z)) (w : World) :
  let cs := map fst (issued (scoped size0 data0 rs) w) in
  fst (scoped size0 data0 rs w) = Returned tt /\
  cs = glGenBuffers 1 :: reload_calls (new_buffer w) size0 data0 ++
       reloads_calls (new_buffer w) rs ++ [glDeleteBuffers 1 (new_buffer w)] /\
  uploaded_sizes cs = size0 :: sizes rs /\
  error_checks (issued (scoped size0 data0 rs) w) = List.length rs /\
  (forall this size index index' data w',
     reload this size index data w' = reload this size index' data w').
Proof.
  intros cs. subst cs.
  pose proof (buffer_make_runs size0 data0 w) as R1.
  match type of R1 with runs _ _ (Returned ?o) ?e ?l =>
    destruct (reload_all_calls rs o (after w e l)) as (e2 & l2 & this' & R2 & C2 & H2)
  end.
  cbn [m_handle] in C2, H2.
  assert (R3 : exists e3 lines,
                 runs (scoped size0 data0 rs) w (Returned tt)
                      (answers_in w (glGenBuffers 1 ::
                                     reload_calls (new_buffer w) size0 data0) ++ e2 ++ e3)
                      lines /\
                 map fst e3 = [glDeleteBuffers 1 (new_buffer w)]).
  { do 2 eexists. split.
    - unfold scoped. eapply runs_bind; [exact R1 |].
      eapply runs_bind; [exact R2 |]. unfold destroy. rewrite H2. apply runs_call.
    - reflexivity. }
  destruct R3 as (e3 & lines & R3 & C3).
  assert (E : map fst (issued (scoped size0 data0 rs) w) =
              glGenBuffers 1 :: reload_calls (new_buffer w) size0 data0 ++
              reloads_calls (new_buffer w) rs ++ [glDeleteBuffers 1 (new_buffer w)]).
  { rewrite (runs_issued _ _ _ _ _ R3), !map_app, answers_in_calls, C2, C3. reflexivity. }
  split; [exact (runs_outcome _ _ _ _ _ R3) |]. split; [exact E |]. split; [| split].
  - rewrite E. change (glGenBuffers 1 :: ?x) with ([glGenBuffers 1] ++ x).
    rewrite !uploaded_sizes_app, reloads_uploaded_sizes. cbn. now rewrite app_nil_r.
  - unfold error_checks. rewrite E.
    change (glGenBuffers 1 :: ?x) with ([glGenBuffers 1] ++ x).
    rewrite !filter_app, !length_app, reloads_error_queries. simpl. lia.
  - reflexivity.
Qed.

Example buffer_lifecycle_calls :
  map fst (issued (scoped 64 4096 [(128, 3, 8192)]) (start healthy)) =
  [glGenBuffers 1;
   glBindBuffer GL_SHADER_STORAGE_BUFFER 1;
   glBufferData GL_SHADER_STORAGE_BUFFER 64 4096 GL_DYNAMIC_DRAW;
   glBindBuffer GL_SHADER_STORAGE_BUFFER 0;
   glBindBuffer GL_SHADER_STORAGE_BUFFER 1;
   glBufferData GL_SHADER_STORAGE_BUFFER 128 8192 GL_DYNAMIC_DRAW;
   glBindBuffer GL_SHADER_STORAGE_BUFFER 0;
   glGetError;
   glDeleteBuffers 1 1].
Proof. reflexivity. Qed.

End BufferLifetimeFacts.

Module TextureLifetimeFacts.
Import Texture Observe RunFacts AnswerFacts TextureSequence TextureFacts Samples.
Import TextureLifetime.

Lemma updateMipmaps_runs tex w :
  runs (Texture2DArray.updateMipmaps tex) w (Returned tt)
       (answers_in w [glBindTexture GL_TEXTURE_2D_ARRAY (m_name (Texture2DArray.base tex));
                      glGenerateMipmap GL_TEXTURE_2D_ARRAY;
                      glBindTexture GL_TEXTURE_2D_ARRAY 0]) [].
Proof.
  unfold Texture2DArray.updateMipmaps.
  eapply runs_as;
    [ eapply runs_then; [apply runs_call_in |];
      eapply runs_then; [apply runs_call_in | apply runs_call_in]
    | reflexivity | reflexivity ].
Qed.

Lemma left_bound_last cs texture rest :
  (forall c, In c rest -> match c with glBindTexture _ _ => False | _ => True end) ->
  left_bound (cs ++ glBindTexture GL_TEXTURE_2D_ARRAY texture :: rest) = Some texture.
Proof.
  intros H. unfold left_bound. rewrite fold_left_app. cbn [fold_left].
  rewrite Z.eqb_refl.
  induction rest as [| c rest IH]; [reflexivity |].
  cbn [fold_left]. pose proof (H c (or_introl eq_refl)) as Hc.
  destruct c; try contradiction; apply IH; intros c' Hin; apply H; now right.
Qed.

(** X12: an array texture the constructor built answers its getters with
    the constructor's arguments: the id, the name the driver generated,
    and the layout's formats, type and extents.  The extents are kept
    unsigned, so a negative extent reads back increased by 2^32. *)
Theorem accessors_after_construction
    (p : Z) (id : string) (L : TextureLayout) (data : Z) (generateMipmap : bool) (w : World) :
  TextureLayout_wf L ->
  exists tex,
    fst (Texture2DArray.make p id L data generateMipmap w) = Returned tex /\
    getId (Texture2DArray.base tex) = id /\
    getName (Texture2DArray.base tex) = new_texture w /\
    getFormat (Texture2DArray.base tex) = format L /\
    getType (Texture2DArray.base tex) = type L /\
    getInternalFormat (Texture2DArray.base tex) = internal_format L mod 2 ^ 32 /\
    Texture2DArray.getWidth tex = width L mod 2 ^ 32 /\
    Texture2DArray.getHeigth tex = height L mod 2 ^ 32 /\
    Texture2DArray.getLayers tex = depth L mod 2 ^ 32 /\
    (0 <= internal_format L -> getInternalFormat (Texture2DArray.base tex) = internal_format L) /\
    (0 <= width L -> Texture2DArray.getWidth tex = width L) /\
    (0 <= height L -> Texture2DArray.getHeigth tex = height L) /\
    (0 <= depth L -> Texture2DArray.getLayers tex = depth L) /\
    (width L < 0 -> Texture2DArray.getWidth tex = width L + 2 ^ 32).
Proof.
  intros (Hf & Hw & Hh & Hd & _).
  destruct (texture_make_runs p id L data generateMipmap w) as (handle & R).
  eexists. split; [exact (runs_outcome _ _ _ _ _ R) |].
  unfold made, getId, getName, getFormat, getType, getInternalFormat,
    Texture2DArray.getWidth, Texture2DArray.getHeigth, Texture2DArray.getLayers,
    as_GLenum, as_unsigned, to_unsigned, is_signed in *.
  cbn [Texture2DArray.base Texture2DArray.m_width Texture2DArray.m_height
       Texture2DArray.m_layers m_id m_name m_format m_type m_internal_format].
  change (2 ^ (32 - 1)) with 2147483648 in *. change (2 ^ 32) with 4294967296.
  repeat split; try (intros H; apply Z.mod_small; lia).
  intros H. symmetry. apply Z.mod_unique with (q := -1); lia.
Qed.

Lemma accessors_after_construction_witness :
  exists tex,
    fst (Texture2DArray.make int_min "atlas" large_array 4096 true (start healthy)) =
      Returned tex /\
    Texture2DArray.getWidth tex = 256 /\ getName (Texture2DArray.base tex) = 1.
Proof.
  destruct (accessors_after_construction int_min "atlas" large_array 4096 true
              (start healthy) TextureClaims.large_array_wf)
    as (tex & Hr & _ & Hn & _ & _ & _ & _ & _ & _ & _ & Hw & _).
  exists tex. split; [exact Hr |]. split; [| exact Hn].
  apply Hw. vm_compute. discriminate.
Defined.

(** X13: the life of an array texture in a scope: the constructor's calls
    and its one error query, then bind, generate mipmaps and unbind, then
    the deletion of the name the driver generated; nothing throws.  The
    constructor and [updateMipmaps] leave name 0 bound to the 2D-array
    target; [bindTexture] leaves the texture's name bound. *)
Theorem texture_lifecycle
    (p : Z) (id : string) (L : TextureLayout) (data : Z) (generateMipmap : bool)
    (tex : Texture2DArray.t) (w : World) :
  fst (scoped p id L data generateMipmap w) = Returned tt /\
  map fst (issued (scoped p id L data generateMipmap) w) =
    map fst (issued (Texture2DArray.make p id L data generateMipmap) w) ++
    [glBindTexture GL_TEXTURE_2D_ARRAY (new_texture w);
     glGenerateMipmap GL_TEXTURE_2D_ARRAY;
     glBindTexture GL_TEXTURE_2D_ARRAY 0;
     glDeleteTextures 1 (new_texture w)] /\
  left_bound (map fst (issued (Texture2DArray.make p id L data generateMipmap) w)) = Some 0 /\
  left_bound (map fst (issued (Texture2DArray.updateMipmaps tex) w)) = Some 0 /\
  left_bound (map fst (issued (Texture2DArray.bindTexture tex) w)) =
    Some (m_name (Texture2DArray.base tex)).
Proof.
  destruct (texture_make_runs p id L data generateMipmap w) as (handle & R).
  cbv zeta in R.
  match type of R with runs _ _ (Returned ?o) ?e ?l =>
    pose proof (updateMipmaps_runs o (after w e l)) as R2;
    set (evs := e) in *; set (lines := l) in *; set (obj := o) in *
  end.
  assert (R3 : runs (scoped p id L data generateMipmap) w (Returned tt)
                 (evs ++ answers_in (after w evs lines)
                           ([glBindTexture GL_TEXTURE_2D_ARRAY (new_texture w);
                             glGenerateMipmap GL_TEXTURE_2D_ARRAY;
                             glBindTexture GL_TEXTURE_2D_ARRAY 0] ++
                            [glDeleteTextures 1 (new_texture w)]))
                 (lines ++ [] ++ [])).
  { unfold scoped. eapply runs_bind; [exact R |].
    eapply runs_then; [exact R2 | apply runs_call_in]. }
  split; [exact (runs_outcome _ _ _ _ _ R3) |]. split; [| split; [| split]].
  - rewrite (runs_issued _ _ _ _ _ R3), (runs_issued _ _ _ _ _ R), map_app,
      answers_in_calls. reflexivity.
  - rewrite (runs_issued _ _ _ _ _ R). subst evs. rewrite map_app, answers_in_calls.
    unfold creation_calls_of_members, creation_calls.
    cbn [map fst].
    rewrite !app_assoc.
    rewrite <- (app_assoc _ [glGetTextureHandleARB (new_texture w);
                             glBindTexture GL_TEXTURE_2D_ARRAY 0] [glGetError]).
    match goal with |- left_bound (?a ++ ?b) = _ =>
      change b with ([glGetTextureHandleARB (new_texture w)] ++
                     glBindTexture GL_TEXTURE_2D_ARRAY 0 :: [glGetError])
    end.
    rewrite app_assoc. apply left_bound_last.
    intros c [<- | []]. exact I.
  - rewrite (runs_issued _ _ _ _ _ (updateMipmaps_runs tex w)), answers_in_calls.
    reflexivity.
  - unfold Texture2DArray.bindTexture.
    rewrite (runs_issued _ _ _ _ _ (runs_call_in _ w)), answers_in_calls.
    unfold left_bound. cbn. reflexivity.
Qed.

Lemma power_of_two_levels k : 0 <= k -> Z.log2 (2 ^ k) = k.
Proof. intros H. apply Z.log2_pow2. exact H. Qed.

(** X14: for a layout with a non-zero extent, the level count the storage
    call receives is never more than the layout asks for and never more
    than 32, and it is at least 1 when the layout asks for at least 1; for
    a square texture of side 2^k it is the smaller of the layout's levels
    and k + 1, the length of the full mipmap chain. *)
Theorem storage_levels_bounds
    (p : Z) (id : string) (L : TextureLayout) (data : Z) (generateMipmap : bool) (w : World) :
  TextureLayout_wf L ->
  width L <> 0 \/ height L <> 0 ->
  exists lv,
    storage_levels_passed
      (map fst (issued (Texture2DArray.make p id L data generateMipmap) w)) = [lv] /\
    lv <= levels L /\ lv <= 32 /\
    (1 <= levels L -> 1 <= lv) /\
    (forall k, 0 <= k < 31 -> width L = 2 ^ k -> height L = 2 ^ k ->
               lv = Z.min (levels L) (k + 1)).
Proof.
  intros Hwf Hnz. exists (clamped_levels L).
  pose proof (storage_levels_clamped p L Hwf Hnz) as Hc.
  destruct Hwf as (_ & Hw & Hh & _).
  split.
  - rewrite TextureClaims.make_calls. unfold creation_calls_of_members.
    rewrite Hc. apply TextureClaims.creation_calls_levels.
  - unfold clamped_levels.
    pose proof (as_unsigned_range (width L)) as Rw.
    pose proof (as_unsigned_range (height L)) as Rh.
    set (m := Z.max (as_unsigned (width L)) (as_unsigned (height L))).
    assert (Hm : 0 < m < 2 ^ 32).
    { subst m. destruct Hnz as [Hnz | Hnz].
      - pose proof (as_unsigned_nonzero _ Hw Hnz). lia.
      - pose proof (as_unsigned_nonzero _ Hh Hnz). lia. }
    assert (Hl : 0 <= Z.log2 m < 32).
    { split; [apply Z.log2_nonneg |]. apply Z.log2_lt_pow2; lia. }
    split; [lia |]. split; [lia |]. split; [lia |].
    intros k Hk Ew Eh. subst m.
    assert (Hp : 0 < 2 ^ k < 2 ^ 31).
    { split; [apply Z.pow_pos_nonneg; lia | apply Z.pow_lt_mono_r; lia]. }
    unfold as_unsigned, to_unsigned. rewrite Ew, Eh.
    rewrite Z.mod_small by (change (2 ^ 32) with (2 * 2 ^ 31); lia).
    rewrite Z.max_id, power_of_two_levels by lia. lia.
Qed.

Lemma storage_levels_bounds_witness :
  storage_levels_passed
    (map fst (issued (Texture2DArray.make int_min "small" small_array 0 false)
                (start healthy))) = [Z.min 10 (2 + 1)].
Proof.
  assert (Hwf : TextureLayout_wf small_array).
  { unfold TextureLayout_wf, is_signed, is_unsigned.
    repeat split; vm_compute; first [reflexivity | discriminate]. }
  destruct (storage_levels_bounds int_min "small" small_array 0 false (start healthy) Hwf)
    as (lv & Hp & _ & _ & _ & Hk).
  - left. vm_compute. discriminate.
  - rewrite Hp. f_equal. apply (Hk 2); [lia | reflexivity | reflexivity].
Defined.

End TextureLifetimeFacts.

Module Texture2DFacts.
Import Observe RunFacts AnswerFacts.
Import Texture2D.

Lemma texParameteri_runs this ps w :
  runs (texParameteri this ps) w (Returned tt)
       (answers_in w (glBindTexture GL_TEXTURE_2D (m_handle this) :: parameter_calls ps ++
                      [glBindTexture GL_TEXTURE_2D 0])) [].
Proof.
  unfold texParameteri, parameter_calls.
  eapply runs_as;
    [ eapply runs_then; [apply runs_call_in |];
      eapply runs_then; [apply for_each_call | apply runs_call_in]
    | reflexivity | reflexivity ].
Qed.

Lemma parameter_calls_filter ps : filter is_parameter (parameter_calls ps) = parameter_calls ps.
Proof. induction ps as [| q rest IH]; [reflexivity |]. simpl. now rewrite IH. Qed.

(** X15: [texParameteri] on a container binds the texture, sets the
    parameters of the container in order, one call each, and unbinds; it
    never throws.  Setting parameters in two batches issues the same
    parameter calls, in the same order, as setting them in one. *)
Theorem texParameteri_batches (this : t) (ps qs : list (Z * Z)) (w : World) :
  fst (texParameteri this ps w) = Returned tt /\
  map fst (issued (texParameteri this ps) w) =
    glBindTexture GL_TEXTURE_2D (m_handle this) :: parameter_calls ps ++
    [glBindTexture GL_TEXTURE_2D 0] /\
  List.length (issued (texParameteri this ps) w) = (List.length ps + 2)%nat /\
  filter is_parameter
    (map fst (issued (texParameteri this ps ;;; texParameteri this qs) w)) =
  filter is_parameter (map fst (issued (texParameteri this (ps ++ qs)) w)).
Proof.
  pose proof (texParameteri_runs this ps w) as R.
  split; [exact (runs_outcome _ _ _ _ _ R) |].
  split; [now rewrite (runs_issued _ _ _ _ _ R), answers_in_calls |].
  split.
  - rewrite <- (length_map fst), (runs_issued _ _ _ _ _ R), answers_in_calls.
    unfold parameter_calls. cbn [List.length]. rewrite length_app, length_map. simpl. lia.
  - pose proof (runs_then _ (fun _ => texParameteri this qs) _ _ _ _ _ _ _ R
                  (texParameteri_runs this qs _)) as R2.
    rewrite (runs_issued _ _ _ _ _ R2), answers_in_calls.
    rewrite (runs_issued _ _ _ _ _ (texParameteri_runs this (ps ++ qs) w)), answers_in_calls.
    change (glBindTexture GL_TEXTURE_2D (m_handle this) :: ?x)
      with ([glBindTexture GL_TEXTURE_2D (m_handle this)] ++ x).
    rewrite !filter_app, !parameter_calls_filter. cbn [filter is_parameter app].
    unfold parameter_calls. rewrite map_app, !app_nil_r. reflexivity.
Qed.

Example texParameteri_nothing :
  map fst (issued (texParameteri (mk 4) []) (start healthy)) =
  [glBindTexture GL_TEXTURE_2D 4; glBindTexture GL_TEXTURE_2D 0].
Proof. reflexivity. Qed.

End Texture2DFacts.

Module ConstructionFootprintFacts.
Import VertexLayout Observe RunFacts AnswerFacts ConstructionSequence IssuedSequence.
Import VertexArrayFacts VertexArrayRuns Samples ConstructionFootprint.
Import VertexArrayObject.

Lemma footprint_app a b : footprint a -> footprint b -> footprint (a ++ b).
Proof. unfold footprint. intros Ha Hb. rewrite map_app. apply Forall_app. now split. Qed.

Lemma format_call_footprint h idx a :
  Forall (fun c => is_construction_call c = true) (format_call h idx a).
Proof.
  unfold format_call.
  repeat match goal with |- context [if ?b then _ else _] => destruct b end;
    repeat constructor.
Qed.

Lemma format_call_one h idx a : valid_input a -> List.length (format_call h idx a) = 1%nat.
Proof.
  intros Hv. destruct (attribFormat_valid h idx a Hv) as (c & -> & _). reflexivity.
Qed.

Lemma footprint_nil : footprint [].
Proof. constructor. Qed.

(** The inner loop, whatever the attributes are. *)
Lemma attribute_loop_footprint h j attrs :
  forall idx w,
  exists r evs, runs (for_each attrs (attribute_body h j) idx) w r evs [] /\ footprint evs.
Proof.
  induction attrs as [| a rest IH]; intros idx w; cbn [for_each].
  - do 2 eexists. split; [apply runs_pure | constructor].
  - destruct (valid_input_dec a) as [Ha | Ha].
    + destruct (attribute_body_valid h j a idx w Ha) as (e1 & R1 & C1).
      destruct (IH (as_GLuint (idx + 1)) (after w e1 [])) as (r & e2 & R2 & F2).
      exists r, (e1 ++ e2). split.
      * eapply runs_seq; [exact R1 | exact R2 | reflexivity | reflexivity].
      * apply footprint_app; [| exact F2]. unfold footprint. rewrite C1.
        constructor; [reflexivity |]. apply Forall_app. split.
        -- apply format_call_footprint.
        -- repeat constructor.
    + do 2 eexists. split.
      * apply runs_bind_thrown. now apply attribute_body_invalid.
      * repeat constructor.
Qed.

Lemma layout_body_footprint h l locals w :
  exists r evs, runs (layout_body h l locals) w r evs [] /\ footprint evs.
Proof.
  destruct locals as [gidx lidx]. unfold layout_body.
  set (c := glVertexArrayVertexBuffer h (as_GLuint lidx) (buffer_name l)
              (buffer_start_offset l) (stride l)).
  destruct (attribute_loop_footprint h lidx (attributes l) gidx
              (after w [(c, driver w (calls w) c)] [])) as (r1 & e1 & R1 & F1).
  destruct r1 as [gidx' | e].
  - eexists _, _. split.
    + eapply runs_seq; [apply runs_call | | reflexivity | reflexivity].
      eapply runs_seq; [exact R1 | apply runs_pure | reflexivity | reflexivity].
    + apply footprint_app; [repeat constructor |].
      apply footprint_app; [exact F1 | apply footprint_nil].
  - eexists _, _. split.
    + eapply runs_seq; [apply runs_call | | reflexivity | reflexivity].
      apply runs_bind_thrown. exact R1.
    + apply footprint_app; [repeat constructor | exact F1].
Qed.

(** The outer loop, whatever the layouts are. *)
Lemma layout_loop_footprint h descr :
  forall locals w,
  exists r evs, runs (for_each descr (layout_body h) locals) w r evs [] /\ footprint evs.
Proof.
  induction descr as [| l rest IH]; intros locals w; cbn [for_each].
  - do 2 eexists. split; [apply runs_pure | constructor].
  - destruct (layout_body_footprint h l locals w) as (r1 & e1 & R1 & F1).
    destruct r1 as [locals' | e].
    + destruct (IH locals' (after w e1 [])) as (r & e2 & R2 & F2).
      exists r, (e1 ++ e2). split.
      * eapply runs_seq; [exact R1 | exact R2 | reflexivity | reflexivity].
      * now apply footprint_app.
    + exists (Thrown e), e1. split; [apply runs_bind_thrown; exact R1 | exact F1].
Qed.

Lemma createVertexArray_footprint this w :
  exists r first rest,
    runs (createVertexArray this) w r (first :: rest) [] /\
    fst first = glCreateVertexArrays 1 /\ footprint rest.
Proof.
  unfold createVertexArray.
  set (c := glCreateVertexArrays 1).
  set (h := as_GLuint (value (driver w (calls w) c))).
  destruct (layout_loop_footprint h (m_vertex_descriptor this) (0, 0)
              (after w [(c, driver w (calls w) c)] [])) as (r1 & e1 & R1 & F1).
  destruct r1 as [locals | e].
  - destruct (element_buffer_runs h (m_index_buffer_name this)
                (after (after w [(c, driver w (calls w) c)] []) e1 [])) as (e2 & R2 & C2).
    eexists _, (c, driver w (calls w) c), _. split; [| split; [reflexivity |]].
    + eapply runs_seq; [apply runs_gl | | reflexivity | reflexivity].
      eapply runs_seq; [exact R1 | | reflexivity | reflexivity].
      eapply runs_seq; [exact R2 | apply runs_pure | reflexivity | reflexivity].
    + apply footprint_app; [exact F1 |]. apply footprint_app; [| apply footprint_nil].
      unfold footprint. rewrite C2. unfold element_buffer_call.
      destruct (_ =? 0); repeat constructor.
  - eexists _, (c, driver w (calls w) c), _. split; [| split; [reflexivity |]].
    + eapply runs_seq; [apply runs_gl | | reflexivity | reflexivity].
      apply runs_bind_thrown. exact R1.
    + exact F1.
Qed.

Lemma footprint_no_delete evs :
  footprint evs -> Forall (fun c => is_delete_vertex_array c = false) (map fst evs).
Proof.
  unfold footprint. apply Forall_impl. intros c Hc. destruct c; try discriminate Hc; reflexivity.
Qed.

(** X16: whatever the descriptor and the driver, the constructor's first
    native call creates a vertex array and none of its calls deletes one:
    its calls are those of [createVertexArray], followed by at most one
    error query, which is then the last call.  So when the constructor throws, on an invalid shader
    input type or on an error code, the vertex array it created is left
    undeleted. *)
Theorem constructor_never_deletes
    (descr : list VertexLayout.t) (cnt ibn idt prim : Z) (w : World) :
  let cs := map fst (issued (make descr cnt ibn idt prim) w) in
  hd_error cs = Some (glCreateVertexArrays 1) /\
  Forall (fun c => is_delete_vertex_array c = false) cs /\
  Forall (fun c => is_construction_call c = true \/ c = glGetError) cs /\
  (exists body tail,
     cs = glCreateVertexArrays 1 :: body ++ tail /\
     Forall (fun c => is_construction_call c = true) body /\
     (tail = [] \/ tail = [glGetError])).
Proof.
  intros cs. subst cs.
  destruct (createVertexArray_footprint (mk 0 descr prim cnt idt ibn) w)
    as (r & first & rest & R & Hf & F).
  destruct first as [c o]. cbn [fst] in Hf. subst c.
  assert (Shape : exists tail,
            map fst (issued (make descr cnt ibn idt prim) w) =
              glCreateVertexArrays 1 :: map fst rest ++ tail /\
            (tail = [] \/ tail = [glGetError])).
  { unfold make. destruct r as [this | e].
    - pose proof (checkError_runs this (after w ((glCreateVertexArrays 1, o) :: rest) []))
        as R2.
      exists [glGetError]. split; [| now right].
      destruct (checkError_outcome _) as [[] | e].
      + erewrite runs_issued.
        2: { eapply runs_seq; [exact R | | reflexivity | reflexivity].
             eapply runs_seq; [exact R2 | apply runs_pure | reflexivity | reflexivity]. }
        cbn [map fst]. rewrite !map_app. cbn. reflexivity.
      + erewrite runs_issued.
        2: { eapply runs_seq; [exact R | | reflexivity | reflexivity].
             apply runs_bind_thrown. exact R2. }
        cbn [map fst]. rewrite !map_app. reflexivity.
    - exists []. split; [| now left].
      erewrite runs_issued.
      2: { apply runs_bind_thrown. exact R. }
      cbn [map fst]. now rewrite app_nil_r. }
  destruct Shape as (tail & -> & Ht).
  split; [reflexivity |].
  split; [| split; [| exists (map fst rest), tail; split; [reflexivity | split; [exact F | exact Ht]]]].
  - constructor; [reflexivity |]. apply Forall_app. split.
    + now apply footprint_no_delete.
    + destruct Ht as [-> | ->]; repeat constructor.
  - constructor; [now left |]. apply Forall_app. split.
    + unfold footprint in F. revert F. apply Forall_impl. intros c Hc. now left.
    + destruct Ht as [-> | ->]; [constructor | constructor; [now right | constructor]].
Qed.

Lemma attribute_calls_length h j attrs :
  Forall valid_input attrs ->
  forall idx,
    Z.of_nat (List.length (attribute_calls_u32 h j idx attrs)) =
    3 * Z.of_nat (List.length attrs).
Proof.
  induction 1 as [| a rest Ha _ IH]; intros idx; [reflexivity |].
  cbn [attribute_calls_u32 List.length]. rewrite length_app.
  cbn [List.length]. rewrite (format_call_one _ _ _ Ha).
  specialize (IH (as_GLuint (idx + 1))). lia.
Qed.

Lemma layout_calls_length h descr :
  all_valid descr ->
  forall j idx,
    Z.of_nat (List.length (layout_calls_u32 h j idx descr)) =
    Z.of_nat (List.length descr) + 3 * attribute_count descr.
Proof.
  induction 1 as [| l rest Hl _ IH]; intros j idx; [reflexivity |].
  change (attribute_count (l :: rest))
    with (Z.of_nat (List.length (attributes l)) + attribute_count rest).
  cbn [layout_calls_u32 List.length]. rewrite length_app.
  pose proof (attribute_calls_length h j (attributes l) Hl idx) as Ha.
  specialize (IH (as_size_t (j + 1)) (next_attrib_idx idx (attributes l))). lia.
Qed.

(** X17: for a descriptor whose attributes all have a valid shader input
    type, [createVertexArray] issues one call to create, one per layout,
    three per attribute, and one more if an index buffer is named; for an
    empty descriptor that is the create call alone, or create and the
    element-buffer bind. *)
Theorem construction_call_count_valid
    (descr : list VertexLayout.t) (cnt ibn idt prim : Z) (w : World) :
  all_valid descr ->
  Z.of_nat (List.length (issued (createVertexArray (mk 0 descr prim cnt idt ibn)) w)) =
    construction_call_count descr ibn /\
  (descr = [] ->
   map fst (issued (createVertexArray (mk 0 descr prim cnt idt ibn)) w) =
     glCreateVertexArrays 1 :: element_buffer_call (new_vertex_array w) ibn).
Proof.
  intros Hv.
  destruct (createVertexArray_valid (mk 0 descr prim cnt idt ibn) w Hv) as (evs & R & C).
  rewrite (runs_issued _ _ _ _ _ R). cbn [m_vertex_descriptor m_index_buffer_name] in C.
  split.
  - rewrite <- (length_map fst), C. cbn [List.length]. rewrite length_app.
    pose proof (layout_calls_length (new_vertex_array w) descr Hv 0 0) as Hl.
    unfold construction_call_count, element_buffer_call.
    destruct (ibn =? 0); cbn [List.length]; lia.
  - intros ->. rewrite C. reflexivity.
Qed.

Lemma construction_call_count_valid_witness :
  Z.of_nat (List.length
              (issued (createVertexArray (mk 0 three_buffers GL_TRIANGLES 36 GL_UNSIGNED_INT 7))
                      (start quiet))) = 17.
Proof.
  exact (proj1 (construction_call_count_valid three_buffers 36 7 GL_UNSIGNED_INT GL_TRIANGLES
                  (start quiet) ErrorClaims.three_buffers_valid)).
Defined.

Example constructor_leaks_on_error :
  VertexArrayObject.make three_buffers 36 7 GL_UNSIGNED_INT GL_TRIANGLES (start failing) =
  (Thrown (MeshException "Mesh::Mesh - OpenGL error 1285"),
   after (start failing)
     (answers_in (start failing)
        (construction_calls 1 three_buffers 7 ++ [glGetError])) []).
Proof. reflexivity. Qed.

End ConstructionFootprintFacts.
